(* ===== verification/_CoqProject ===== *)
-Q . S2P
Prelude.v
Cell.v
Text.v
Header.v
Tokenizer.v
Frame.v
Csv.v
Missing.v
Filter.v
Moments.v
Corr.v
CorrReal.v
Stats.v
Widgets.v
Dashboard.v
Page.v
Upload.v
