(* ===== verification/Prelude.v ===== *)
(** * EDA dashboard: a verification development of [src/app.py]

    ** The program

    [src/app.py] is a Streamlit script.  On every interaction it runs top
    to bottom: it reads an uploaded CSV with [pd.read_csv] (line 15),
    previews it, shows three metrics (rows, columns, missing cells), the
    per-column missing counts, [df.describe()], a sidebar filter (a
    numeric column and a [low, high] slider bounded by that column's min
    and max, lines 45-68), the filtered frame, a line chart of a chosen
    numeric column of the filtered frame (lines 77-83) and the
    correlation matrix [df[numeric_cols].corr()] (line 87).  The parts
    interact only through the data: every section reads the one frame
    [df]; the chart reads the filtered frame; the widgets feed the
    filter.  There is no state between runs.

    ** The library, file by file

    - [Prelude] (this file): the scope [eda_scope] with the sum notation
      [Σ[x <- l] e], the hint databases [eda] and [eda_sum], the tactics
      [split_and] and [qbool], and the shared lemmas on sums of rationals,
      counts, [div4_spec] and the executable duplicate test [nodupb].
    - [Text] (Module [Text]): the upload as bytes, the comma field
      split [split_on] and its inverse [join_on], pandas' decimal number
      reader [parse_number] and Python's [str(n)].
    - [Header] (Module [Header]): the header row's names, [Unnamed: i]
      for an empty one and pandas' duplicate-renaming [while] loop
      [mangle] with its counts dictionary, run with fuel.
    - [Tokenizer] (Module [Tokenizer]): the C tokenizer of
      [pd.read_csv] as a state machine: the states of pandas'
      [tokenize_bytes] as the inductive [tstate], its buffers (field,
      record, records) as the record [tok], one turn of its [switch] as
      [step], end of input ([parser_handle_eof]) as [finish], and
      [tokenize] the fold of [step] over the upload; quoted fields with
      doubled quotes, [\r\n] and [\r] line ends and blank lines are
      handled as pandas does.  The line-level reading ([lines] split on
      the delimiter) is the specification it refines on uploads without
      quotes, through the simulation relation [repr].
    - [Csv] (Module [Csv]): [pd.read_csv] (line 15) on the uploaded
      bytes: UTF-8 check, the tokenizer's records, header, field-count
      checks, NA strings and the numeric/bool/object column conversion,
      to a frame, an error, or [CsvOutside] for inputs the model leaves
      out.
    - [Cell] (Module [Cell]): a parsed cell ([CNum], [CBool], [CStr],
      [CNA]), a Python float [flt] ([Fin q] or [NaN]), the dtype
      [read_csv] infers ([infer_dtype]), [isnull], and the element-wise
      comparisons [ge_flt]/[le_flt] of lines 64-65 (NaN compares false).
    - [Frame] (Module [Frame]): the DataFrame as an index and named
      columns; [shape], [head] (lines 19, 72), [column] ([df[c]]),
      [mask_rows] ([df[mask]]), [select] ([df[cols]], line 87); the
      invariant [wf] (distinct labels and names, aligned columns), its
      executable check [wfb], the row view [rows], and the lemma that a
      mask selects whole rows ([rows_mask_rows]).
    - [Missing] (Module [Missing]): [df.isnull().sum()], its total, the
      positive counts and the branch of lines 33-36.
    - [Filter] (Module [Filter]): [numeric_cols] (line 45), the skipna
      [series_min]/[series_max] (lines 53-54), [range_mask] and
      [filter_range] (lines 63-66).
    - [Moments] (Module [Moments]): pandas' [nancorr] inner loop, a Welford
      online update ([wstep], [welford]), and the two-pass reference
      formulas [mean], [ssq], [cov].
    - [Corr] (Module [Corr]): pairwise-complete observations, the NaN
      rules of [nancorr] ([minp = 1], zero divisor), the mirrored matrix
      [nancorr] and [corr] of line 87.  A coefficient is [Corr num den],
      standing for [num / sqrt den]; [pearson] is the two-pass reference
      coefficient the spec's [correlate] describes.
    - [CorrReal] (Module [CorrReal]): the coefficient as the real number
      pandas stores, [coef (Corr num den) = Q2R num / sqrt (Q2R den)],
      over the Standard Library's [Reals].
    - [Stats] (Module [Stats]): [df.describe()] (line 40), numeric branch
      (count, mean, std kept as its square [svar], min, quartiles by
      numpy's linear interpolation [quantile4], max) and categorical
      branch (count, unique, top, freq).
    - [Widgets] (Module [Widgets]): the interface between the script and
      Streamlit: the class [Widgets] (selectbox, slider) and the class
      [WidgetLaws] of what the script relies on, the class [WidgetTotal]
      of when a widget call returns, and one implementation of all three,
      a user [session] with Streamlit's defaults.
    - [Dashboard] (Module [Dashboard]): one run of the script as the list
      of rendered [element]s ([run], [body], [sidebar_filter], [chart]),
      in Sections over any [Widgets] instance and the laws a theorem
      needs; the script's theorems are proved against the classes and
      [session] discharges them.
    - [Upload] (Module [Upload]): lines 12-15, the uploader's value
      through [read_csv] into [run].
    - [Page] (Module [Page]): the spec's description of the page as a
      record [page], a relation [page_spec] stated without the script's
      code paths, its layout [render], and the abstraction [page_of]
      from the values a run computed to the page it shows.

    ** What the theorems show

    - Filter (C1-C4): the filter is an exact, order-preserving partition
      of the rows by the closed range, missing values and NaN bounds
      excluded; the result is a well-formed row subset; the default range
      [min, max] keeps exactly the rows with a value.
    - Missing values (C5-C8): the metric is the sum of the listed counts;
      the success message appears exactly when nothing is missing; each
      listed count is exact; the total is at most rows x columns.
    - Moments (C9): Welford's loop computes the two-pass moments
      exactly (equivalence of the optimised routine with its reference);
      Cauchy-Schwarz bounds the co-deviation ([welford_cs]).
    - Tokenizer (C10): on an upload without quotes in which every [\r]
      is followed by [\n], the state machine returns the fields of the
      non-blank lines (refinement of the line-level reading, proved by a
      simulation: [repr] relates each machine state to the records and
      the current line read so far, and each byte preserves it).
    - Correlation (C11-C14): symmetric matrix, mirrored triangle sound up
      to [Qeq], unit diagonal for nonzero variance, every coefficient in
      [-1, 1], and [corr] never fails (empty without numeric column).
    - Describe (C15-C18): quartiles ordered between min and max with the
      mean in range; describe's variance agrees with corr's Welford sums;
      top/freq/unique correct; describe raises only without columns.
    - Dashboard (C19-C23): with no numeric column nothing is filtered or
      charted and nothing raises; the slider range is within the data
      bounds; chart x values increase; an untouched session renders
      without exception; the spec's end-to-end example.
    - Frame and types (C24-C25): [head] previews the first five whole
      rows; [numeric_cols] names exactly the non-empty columns of numbers
      and missing values.
    - Real coefficients (C26-C27): every coefficient of the matrix, as a
      real number, is in [-1, 1]; the diagonal is exactly 1 wherever it
      is a number, and it is a number for nonzero variance.
    - The page (C28-C29): for any widgets obeying the laws that answer
      well-posed queries, a well-formed table whose numeric columns each
      have two distinct values renders without an exception and ends
      with the correlation matrix; every table displayed is a
      well-formed preview of at most five rows of the upload.
    - Pearson and refinement (C30-C31): each matrix entry is the two-pass
      Pearson coefficient of the pairwise-complete rows; every run that
      raises nothing renders a page meeting the spec's description, so
      the script refines the spec.
    - Reader (C32-C40): splitting a joined line gives its fields back; a
      file written with every field quoted reads back as its rows (C33);
      a printed integer reads back; the renaming loop terminates within
      [S (length counts)] turns and yields distinct names, keeping names
      that were already distinct; an accepted upload gives a well-formed
      frame the page renders (without exception when no column is
      numeric); the reader's error cases; the numeric dtype of a parsed
      column.

    ** Modelling choices and bounds

    Numbers are exact rationals [Q]: the script has no integer that can
    overflow (Python integers, counts bounded by the table size, C8) and
    float64 rounding is not modelled, so equalities of statistics hold up
    to [Qeq], the setoid equality that [Proper] instances and
    [corr_equiv] rewrite with.  Every definition is structural recursion
    or a fold over the finite table: no fuel is needed and every operation
    terminates by construction, except pandas' renaming loop, a [while]
    loop modelled with fuel: [S (length counts)] turns suffice because
    each turn visits a strictly longer name that is a key of the counts
    with a positive count (C35).  Infinite float values are not
    modelled.

    ** Not modelled

    Of [read_csv]: an implicit index column (first data row longer than
    the header), a later row longer than the first but not than the
    header (pandas' tokenizer compares with the previous line's count),
    a lone [\r] (after which the tokenizer's whitespace-line backtracking
    reaches back past it to the previous [\n]) and infinity literals,
    for which the reader answers [CsvOutside]; the tokenizer reads the
    upload in one piece where pandas reads it in chunks (they differ
    only in that backtracking across a chunk boundary); float64 rounding of parsed decimals
    (values are exact rationals); rendering (page config, layout columns, the colour
    gradient of line 88, the drawing of charts), and Streamlit's own
    behaviour beyond the widget classes: what a slider does with NaN or
    equal bounds is left open, and the completeness theorem C28 assumes
    neither occurs.

    ** Further work

    The categorical describe on raw text; more Proper instances for
    frames equal up to [Qeq] of their cells. *)

From Stdlib Require Import String.
From Stdlib Require Import QArith Qminmax Lqa List Bool Lia Morphisms Setoid.
From Stdlib Require Import SetoidList ZArith.
Import ListNotations.

Declare Scope eda_scope.
Delimit Scope eda_scope with eda.
Open Scope Q_scope.

Create HintDb eda.
Create Rewrite HintDb eda_sum.

(** ** Sums over lists of rationals *)

Definition Qsum (l : list Q) : Q := fold_right Qplus 0 l.

Notation "'Σ[' x '<-' l ']' e" := (Qsum (map (fun x => e) l))
  (at level 35, x binder, l at level 50, e at level 35) : eda_scope.
Open Scope eda_scope.

Lemma Qsum_nil : Qsum [] = 0.
Proof. reflexivity. Qed.

Lemma Qsum_cons x l : Qsum (x :: l) = x + Qsum l.
Proof. reflexivity. Qed.

Lemma Qsum_app l1 l2 : Qsum (l1 ++ l2) == Qsum l1 + Qsum l2.
Proof.
  induction l1 as [|x l1 IH]; simpl; [ring|]. rewrite IH. ring.
Qed.

Lemma Qsum_snoc l x : Qsum (l ++ [x]) == Qsum l + x.
Proof. rewrite Qsum_app. simpl. ring. Qed.

#[export] Instance Qsum_proper : Proper (eqlistA Qeq ==> Qeq) Qsum.
Proof.
  intros l1 l2 H. induction H as [|x y l1 l2 Hxy _ IH]; simpl; [reflexivity|].
  rewrite Hxy, IH. reflexivity.
Qed.

(** Pointwise [Qeq] of the summands gives [Qeq] of the sums. *)
Lemma Qsum_map_ext {A} (f g : A -> Q) (l : list A) :
  (forall x, In x l -> f x == g x) -> Qsum (map f l) == Qsum (map g l).
Proof.
  induction l as [|x l IH]; intros H; simpl; [reflexivity|].
  rewrite (H x (or_introl eq_refl)), IH; [reflexivity|]. intros; apply H; now right.
Qed.

Lemma Qsum_map_add {A} (f g : A -> Q) (l : list A) :
  Qsum (map (fun x => f x + g x) l) == Qsum (map f l) + Qsum (map g l).
Proof. induction l as [|x l IH]; simpl; [ring|]. rewrite IH. ring. Qed.

Lemma Qsum_map_sub {A} (f g : A -> Q) (l : list A) :
  Qsum (map (fun x => f x - g x) l) == Qsum (map f l) - Qsum (map g l).
Proof. induction l as [|x l IH]; simpl; [ring|]. rewrite IH. ring. Qed.

Lemma Qsum_map_scale {A} (c : Q) (f : A -> Q) (l : list A) :
  Qsum (map (fun x => c * f x) l) == c * Qsum (map f l).
Proof. induction l as [|x l IH]; simpl; [ring|]. rewrite IH. ring. Qed.

Lemma Qsum_map_const {A} (c : Q) (l : list A) :
  Qsum (map (fun _ => c) l) == inject_Z (Z.of_nat (length l)) * c.
Proof.
  induction l as [|x l IH]; [simpl; ring|]. cbn [map length]. rewrite Qsum_cons, IH.
  rewrite Nat2Z.inj_succ, <- Z.add_1_l, inject_Z_plus. ring.
Qed.

Lemma Qsum_nonneg (l : list Q) : Forall (Qle 0) l -> 0 <= Qsum l.
Proof.
  induction 1 as [|x l Hx _ IH]; simpl; [apply Qle_refl|]. lra.
Qed.

Lemma Qsum_map_nonneg {A} (f : A -> Q) (l : list A) :
  (forall x, In x l -> 0 <= f x) -> 0 <= Qsum (map f l).
Proof.
  intros H. apply Qsum_nonneg, Forall_forall. intros y Hy.
  apply in_map_iff in Hy as (x & <- & Hx). auto.
Qed.

(** A sum of squares is non-negative. *)
Lemma Qsum_squares_nonneg {A} (f : A -> Q) (l : list A) :
  0 <= Qsum (map (fun x => f x * f x) l).
Proof. apply Qsum_map_nonneg. intros x _. nra. Qed.

#[export] Hint Resolve Qsum_nonneg Qsum_map_nonneg Qsum_squares_nonneg : eda.
#[export] Hint Rewrite Qsum_app @Qsum_map_add @Qsum_map_sub @Qsum_map_scale : eda_sum.

(** ** Natural-number counts *)

(** [countb p l]: the number of elements of [l] satisfying [p]; this is
    what a pandas [.sum()] over a boolean Series computes. *)
Definition countb {A} (p : A -> bool) (l : list A) : nat :=
  length (filter p l).

Lemma countb_le {A} (p : A -> bool) (l : list A) : (countb p l <= length l)%nat.
Proof.
  unfold countb. induction l as [|x l IH]; simpl; [lia|]. destruct (p x); simpl; lia.
Qed.

Lemma countb_app {A} (p : A -> bool) (l1 l2 : list A) :
  countb p (l1 ++ l2) = (countb p l1 + countb p l2)%nat.
Proof. unfold countb. now rewrite filter_app, length_app. Qed.

Lemma countb_mono {A} (p q : A -> bool) (l : list A) :
  (forall x, p x = true -> q x = true) -> (countb p l <= countb q l)%nat.
Proof.
  unfold countb. intros H. induction l as [|x l IH]; simpl; [lia|].
  destruct (p x) eqn:Ep; [rewrite (H x Ep)|destruct (q x)]; simpl; lia.
Qed.

Lemma forallb_false_ex {A} (p : A -> bool) (l : list A) :
  forallb p l = false -> exists x, In x l /\ p x = false.
Proof.
  induction l as [|x l IH]; cbn; [discriminate|]. destruct (p x) eqn:E; cbn.
  - intros H. destruct (IH H) as (y & Hy & Hp). eauto.
  - eauto.
Qed.

(** A stronger test counts strictly fewer elements when one element
    passes the weaker test and fails the stronger one. *)
Lemma countb_lt {A} (p q : A -> bool) (l : list A) x :
  (forall y, p y = true -> q y = true) -> In x l -> q x = true -> p x = false ->
  (countb p l < countb q l)%nat.
Proof.
  intros H Hin Hq Hp. induction l as [|y l IH]; [destruct Hin|].
  assert (Hm := countb_mono p q l H). unfold countb in *. cbn [filter].
  destruct Hin as [->|Hin].
  - rewrite Hp, Hq. simpl. lia.
  - specialize (IH Hin). destruct (p y) eqn:Ep; [rewrite (H y Ep)|destruct (q y)]; simpl; lia.
Qed.

(** A sum of terms bounded below by [a] is at least [n * a]. *)
Lemma Qsum_lower (a : Q) (l : list Q) :
  (forall x, In x l -> a <= x) -> inject_Z (Z.of_nat (length l)) * a <= Qsum l.
Proof.
  induction l as [|x l IH]; intros H; [cbn; rewrite Qmult_0_l; apply Qle_refl|].
  cbn [length Qsum fold_right]. rewrite Nat2Z.inj_succ, <- Z.add_1_r, inject_Z_plus.
  assert (a <= x) by (apply H; now left).
  assert (inject_Z (Z.of_nat (length l)) * a <= Qsum l) by (apply IH; intros; apply H; now right).
  change (inject_Z 1) with 1. set (N := inject_Z (Z.of_nat (length l))) in *.
  unfold Qsum in *. lra.
Qed.

Lemma Qsum_upper (b : Q) (l : list Q) :
  (forall x, In x l -> x <= b) -> Qsum l <= inject_Z (Z.of_nat (length l)) * b.
Proof.
  induction l as [|x l IH]; intros H; [cbn; rewrite Qmult_0_l; apply Qle_refl|].
  cbn [length Qsum fold_right]. rewrite Nat2Z.inj_succ, <- Z.add_1_r, inject_Z_plus.
  assert (x <= b) by (apply H; now left).
  assert (Qsum l <= inject_Z (Z.of_nat (length l)) * b) by (apply IH; intros; apply H; now right).
  change (inject_Z 1) with 1. set (N := inject_Z (Z.of_nat (length l))) in *.
  unfold Qsum in *. lra.
Qed.

(** Euclidean division by four, in the form [lia] uses ([lia] does not
    reason about [Nat.div]). *)
Lemma div4_spec (p : nat) : (p = 4 * (p / 4) + p mod 4 /\ p mod 4 < 4)%nat.
Proof. split; [apply Nat.div_mod_eq | apply Nat.mod_upper_bound; lia]. Qed.

(** Dropping the zero summands of a [list_sum] does not change it. *)
Lemma list_sum_filter_pos {A} (f : A -> nat) (l : list A) :
  list_sum (map f (filter (fun x => Nat.ltb 0 (f x)) l)) = list_sum (map f l).
Proof.
  induction l as [|x l IH]; simpl; [reflexivity|].
  destruct (Nat.ltb_spec 0 (f x)); simpl; rewrite IH; lia.
Qed.

Lemma list_sum_map_le {A} (f : A -> nat) (b : nat) (l : list A) :
  (forall x, In x l -> f x <= b)%nat -> (list_sum (map f l) <= length l * b)%nat.
Proof.
  induction l as [|x l IH]; intros H; simpl; [lia|].
  specialize (H x (or_introl eq_refl)) as Hx.
  assert (list_sum (map f l) <= length l * b)%nat by (apply IH; intros; apply H; now right).
  lia.
Qed.

#[export] Hint Resolve countb_le : eda.

(** ** Lists built by position *)

(** Reading a list back position by position gives the list. *)
Lemma map_nth_seq_self {A} (l : list A) (d : A) :
  map (fun k => nth k l d) (seq 0 (length l)) = l.
Proof.
  induction l as [|x l IH]; [reflexivity|]. cbn [length seq map nth].
  rewrite <- seq_shift, map_map. simpl. now rewrite IH.
Qed.

(** ** Tactics shared by the components *)

(** Split conjunctions only: [repeat split] would also unfold [Qeq]. *)
Ltac split_and := repeat match goal with |- _ /\ _ => split end.

(** Turn the boolean comparisons of the model into propositions. *)
Ltac qbool :=
  repeat match goal with
  | H : Qle_bool _ _ = true |- _ => apply Qle_bool_iff in H
  | H : Qle_bool _ _ = false |- _ =>
      apply Bool.not_true_iff_false in H; rewrite Qle_bool_iff in H
  | H : (_ && _)%bool = true |- _ => apply andb_prop in H as [? ?]
  | |- Qle_bool _ _ = true => apply Qle_bool_iff
  | |- (_ && _)%bool = true => apply andb_true_intro; split
  end.

(** ** Executable checks *)

(** A boolean duplicate test, so that side conditions on concrete data
    are decided by evaluation. *)
Fixpoint nodupb {A} (eqb : A -> A -> bool) (l : list A) : bool :=
  match l with
  | [] => true
  | x :: l' => negb (existsb (eqb x) l') && nodupb eqb l'
  end.

Lemma nodupb_NoDup {A} (eqb : A -> A -> bool) (l : list A) :
  (forall x y, eqb x y = true <-> x = y) -> nodupb eqb l = true -> NoDup l.
Proof.
  intros Heq. induction l as [|x l IH]; simpl; intros H; constructor.
  - apply andb_prop in H as [H _]. apply negb_true_iff in H.
    intros Hin. assert (existsb (eqb x) l = true) as Hex by
      (apply existsb_exists; exists x; split; [exact Hin | now apply Heq]).
    congruence.
  - apply IH. now apply andb_prop in H as [_ H].
Qed.
