(* ===== verification/Cell.v ===== *)
(** * Cell values and column dtypes

    The values a pandas DataFrame built by [pd.read_csv] holds in a cell
    ([src/app.py] line 15), the dtype pandas infers for a column, the
    missing-value test behind [df.isnull()] (lines 26, 30) and the float
    comparisons [series >= x] and [series <= x] of the range filter
    (lines 63-66), with NaN comparing false. *)

From Stdlib Require Import String.
From Stdlib Require Import QArith Lqa List Bool Lia EquivDec.
From S2P Require Import Prelude.
Import ListNotations.

Module Cell.

(** A parsed cell: a number (int64 or float64 in pandas, an exact rational
    here), a boolean, a string, or the missing marker NaN/None. *)
Inductive cell :=
| CNum (q : Q)
| CBool (b : bool)
| CStr (s : string)
| CNA.

(** A Python float, as [float(...)] returns it: finite or NaN. *)
Inductive flt :=
| Fin (q : Q)
| NaN.

(** The dtype kinds [select_dtypes] distinguishes: numeric (int64 and
    float64, the kinds [np.number] includes), bool, and object. *)
Inductive dtype := DNumber | DBool | DObject.

(** Structural equality of rationals (not [Qeq]): decides equality of
    cells, which [unique]-style counting uses. *)
Definition Q_eq_dec (x y : Q) : {x = y} + {x <> y}.
Proof. decide equality; [apply Pos.eq_dec | apply Z.eq_dec]. Defined.

#[export] Instance cell_eq_dec : EqDec cell eq.
Proof.
  intros x y. change ({x = y} + {x <> y}).
  decide equality; first [apply Q_eq_dec | apply bool_dec | apply string_dec].
Defined.

#[export] Instance dtype_eq_dec : EqDec dtype eq.
Proof. intros x y. change ({x = y} + {x <> y}). decide equality. Defined.

(** [pd.isnull] on one cell. *)
Definition isnull (c : cell) : bool :=
  match c with CNA => true | _ => false end.

Definition is_num_or_na (c : cell) : bool :=
  match c with CNum _ | CNA => true | _ => false end.

Definition is_bool (c : cell) : bool :=
  match c with CBool _ => true | _ => false end.

(** The dtype [pd.read_csv] gives a column: a column with no rows is
    object; a column of numbers and missing values (all missing included)
    is numeric; a column of booleans with none missing is bool; anything
    else is object. *)
Definition infer_dtype (col : list cell) : dtype :=
  match col with
  | [] => DObject
  | _ => if forallb is_num_or_na col then DNumber
         else if forallb is_bool col then DBool else DObject
  end.

(** [is_numeric_dtype], the test behind [select_dtypes(include=np.number)]. *)
Definition is_number (d : dtype) : bool :=
  match d with DNumber => true | _ => false end.

(** [series >= x] and [series <= x] on one element of a numeric Series:
    a comparison involving NaN, on either side, is false. *)
Definition ge_flt (c : cell) (x : flt) : bool :=
  match c, x with
  | CNum q, Fin b => Qle_bool b q
  | _, _ => false
  end.

Definition le_flt (c : cell) (x : flt) : bool :=
  match c, x with
  | CNum q, Fin b => Qle_bool q b
  | _, _ => false
  end.

(** The finite numbers of a column, [series.dropna()] on a numeric one. *)
Fixpoint nums (col : list cell) : list Q :=
  match col with
  | [] => []
  | CNum q :: col' => q :: nums col'
  | _ :: col' => nums col'
  end.

(** ** Lemmas *)

Lemma infer_dtype_number col :
  infer_dtype col = DNumber -> col <> [] /\ forall c, In c col -> is_num_or_na c = true.
Proof.
  destruct col as [|c0 col]; simpl; [discriminate|].
  destruct (is_num_or_na c0 && forallb is_num_or_na col) eqn:E.
  - intros _. split; [discriminate|]. intros c Hc.
    apply (proj1 (forallb_forall is_num_or_na (c0 :: col))); [exact E|exact Hc].
  - destruct (is_bool c0 && forallb is_bool col); discriminate.
Qed.

Lemma ge_flt_true c x :
  ge_flt c x = true <-> exists q b, c = CNum q /\ x = Fin b /\ b <= q.
Proof.
  destruct c, x; simpl; split; intros H; try discriminate;
    try (destruct H as (? & ? & ? & ? & ?); discriminate).
  - apply Qle_bool_iff in H. eauto.
  - destruct H as (q' & b' & Hq & Hb & Hle). injection Hq as ->. injection Hb as ->.
    now apply Qle_bool_iff.
Qed.

Lemma le_flt_true c x :
  le_flt c x = true <-> exists q b, c = CNum q /\ x = Fin b /\ q <= b.
Proof.
  destruct c, x; simpl; split; intros H; try discriminate;
    try (destruct H as (? & ? & ? & ? & ?); discriminate).
  - apply Qle_bool_iff in H. eauto.
  - destruct H as (q' & b' & Hq & Hb & Hle). injection Hq as ->. injection Hb as ->.
    now apply Qle_bool_iff.
Qed.

(** A missing cell fails both comparisons: the range mask excludes it. *)
Lemma cmp_null c x : isnull c = true -> ge_flt c x = false /\ le_flt c x = false.
Proof. destruct c; simpl; try discriminate. auto. Qed.

Lemma In_nums q col : In q (nums col) <-> In (CNum q) col.
Proof.
  induction col as [|c col IH]; simpl; [tauto|].
  destruct c; simpl; rewrite IH; split; intros H; intuition congruence.
Qed.

(** On a column of numbers and missing values, [nums] keeps exactly the
    non-missing cells: its length is [series.count()]. *)
Lemma length_nums col :
  (forall c, In c col -> is_num_or_na c = true) ->
  length (nums col) = countb (fun c => negb (isnull c)) col.
Proof.
  unfold countb. induction col as [|c col IH]; intros H; simpl; [reflexivity|].
  assert (Hc := H c (or_introl eq_refl)).
  assert (IH' := IH (fun c' Hc' => H c' (or_intror Hc'))).
  destruct c; simpl in *; congruence.
Qed.

End Cell.
