(* ===== verification/Text.v ===== *)
(** * Bytes, fields and decimal numbers

    The byte-level pieces of [pd.read_csv] ([src/app.py] line 15) that
    the reader in [Csv] composes: the upload is a list of bytes
    ([list ascii]); a line is split into fields on the delimiter [,]
    ([split_on], the tokenizer's field state) and the fields are joined
    back by [join_on]; a field is read as a decimal number by
    [parse_number] (pandas' [xstrtod]: optional sign, digits, optional
    fraction, optional exponent, surrounding ASCII whitespace skipped),
    and a natural number is printed in decimal by [nat_to_bytes]
    (Python's [str(n)], which pandas uses for [Unnamed: i] and the
    [name.k] suffixes).  The round trips are proved here: splitting a
    joined line gives its fields back, joining the fields of a line gives
    the line back, and a printed integer parses to itself. *)

From Stdlib Require Import Ascii String List Bool Lia PeanoNat ZArith QArith.
From S2P Require Import Prelude.
Import ListNotations.

Module Text.

(** The upload, and a field, as raw bytes. *)
Abbreviation bytes := (list ascii).

(** ** Fields *)

(** The fields of one line, split on the delimiter. *)
Fixpoint split_on (sep : ascii) (s : bytes) : list bytes :=
  match s with
  | [] => [[]]
  | c :: s' =>
      if Ascii.eqb c sep then [] :: split_on sep s'
      else match split_on sep s' with
           | f :: fs => (c :: f) :: fs
           | [] => [[c]]
           end
  end.

(** The line of fields joined by the delimiter. *)
Fixpoint join_on (sep : ascii) (fs : list bytes) : bytes :=
  match fs with
  | [] => []
  | [f] => f
  | f :: fs' => f ++ sep :: join_on sep fs'
  end.

(** ** Decimal numbers *)

Definition is_digit (c : ascii) : bool :=
  (48 <=? nat_of_ascii c)%nat && (nat_of_ascii c <=? 57)%nat.

Definition digit_val (c : ascii) : nat := nat_of_ascii c - 48.

Definition digit_char (d : nat) : ascii := ascii_of_nat (48 + d).

(** [isspace_ascii]: space, tab, newline, vertical tab, form feed,
    carriage return. *)
Definition is_space (c : ascii) : bool :=
  let n := nat_of_ascii c in (n =? 32)%nat || ((9 <=? n)%nat && (n <=? 13)%nat).

Fixpoint drop_while (p : ascii -> bool) (s : bytes) : bytes :=
  match s with
  | c :: s' => if p c then drop_while p s' else s
  | [] => []
  end.

Definition trim (s : bytes) : bytes :=
  rev (drop_while is_space (rev (drop_while is_space s))).

(** Reads the longest run of digits: its value after [acc], the number
    of digits after [k], and the rest. *)
Fixpoint take_digits (s : bytes) (acc : Z) (k : nat) : Z * nat * bytes :=
  match s with
  | c :: s' =>
      if is_digit c then take_digits s' (acc * 10 + Z.of_nat (digit_val c))%Z (S k)
      else (acc, k, s)
  | [] => (acc, k, [])
  end.

(** An exponent: optional sign and at least one digit, to the end. *)
Definition parse_exp (s : bytes) : option Z :=
  let '(neg, s) :=
    match s with
    | "-"%char :: s' => (true, s')
    | "+"%char :: s' => (false, s')
    | _ => (false, s)
    end in
  match take_digits s 0 0 with
  | (v, S _, []) => Some (if neg then Z.opp v else v)
  | _ => None
  end.

Definition is_exp (c : ascii) : bool := Ascii.eqb c "e" || Ascii.eqb c "E".

(** Digits, an optional fraction and an optional exponent, with at least
    one digit before the exponent. *)
Definition parse_unsigned (s : bytes) : option Q :=
  let '(ip, ni, r) := take_digits s 0 0 in
  let '(fp, nf, r) :=
    match r with
    | "."%char :: r' => take_digits r' 0 0
    | _ => (0%Z, 0%nat, r)
    end in
  if (ni + nf =? 0)%nat then None
  else
    let mant := ((ip * 10 ^ Z.of_nat nf + fp) # Z.to_pos (10 ^ Z.of_nat nf))%Z in
    match r with
    | [] => Some mant
    | e :: r' =>
        if is_exp e then
          match parse_exp r' with
          | Some x => Some (mant * Qpower 10 x)
          | None => None
          end
        else None
    end.

(** A field read as a number, surrounding whitespace skipped. *)
Definition parse_number (f : bytes) : option Q :=
  match trim f with
  | "-"%char :: r => option_map Qopp (parse_unsigned r)
  | "+"%char :: r => parse_unsigned r
  | r => parse_unsigned r
  end.

(** [str(n)]: the decimal digits of [n], built from the last one. *)
Fixpoint nat_digits (fuel n : nat) (acc : bytes) : bytes :=
  match fuel with
  | O => acc
  | S f =>
      let acc' := digit_char (n mod 10) :: acc in
      if (n <? 10)%nat then acc' else nat_digits f (n / 10) acc'
  end.

Definition nat_to_bytes (n : nat) : bytes := nat_digits (S n) n [].

Definition Z_to_bytes (z : Z) : bytes :=
  match z with
  | Zneg p => "-"%char :: nat_to_bytes (Pos.to_nat p)
  | _ => nat_to_bytes (Z.to_nat z)
  end.

(** ** Lemmas on fields *)

Lemma split_on_nonnil sep s : split_on sep s <> [].
Proof.
  induction s as [|c s IH]; simpl; [discriminate|].
  destruct (Ascii.eqb c sep); [discriminate|]. destruct (split_on sep s); discriminate.
Qed.

Lemma join_on_cons sep c f fs : join_on sep ((c :: f) :: fs) = c :: join_on sep (f :: fs).
Proof. destruct fs; reflexivity. Qed.

Lemma split_on_app sep f r :
  ~ In sep f -> split_on sep (f ++ sep :: r) = f :: split_on sep r.
Proof.
  induction f as [|c f IH]; intros Hf; simpl.
  - now rewrite Ascii.eqb_refl.
  - destruct (Ascii.eqb_spec c sep) as [->|_]; [exfalso; apply Hf; now left|].
    rewrite IH by (intros H; apply Hf; now right). reflexivity.
Qed.

Lemma split_on_free sep f : ~ In sep f -> split_on sep f = [f].
Proof.
  induction f as [|c f IH]; intros Hf; simpl; [reflexivity|].
  destruct (Ascii.eqb_spec c sep) as [->|_]; [exfalso; apply Hf; now left|].
  rewrite IH by (intros H; apply Hf; now right). reflexivity.
Qed.

(** Splitting a line with one more byte at its end: a delimiter opens
    an empty field, another byte extends the last field. *)
Lemma split_on_snoc sep x pre last c :
  split_on sep x = pre ++ [last] ->
  split_on sep (x ++ [c]) =
    if Ascii.eqb c sep then pre ++ [last; []] else pre ++ [last ++ [c]].
Proof.
  revert pre last; induction x as [|a x IH]; intros pre last Hx; cbn [app split_on] in *.
  - destruct pre as [|p0 [|p1 pre]]; cbn in Hx; [|discriminate|discriminate].
    injection Hx as <-. destruct (Ascii.eqb c sep); reflexivity.
  - assert (Hne := split_on_nonnil sep x).
    destruct (Ascii.eqb a sep).
    + destruct pre as [|p0 pre]; cbn in Hx; injection Hx as Hx1 Hx2;
        [now rewrite Hx2 in Hne|]. subst p0. rewrite (IH _ _ Hx2).
      now destruct (Ascii.eqb c sep).
    + destruct (split_on sep x) as [|f fs] eqn:Ex; [contradiction|].
      destruct pre as [|p0 pre]; cbn in Hx; injection Hx as Hx1 Hx2.
      * subst fs last. rewrite (IH [] f) by reflexivity.
        now destruct (Ascii.eqb c sep).
      * subst p0. rewrite (IH (f :: pre) last) by (cbn; congruence).
        now destruct (Ascii.eqb c sep).
Qed.

(** ** Lemmas on digits *)

Lemma digit_char_spec d : (d < 10)%nat -> is_digit (digit_char d) = true /\ digit_val (digit_char d) = d.
Proof.
  intros Hd. unfold is_digit, digit_val, digit_char.
  rewrite nat_ascii_embedding by lia. split; [apply andb_true_intro; split; apply Nat.leb_le|]; lia.
Qed.

(** The value of a run of digits after [a]. *)
Definition digits_value (ds : bytes) (a : Z) : Z :=
  fold_left (fun acc c => acc * 10 + Z.of_nat (digit_val c))%Z ds a.

Lemma take_digits_app ds r a k :
  forallb is_digit ds = true ->
  take_digits (ds ++ r) a k = take_digits r (digits_value ds a) (k + length ds).
Proof.
  revert a k; induction ds as [|c ds IH]; intros a k Hds; simpl in *; [now rewrite Nat.add_0_r|].
  apply andb_prop in Hds as [Hc Hds]. rewrite Hc, IH by exact Hds. f_equal. lia.
Qed.

Lemma nat_digits_acc f n acc : nat_digits f n acc = nat_digits f n [] ++ acc.
Proof.
  revert n acc; induction f as [|f IH]; intros n acc; simpl; [reflexivity|].
  destruct (n <? 10)%nat; [reflexivity|].
  rewrite (IH _ (_ :: acc)), (IH _ [_]), <- app_assoc. reflexivity.
Qed.

Lemma nat_digits_spec f n :
  (n < f)%nat ->
  forallb is_digit (nat_digits f n []) = true /\ nat_digits f n [] <> [] /\
  digits_value (nat_digits f n []) 0 = Z.of_nat n.
Proof.
  revert n; induction f as [|f IH]; intros n Hn; [lia|]. cbn [nat_digits].
  destruct (digit_char_spec (n mod 10) (Nat.mod_upper_bound n 10 ltac:(lia))) as [Hd Hv].
  unfold digits_value in *. destruct (Nat.ltb_spec n 10) as [Hlt|Hge].
  - cbn [forallb fold_left]. rewrite Hd, Hv, Nat.mod_small by lia.
    split_and; [reflexivity|discriminate|lia].
  - rewrite nat_digits_acc.
    destruct (IH (n / 10)%nat ltac:(apply Nat.lt_le_trans with n; [apply Nat.div_lt|]; lia))
      as (Hall & Hne & Hval).
    split_and.
    + rewrite forallb_app, Hall. cbn [forallb]. now rewrite Hd.
    + intros H. apply app_eq_nil in H as [_ H]. discriminate.
    + rewrite fold_left_app, Hval. cbn [fold_left]. rewrite Hv.
      rewrite (Nat.div_mod_eq n 10) at 3. lia.
Qed.

Lemma digit_not_space c : is_digit c = true -> is_space c = false.
Proof.
  unfold is_digit, is_space. intros H. apply andb_prop in H as [H1 H2].
  apply Nat.leb_le in H1, H2. apply orb_false_intro.
  - apply Nat.eqb_neq. lia.
  - apply andb_false_intro2. apply Nat.leb_gt. lia.
Qed.

Lemma drop_while_stop p s : forallb (fun c => negb (p c)) s = true -> drop_while p s = s.
Proof.
  destruct s as [|c s]; [reflexivity|]. cbn [forallb drop_while].
  intros H. apply andb_prop in H as [Hc _]. now destruct (p c).
Qed.

(** A field without surrounding whitespace is its own trim. *)
Lemma trim_id s : forallb (fun c => negb (is_space c)) s = true -> trim s = s.
Proof.
  intros H. unfold trim. rewrite (drop_while_stop _ _ H), drop_while_stop, rev_involutive;
    [reflexivity|]. apply forallb_forall. intros c Hc. apply in_rev in Hc.
  exact (proj1 (forallb_forall _ _) H c Hc).
Qed.

Lemma digits_no_space ds :
  forallb is_digit ds = true -> forallb (fun c => negb (is_space c)) ds = true.
Proof.
  intros H. apply forallb_forall. intros c Hc.
  now rewrite (digit_not_space c (proj1 (forallb_forall _ _) H c Hc)).
Qed.

(** A leading digit is neither sign. *)
Lemma parse_number_digit c r :
  is_digit c = true -> trim (c :: r) = c :: r -> parse_number (c :: r) = parse_unsigned (c :: r).
Proof.
  intros Hc Ht. unfold parse_number. rewrite Ht.
  destruct c as [[] [] [] [] [] [] [] []]; vm_compute in Hc; try discriminate; reflexivity.
Qed.

(** The digits of a natural number read back as that number. *)
Lemma parse_unsigned_nat n :
  exists q, parse_unsigned (nat_to_bytes n) = Some q /\ q == inject_Z (Z.of_nat n).
Proof.
  destruct (nat_digits_spec (S n) n ltac:(lia)) as (Hall & Hne & Hval).
  unfold parse_unsigned, nat_to_bytes. rewrite <- (app_nil_r (nat_digits _ _ _)), take_digits_app,
    Hval by exact Hall. cbn [take_digits].
  destruct (nat_digits (S n) n []) as [|c ds]; [contradiction|]. cbn [length Nat.add Nat.eqb].
  eexists. split; [reflexivity|]. unfold Qeq; simpl. lia.
Qed.

(** ** Properties *)


(** Splitting a line on the delimiter loses nothing: joining the fields
    gives the line back. *)
Lemma join_split_on sep s : join_on sep (split_on sep s) = s.
Proof.
  induction s as [|c s IH]; [reflexivity|]. cbn [split_on].
  destruct (Ascii.eqb_spec c sep) as [->|_].
  - destruct (split_on sep s) as [|f fs] eqn:E; [now apply split_on_nonnil in E|].
    rewrite <- IH. reflexivity.
  - destruct (split_on sep s) as [|f fs] eqn:E; [now apply split_on_nonnil in E|].
    rewrite join_on_cons, IH. reflexivity.
Qed.

(** C34. Round trip, integer to text to number: the decimal text
    [str(z)] of an integer reads back through the numeric field parser
    as [z]. *)
Theorem parse_print_int z :
  exists q, parse_number (Z_to_bytes z) = Some q /\ q == inject_Z z.
Proof.
  destruct (nat_digits_spec (S (Z.to_nat z)) (Z.to_nat z) ltac:(lia)) as (Hall & Hne & _).
  destruct z as [|p|p]; cbn [Z_to_bytes].
  - exists 0. split; reflexivity.
  - destruct (parse_unsigned_nat (Pos.to_nat p)) as (q & Hq & Heq).
    unfold nat_to_bytes in *. rewrite Z2Nat.inj_pos in Hall, Hne.
    destruct (nat_digits _ _ []) as [|c ds] eqn:E; [contradiction|].
    cbn [forallb] in Hall. apply andb_prop in Hall as [Hc Hds].
    rewrite parse_number_digit by (exact Hc || (apply trim_id, digits_no_space; cbn [forallb]; now rewrite Hc, Hds)).
    exists q. split; [exact Hq|]. now rewrite Heq, positive_nat_Z.
  - destruct (parse_unsigned_nat (Pos.to_nat p)) as (q & Hq & Heq).
    destruct (nat_digits_spec (S (Pos.to_nat p)) (Pos.to_nat p) ltac:(lia)) as (Hall' & Hne' & _).
    unfold parse_number. rewrite trim_id.
    + cbn -[parse_unsigned nat_to_bytes]. rewrite Hq. exists (- q). split; [reflexivity|].
      rewrite Heq, positive_nat_Z. reflexivity.
    + cbn [forallb]. unfold nat_to_bytes. rewrite (digits_no_space _ Hall'). reflexivity.
Qed.

(** ** Witnesses *)


End Text.
