(* ===== verification/Header.v ===== *)
(** * The header row: unnamed and duplicate column names

    [pd.read_csv] ([src/app.py] line 15) names the columns from the first
    line.  An empty name becomes [Unnamed: i] (i the column's position),
    and duplicate names are renamed by pandas' [dedup_names]:

    << counts = defaultdict(int)
       for i, col in enumerate(names):
           cur_count = counts[col]
           while cur_count > 0:
               counts[col] = cur_count + 1
               col = f"{col}.{cur_count}"
               cur_count = counts[col]
           names[i] = col
           counts[col] = cur_count + 1 >>

    The dict is an association list ([get] with default 0, [set]); the
    [while] loop is [mangle], a Fixpoint with fuel, and the theorems show
    that [S (length counts)] is always enough fuel (the loop terminates:
    each turn visits a strictly longer name that is a key with a positive
    count), that the names it returns are distinct, and that distinct
    names are kept unchanged. *)

From Stdlib Require Import Ascii String List Bool Lia PeanoNat.
From S2P Require Import Prelude Text.
Import ListNotations.
Import Text.

Module Header.

(** [defaultdict(int)] from names to counts. *)
Abbreviation counts := (list (string * nat)).

Fixpoint get (k : string) (c : counts) : nat :=
  match c with
  | [] => 0
  | (k', v) :: c' => if String.eqb k k' then v else get k c'
  end.

Fixpoint set (k : string) (v : nat) (c : counts) : counts :=
  match c with
  | [] => [(k, v)]
  | (k', v') :: c' => if String.eqb k k' then (k, v) :: c' else (k', v') :: set k v c'
  end.

(** [f"{col}.{cur_count}"]. *)
Definition suffixed (col : string) (k : nat) : string :=
  (col ++ String "." (string_of_list_ascii (nat_to_bytes k)))%string.

(** The [while cur_count > 0] loop; [None] when the fuel runs out. *)
Fixpoint mangle (fuel : nat) (c : counts) (col : string) (cur : nat) : option (counts * string) :=
  match fuel with
  | O => None
  | S f =>
      match cur with
      | O => Some (c, col)
      | S _ =>
          let c' := set col (S cur) c in
          let col' := suffixed col cur in
          mangle f c' col' (get col' c')
      end
  end.

(** One iteration of the [for] loop: the loop from [counts[col]], then
    [names[i] = col] and [counts[col] = cur_count + 1] (the loop exits
    with [cur_count = 0]). *)
Definition dedup_step (c : counts) (col : string) : counts * string :=
  match mangle (S (length c)) c col (get col c) with
  | Some (c', col') => (set col' 1 c', col')
  | None => (c, col)
  end.

Fixpoint dedup_go (c : counts) (names : list string) : list string :=
  match names with
  | [] => []
  | n :: ns => let '(c', n') := dedup_step c n in n' :: dedup_go c' ns
  end.

(** [dedup_names(names, False)]. *)
Definition dedup_names (names : list string) : list string := dedup_go [] names.

(** [Unnamed: i] for an empty header field at position [i]. *)
Definition unnamed (i : nat) (name : string) : string :=
  if String.eqb name EmptyString
  then ("Unnamed: " ++ string_of_list_ascii (nat_to_bytes i))%string
  else name.

(** The column names of a header line's fields. *)
Definition header_names (fields : list string) : list string :=
  dedup_names (map (fun p => unnamed (fst p) (snd p)) (combine (seq 0 (length fields)) fields)).

(** ** Lemmas on the counts *)

Lemma get_set_eq k v c : get k (set k v c) = v.
Proof.
  induction c as [|[k' v'] c IH]; cbn; [now rewrite String.eqb_refl|].
  destruct (String.eqb_spec k k'); cbn; [now rewrite String.eqb_refl|].
  destruct (String.eqb_spec k k'); [contradiction|exact IH].
Qed.

Lemma get_set_neq k k' v c : k <> k' -> get k' (set k v c) = get k' c.
Proof.
  intros Hne. induction c as [|[k0 v0] c IH]; cbn.
  - destruct (String.eqb_spec k' k); [congruence|reflexivity].
  - destruct (String.eqb_spec k k0) as [<-|]; cbn.
    + destruct (String.eqb_spec k' k); [congruence|reflexivity].
    + destruct (String.eqb k' k0); [reflexivity|exact IH].
Qed.

Lemma get_In k c : (0 < get k c)%nat -> In (k, get k c) c.
Proof.
  induction c as [|[k' v] c IH]; cbn; [lia|].
  destruct (String.eqb_spec k k') as [<-|]; [now left|]. intros H; right; auto.
Qed.

Lemma length_append (s1 s2 : string) :
  String.length (s1 ++ s2) = (String.length s1 + String.length s2)%nat.
Proof. induction s1 as [|a s1 IH]; cbn; congruence. Qed.

Lemma suffixed_longer col k : (String.length col < String.length (suffixed col k))%nat.
Proof. unfold suffixed. rewrite length_append. cbn. lia. Qed.

(** The names the loop can still visit from [col]: keys with a positive
    count that are at least as long as [col]. *)
Definition pending (c : counts) (col : string) : nat :=
  countb (fun kv => (0 <? snd kv)%nat && (String.length col <=? String.length (fst kv))%nat) c.

Lemma pending_set k v c col :
  (String.length k < String.length col)%nat -> pending (set k v c) col = pending c col.
Proof.
  intros Hlt. unfold pending, countb.
  induction c as [|[k' v'] c IH]; cbn [set].
  - cbn [filter fst snd].
    replace (String.length col <=? String.length k)%nat with false by (symmetry; apply Nat.leb_gt; lia).
    now rewrite andb_false_r.
  - destruct (String.eqb_spec k k') as [<-|]; cbn [filter fst snd].
    + replace (String.length col <=? String.length k)%nat with false by (symmetry; apply Nat.leb_gt; lia).
      now rewrite !andb_false_r.
    + destruct (_ && _)%bool; cbn [length]; congruence.
Qed.

(** One turn of the loop leaves strictly fewer names to visit. *)
Lemma pending_step c col cur :
  get col c = S cur ->
  (pending (set col (S (S cur)) c) (suffixed col (S cur)) < pending c col)%nat.
Proof.
  intros Hget. rewrite pending_set by apply suffixed_longer. unfold pending.
  assert (Hl := suffixed_longer col (S cur)).
  apply (countb_lt _ _ c (col, get col c)).
  - intros [k v]; cbn. intros H. apply andb_prop in H as [H1 H2]. rewrite H1. cbn.
    apply Nat.leb_le in H2. apply Nat.leb_le. lia.
  - apply get_In. lia.
  - cbn. rewrite Hget. cbn. apply Nat.leb_le. lia.
  - cbn. apply andb_false_intro2. apply Nat.leb_gt. exact Hl.
Qed.

(** Enough fuel: the loop returns a name whose count is zero, and keeps
    every positive count positive. *)
Lemma mangle_fuel fuel c col :
  (pending c col < fuel)%nat ->
  exists c' col', mangle fuel c col (get col c) = Some (c', col') /\ get col' c' = 0 /\
    (forall k, 0 < get k c -> 0 < get k c')%nat.
Proof.
  revert c col; induction fuel as [|f IH]; intros c col Hf; [lia|]. cbn [mangle].
  destruct (get col c) as [|cur] eqn:Hget; [exists c, col; auto|].
  destruct (IH (set col (S (S cur)) c) (suffixed col (S cur))) as (c' & col' & Hm & H0 & Hpos).
  { assert (Hs := pending_step c col cur Hget). lia. }
  exists c', col'. split_and; [exact Hm | exact H0 |]. intros k Hk. apply Hpos.
  destruct (String.eqb_spec col k) as [<-|Hne]; [rewrite get_set_eq; lia|].
  now rewrite get_set_neq.
Qed.

Lemma pending_le c col : (pending c col <= length c)%nat.
Proof. apply countb_le. Qed.

(** One name of the header: a name that had count zero, now positive,
    and every positive count kept. *)
Lemma dedup_step_spec c col :
  let '(c'', n') := dedup_step c col in
  get n' c = 0%nat /\ (0 < get n' c'')%nat /\ (forall k, 0 < get k c -> 0 < get k c'')%nat.
Proof.
  unfold dedup_step.
  destruct (mangle_fuel (S (length c)) c col ltac:(pose proof (pending_le c col); lia))
    as (c' & n' & -> & H0 & Hpos).
  split_and.
  - destruct (get n' c) eqn:E; [reflexivity|]. specialize (Hpos n'). rewrite E in Hpos. lia.
  - rewrite get_set_eq. lia.
  - intros k Hk. destruct (String.eqb_spec n' k) as [<-|Hne]; [rewrite get_set_eq; lia|].
    rewrite get_set_neq by exact Hne. auto.
Qed.

Lemma dedup_go_spec names c :
  NoDup (dedup_go c names) /\ (forall x, In x (dedup_go c names) -> get x c = 0%nat) /\
  length (dedup_go c names) = length names.
Proof.
  revert c; induction names as [|n ns IH]; intros c; cbn; [split_and; [constructor|tauto|reflexivity]|].
  assert (Hs := dedup_step_spec c n). destruct (dedup_step c n) as [c'' n'].
  destruct Hs as (H0 & Hpos'' & Hpos). destruct (IH c'') as (Hnd & Hz & Hlen).
  split_and.
  - constructor; [|exact Hnd]. intros Hin. specialize (Hz n' Hin). lia.
  - intros x [<-|Hin]; [exact H0|]. specialize (Hz x Hin).
    destruct (get x c) eqn:E; [reflexivity|]. specialize (Hpos x). rewrite Hz, E in Hpos. lia.
  - cbn. now rewrite Hlen.
Qed.

(** A name not yet counted is kept as it is. *)
Lemma dedup_step_fresh c col : get col c = 0%nat -> dedup_step c col = (set col 1 c, col).
Proof. intros H. unfold dedup_step. rewrite H. reflexivity. Qed.

Lemma dedup_go_keep names c :
  NoDup names -> (forall x, In x names -> get x c = 0%nat) -> dedup_go c names = names.
Proof.
  intros Hnd. revert c. induction Hnd as [|n ns Hn Hnd IH]; intros c Hz; [reflexivity|].
  cbn [dedup_go]. rewrite dedup_step_fresh by (apply Hz; now left). f_equal.
  apply IH. intros x Hx. rewrite get_set_neq by (intros ->; contradiction). apply Hz. now right.
Qed.

(** ** Properties *)




(** ** Witnesses *)


End Header.
