(* ===== verification/Tokenizer.v ===== *)
(** * The tokenizer of [pd.read_csv]

    [src/app.py] line 15 reads the upload with pandas' C engine, whose
    tokenizer ([tokenize_bytes] in pandas' [tokenizer.c]) is a state
    machine over the bytes.  With the defaults the script uses
    (delimiter [,], quote character (the double quote), [doublequote=True], no escape
    character, no comment character, [skip_blank_lines=True],
    [skipinitialspace=False]) its states are the constructors of
    [tstate], kept with the source's names, and [step] is one turn of
    its [switch (self->state)]: the current field, the fields of the
    current record and the records read so far are the three buffers of
    [tok] (each kept reversed, as a stack).  [finish] is
    [parser_handle_eof]: end of input inside a quoted field is the error
    "EOF inside string"; in a field it closes the field and the record.

    The theorems show that the machine refines the line-level reading
    [lines] (on an upload without quotes and without a lone carriage
    return, the records are the comma-split fields of the non-blank
    lines: [tokenize_unquoted], by the simulation relation [repr] and
    induction on the input), that every record it returns
    has at least one field, and that a file written with every field
    quoted (quotes doubled inside) reads back as its rows
    ([tokenize_quote_all]). *)

From Stdlib Require Import Ascii String List Bool Lia PeanoNat.
From S2P Require Import Prelude Text.
Import ListNotations.
Import Text.

Module Tokenizer.

(** ** Character classes of the default dialect *)

Definition is_terminator (c : ascii) : bool := Ascii.eqb c "010".
Definition is_carriage (c : ascii) : bool := Ascii.eqb c "013".
Definition is_quote (c : ascii) : bool := Ascii.eqb c "034".
Definition is_delimiter (c : ascii) : bool := Ascii.eqb c ",".
Definition is_whitespace (c : ascii) : bool := Ascii.eqb c " " || Ascii.eqb c "009".

(** ** The machine *)

(** The states [tokenize_bytes] visits under the default dialect; the
    whitespace read on a line that may yet be blank is kept in
    [WHITESPACE_LINE], for the source re-reads it when the line turns
    out not to be blank. *)
Inductive tstate :=
| START_RECORD
| START_FIELD
| IN_FIELD
| IN_QUOTED_FIELD
| QUOTE_IN_QUOTED_FIELD
| EAT_CRNL
| EAT_CRNL_NOP
| WHITESPACE_LINE (ws : bytes).

(** The parser's buffers: the field being read, the fields of the
    record being read, the records read; each reversed. *)
Record tok := mkTok {
  state : tstate;
  field : bytes;
  record : list bytes;
  records : list (list bytes)
}.

Definition init : tok := mkTok START_RECORD [] [] [].

Definition set_state (s : tstate) (t : tok) : tok := mkTok s (field t) (record t) (records t).

(** [PUSH_CHAR(c)]. *)
Definition push_char (c : ascii) (t : tok) : tok :=
  mkTok (state t) (c :: field t) (record t) (records t).

(** [END_FIELD()]: the field joins the record. *)
Definition end_field (t : tok) : tok :=
  mkTok (state t) [] (rev (field t) :: record t) (records t).

(** [END_LINE()]: the record joins the records, back to [START_RECORD]. *)
Definition end_line (t : tok) : tok :=
  mkTok START_RECORD [] [] (rev (record t) :: records t).

(** [case START_FIELD]. *)
Definition start_field (t : tok) (c : ascii) : tok :=
  if is_terminator c then end_line (end_field t)
  else if is_carriage c then set_state EAT_CRNL (end_field t)
  else if is_quote c then set_state IN_QUOTED_FIELD t
  else if is_delimiter c then set_state START_FIELD (end_field t)
  else set_state IN_FIELD (push_char c t).

(** [case START_RECORD]: an empty line is skipped, a line that starts
    with whitespace may be blank, anything else starts the first field. *)
Definition start_record (t : tok) (c : ascii) : tok :=
  if is_terminator c then set_state START_RECORD t
  else if is_carriage c then set_state EAT_CRNL_NOP t
  else if is_whitespace c then set_state (WHITESPACE_LINE [c]) t
  else start_field t c.

(** [case IN_FIELD]: a quote inside an unquoted field is an ordinary byte. *)
Definition in_field (t : tok) (c : ascii) : tok :=
  if is_terminator c then end_line (end_field t)
  else if is_carriage c then set_state EAT_CRNL (end_field t)
  else if is_delimiter c then set_state START_FIELD (end_field t)
  else set_state IN_FIELD (push_char c t).

(** One turn of the loop of [tokenize_bytes]. *)
Definition step (t : tok) (c : ascii) : tok :=
  match state t with
  | START_RECORD => start_record t c
  | START_FIELD => start_field t c
  | IN_FIELD => in_field t c
  | IN_QUOTED_FIELD =>
      if is_quote c then set_state QUOTE_IN_QUOTED_FIELD t else push_char c t
  | QUOTE_IN_QUOTED_FIELD =>
      (* a doubled quote is one quote; anything else ends the quoted part *)
      if is_quote c then set_state IN_QUOTED_FIELD (push_char c t)
      else if is_delimiter c then set_state START_FIELD (end_field t)
      else if is_terminator c then end_line (end_field t)
      else if is_carriage c then set_state EAT_CRNL (end_field t)
      else set_state IN_FIELD (push_char c t)
  | EAT_CRNL =>
      (* after [\r]: [\r\n] ends the line once; a lone [\r] ends it and
         the byte is read again at the start of a record *)
      if is_terminator c then end_line t
      else if is_delimiter c then set_state START_FIELD (end_field (end_line t))
      else start_record (end_line t) c
  | EAT_CRNL_NOP =>
      if is_terminator c || is_delimiter c then set_state START_RECORD t
      else start_record t c
  | WHITESPACE_LINE ws =>
      (* a blank line is dropped; otherwise the source backtracks to the
         start of the line and reads the whitespace as the first field's *)
      if is_terminator c then set_state START_RECORD t
      else if is_carriage c then set_state EAT_CRNL_NOP t
      else if is_whitespace c then set_state (WHITESPACE_LINE (c :: ws)) t
      else in_field (mkTok IN_FIELD ws (record t) (records t)) c
  end.

(** [parser_handle_eof]. *)
Definition finish (t : tok) : option (list (list bytes)) :=
  match state t with
  | START_RECORD | WHITESPACE_LINE _ | EAT_CRNL_NOP => Some (rev (records t))
  | IN_QUOTED_FIELD => None
  | IN_FIELD | START_FIELD | QUOTE_IN_QUOTED_FIELD => Some (rev (records (end_line (end_field t))))
  | EAT_CRNL => Some (rev (records (end_line t)))
  end.

(** The UTF-8 byte-order mark [CHECK_FOR_BOM] skips at the start. *)
Definition strip_bom (s : bytes) : bytes :=
  match s with
  | a :: b :: c :: s' =>
      if Ascii.eqb a "239" && Ascii.eqb b "187" && Ascii.eqb c "191" then s' else s
  | _ => s
  end.

(** The records of an upload, or [None] for "EOF inside string". *)
Definition tokenize (s : bytes) : option (list (list bytes)) :=
  finish (fold_left step (strip_bom s) init).

(** ** The line-level reading

    Lines end at [\n] and at [\r]; lines of only spaces and tabs are
    skipped; a line's fields are split on the delimiter.  This is what
    the machine computes on an upload without quotes in which every
    [\r] is followed by [\n]. *)

Definition cr_to_lf (c : ascii) : ascii := if is_carriage c then "010" else c.

(** A line the tokenizer skips: empty, or only spaces and tabs. *)
Definition blank (l : bytes) : bool := forallb is_whitespace l.

(** The non-blank lines of the upload. *)
Definition lines (s : bytes) : list bytes :=
  filter (fun l => negb (blank l)) (split_on "010" (map cr_to_lf (strip_bom s))).

(** Every [\r] is directly followed by [\n]. *)
Fixpoint no_bare_cr (s : bytes) : bool :=
  match s with
  | [] => true
  | c :: s' =>
      (negb (is_carriage c) || match s' with d :: _ => is_terminator d | [] => false end) &&
      no_bare_cr s'
  end.

Definition has_quote (s : bytes) : bool := existsb is_quote s.

(** ** A file written with every field quoted

    The writer side of the round trip, Python's [csv.writer] with
    [quoting=QUOTE_ALL]: each field between quotes, a quote inside it
    doubled, fields joined by the delimiter, each record ended by [\n]. *)

Definition escape (c : ascii) : bytes := if is_quote c then [c; c] else [c].

Definition quote_field (f : bytes) : bytes := "034"%char :: concat (map escape f) ++ ["034"%char].

Definition quote_record (r : list bytes) : bytes := join_on "," (map quote_field r) ++ ["010"%char].

Definition quote_all (rows : list (list bytes)) : bytes := concat (map quote_record rows).

(** ** The machine against the line-level reading *)

(** Closing the current line [x] on top of the records [R] (reversed). *)
Definition push_line (x : bytes) (R : list (list bytes)) : list (list bytes) :=
  if blank x then R else split_on "," x :: R.

(** The records the line-level reading gives for the rest [y] of the
    upload, after the records [R] (reversed). *)
Definition reading (R : list (list bytes)) (y : bytes) : list (list bytes) :=
  rev R ++ map (split_on ",") (filter (fun l => negb (blank l)) (split_on "010" y)).

(** The simulation relation: the machine's state [t] after reading the
    records [R] (reversed) and the bytes [x] of the current line. *)
Definition repr (t : tok) (R : list (list bytes)) (x : bytes) : Prop :=
  match state t with
  | START_RECORD | EAT_CRNL_NOP => field t = [] /\ record t = [] /\ records t = R /\ x = []
  | EAT_CRNL => x = [] /\ R = rev (record t) :: records t
  | WHITESPACE_LINE ws => field t = [] /\ record t = [] /\ records t = R /\ x = rev ws /\ blank x = true
  | START_FIELD | IN_FIELD =>
      records t = R /\ blank x = false /\ ~ In "010"%char x /\
      split_on "," x = rev (rev (field t) :: record t)
  | IN_QUOTED_FIELD | QUOTE_IN_QUOTED_FIELD => False
  end.

(** After a [\r] the machine needs the [\n] that follows it. *)
Definition eating (st : tstate) : bool :=
  match st with EAT_CRNL | EAT_CRNL_NOP => true | _ => false end.

Definition awaits (t : tok) (s : bytes) : Prop :=
  eating (state t) = true -> match s with d :: _ => is_terminator d = true | [] => False end.

(** The records the machine has closed are not empty. *)
Definition ne_inv (t : tok) : Prop :=
  Forall (fun r => r <> []) (records t) /\ (state t = EAT_CRNL -> record t <> []).

(** An ordinary byte in a field: a delimiter closes the field. *)
Definition field_char (t : tok) (c : ascii) : tok :=
  if is_delimiter c then set_state START_FIELD (end_field t) else set_state IN_FIELD (push_char c t).

(** ** Lemmas *)

Ltac classes := unfold is_terminator, is_carriage, is_quote, is_delimiter, is_whitespace in *.

Lemma reading_line x R y :
  ~ In "010"%char x -> reading R (x ++ "010"%char :: y) = reading (push_line x R) y.
Proof.
  intros Hx. unfold reading, push_line. rewrite split_on_app by exact Hx. cbn [filter map].
  destruct (blank x); cbn [negb map]; [reflexivity|]. cbn [rev]. now rewrite <- app_assoc.
Qed.

Lemma reading_end x R : ~ In "010"%char x -> reading R x = rev (push_line x R).
Proof.
  intros Hx. unfold reading, push_line. rewrite split_on_free by exact Hx. cbn [filter].
  destruct (blank x); cbn; [apply app_nil_r | reflexivity].
Qed.

Lemma blank_snoc x c : blank (x ++ [c]) = blank x && is_whitespace c.
Proof. unfold blank. rewrite forallb_app. cbn. now rewrite andb_true_r. Qed.

Lemma not_in_snoc (d c : ascii) x : ~ In d x -> c <> d -> ~ In d (x ++ [c]).
Proof. intros Hx Hc H. apply in_app_or in H as [H|[H|H]]; auto. Qed.

Lemma terminator_neq c : is_terminator c = false -> c <> "010"%char.
Proof. classes. intros H ->. discriminate. Qed.

Lemma field_char_spec t x c :
  split_on "," x = rev (rev (field t) :: record t) ->
  split_on "," (x ++ [c]) = rev (rev (field (field_char t c)) :: record (field_char t c)) /\
  records (field_char t c) = records t /\ state (field_char t c) <> EAT_CRNL /\
  state (field_char t c) <> EAT_CRNL_NOP /\ (state (field_char t c) = START_FIELD \/ state (field_char t c) = IN_FIELD).
Proof.
  intros Hx. cbn [rev] in Hx. rewrite (split_on_snoc _ _ _ _ c Hx). unfold field_char, is_delimiter.
  destruct (Ascii.eqb c ","); cbn; split_and; try discriminate; auto;
    now rewrite <- ?app_assoc, ?rev_involutive.
Qed.

Lemma start_field_char t c :
  is_terminator c = false -> is_carriage c = false -> is_quote c = false ->
  start_field t c = field_char t c.
Proof. intros H1 H2 H3. unfold start_field, field_char. now rewrite H1, H2, H3. Qed.

Lemma in_field_char t c :
  is_terminator c = false -> is_carriage c = false -> in_field t c = field_char t c.
Proof. intros H1 H2. unfold in_field, field_char. now rewrite H1, H2. Qed.

Lemma blank_not_in d x : is_whitespace d = false -> blank x = true -> ~ In d x.
Proof.
  unfold blank. rewrite forallb_forall. intros Hd H Hin. specialize (H _ Hin). congruence.
Qed.

Lemma blank_no_lf x : blank x = true -> ~ In "010"%char x.
Proof. now apply blank_not_in. Qed.

Lemma repr_no_lf t R x : repr t R x -> ~ In "010"%char x.
Proof.
  unfold repr. destruct (state t); intros H; try contradiction; decompose record H; subst;
    auto using blank_no_lf; cbn; tauto.
Qed.

Lemma step_lf t R x :
  repr t R x -> repr (step t "010") (push_line x R) [] /\ state (step t "010") = START_RECORD.
Proof.
  unfold repr, step. intros H. destruct (state t); cbn; try contradiction.
  all: unfold push_line; try (destruct H as (-> & ->); now split).
  all: try (destruct H as (H1 & H2 & H3 & H4 & H5); subst; now rewrite H5).
  all: try (destruct H as (H1 & H2 & H3 & H4); subst; now rewrite H2, H4).
  all: destruct H as (H1 & H2 & H3 & ->); subst; now split.
Qed.

Lemma step_cr t R x :
  repr t R x -> eating (state t) = false ->
  repr (step t "013") (push_line x R) [] /\ eating (state (step t "013")) = true.
Proof.
  unfold repr, step, eating. intros H He. destruct (state t); cbn; try contradiction; try discriminate.
  all: unfold push_line.
  all: try (destruct H as (H1 & H2 & H3 & H4 & H5); subst; now rewrite H5).
  all: try (destruct H as (H1 & H2 & H3 & H4); subst; now rewrite H2, H4).
  destruct H as (H1 & H2 & H3 & ->); subst; now split.
Qed.

Lemma repr_field t R x :
  (state t = START_FIELD \/ state t = IN_FIELD) -> records t = R -> blank x = false ->
  ~ In "010"%char x -> split_on "," x = rev (rev (field t) :: record t) -> repr t R x.
Proof. unfold repr. intros [-> | ->] ? ? ? ?; now split_and. Qed.

(** Reading an ordinary byte in a field, as [field_char] does. *)
Lemma repr_field_char t R x c :
  records t = R -> split_on "," x = rev (rev (field t) :: record t) ->
  blank (x ++ [c]) = false -> ~ In "010"%char (x ++ [c]) ->
  repr (field_char t c) R (x ++ [c]) /\ eating (state (field_char t c)) = false.
Proof.
  intros Hr Hx Hb Hn. destruct (field_char_spec t x c Hx) as (Hs & Hrs & _ & _ & Hst).
  split; [apply repr_field; congruence|]. now destruct Hst as [-> | ->].
Qed.

Lemma step_char t R x c :
  repr t R x -> eating (state t) = false ->
  is_terminator c = false -> is_carriage c = false -> is_quote c = false ->
  repr (step t c) R (x ++ [c]) /\ eating (state (step t c)) = false.
Proof.
  intros H He Ht Hc Hq. assert (Hnl := terminator_neq c Ht). assert (Hx := repr_no_lf t R x H).
  unfold repr in H. unfold eating in He. unfold step.
  destruct (state t); try contradiction; try discriminate.
  - destruct H as (Hf & Hrc & <- & ->). unfold start_record. rewrite Ht, Hc.
    destruct (is_whitespace c) eqn:W; cbn [app].
    + cbn. rewrite Hf, Hrc. unfold blank. cbn. now rewrite W.
    + rewrite start_field_char by assumption. apply (repr_field_char t (records t) [] c); auto.
      * cbn. now rewrite Hf, Hrc.
      * unfold blank. cbn. now rewrite W.
      * cbn. intuition.
  - rewrite start_field_char by assumption. destruct H as (<- & Hb & _ & Hs).
    apply repr_field_char; auto using not_in_snoc. now rewrite blank_snoc, Hb.
  - rewrite in_field_char by assumption. destruct H as (<- & Hb & _ & Hs).
    apply repr_field_char; auto using not_in_snoc. now rewrite blank_snoc, Hb.
  - destruct H as (Hf & Hrc & <- & -> & Hb). rewrite Ht, Hc.
    destruct (is_whitespace c) eqn:W.
    + cbn. rewrite Hf, Hrc, blank_snoc, Hb, W. now split_and.
    + rewrite in_field_char by assumption. apply repr_field_char; cbn; auto using not_in_snoc.
      * rewrite Hrc. cbn. apply split_on_free, blank_not_in; [reflexivity | exact Hb].
      * now rewrite blank_snoc, W, andb_false_r.
Qed.

Lemma finish_repr t R x :
  repr t R x -> eating (state t) = false -> finish t = Some (reading R x).
Proof.
  intros H He. rewrite reading_end by exact (repr_no_lf t R x H).
  unfold repr in H. unfold finish, push_line. destruct (state t); try contradiction; try discriminate.
  all: try (destruct H as (H1 & H2 & H3 & H4 & H5); subst; now rewrite H5).
  all: destruct H as (H1 & H2 & H3 & H4); subst; cbn [records end_line end_field];
    first [reflexivity | now rewrite H2, H4].
Qed.

(** The simulation: from related states, the machine's records on the
    rest [s] of an upload without quotes and lone [\r] are the
    line-level reading's. *)
Lemma fold_repr s : forall t R x,
  repr t R x -> has_quote s = false -> no_bare_cr s = true -> awaits t s ->
  finish (fold_left step s t) = Some (reading R (x ++ map cr_to_lf s)).
Proof.
  induction s as [|c s IH]; intros t R x H Hq Hb Ha; cbn [fold_left map].
  - rewrite app_nil_r. apply (finish_repr t R x H).
    destruct (eating (state t)) eqn:E; [contradiction (Ha E) | reflexivity].
  - cbn [has_quote existsb no_bare_cr] in Hq, Hb. apply orb_false_elim in Hq as [Hq1 Hq].
    apply andb_prop in Hb as [Hc1 Hb].
    destruct (is_terminator c) eqn:Ht.
    + apply Ascii.eqb_eq in Ht; subst c. destruct (step_lf t R x H) as [H' Hs].
      rewrite (IH _ _ _ H' Hq Hb) by (unfold awaits; now rewrite Hs).
      cbn. now rewrite reading_line by exact (repr_no_lf t R x H).
    + assert (He : eating (state t) = false)
        by (destruct (eating (state t)) eqn:E; [now rewrite (Ha E) in Ht | reflexivity]).
      destruct (is_carriage c) eqn:Hc.
      * apply Ascii.eqb_eq in Hc; subst c. destruct (step_cr t R x H He) as [H' Hs].
        rewrite (IH _ _ _ H' Hq Hb).
        -- cbn. now rewrite reading_line by exact (repr_no_lf t R x H).
        -- intros _. destruct s; [discriminate | exact Hc1].
      * destruct (step_char t R x c H He Ht Hc Hq1) as [H' Hs].
        rewrite (IH _ _ _ H' Hq Hb) by (unfold awaits; now rewrite Hs).
        replace (cr_to_lf c) with c by (unfold cr_to_lf; now rewrite Hc). now rewrite <- app_assoc.
Qed.

Lemma strip_bom_suffix s : exists p, s = p ++ strip_bom s.
Proof.
  destruct s as [|a [|b [|c s]]]; cbn; try (exists []; reflexivity).
  destruct (_ && _ && _); [exists [a; b; c] | exists []]; reflexivity.
Qed.

Lemma no_bare_cr_app_r p q : no_bare_cr (p ++ q) = true -> no_bare_cr q = true.
Proof.
  induction p as [|c p IH]; cbn [app no_bare_cr]; [tauto|]. intros H.
  apply andb_prop in H as [_ H]. auto.
Qed.

(** The hypotheses of the simulation hold after the byte-order mark. *)
Lemma strip_bom_plain s :
  has_quote s = false -> no_bare_cr s = true ->
  has_quote (strip_bom s) = false /\ no_bare_cr (strip_bom s) = true.
Proof.
  destruct (strip_bom_suffix s) as [p Hp]. rewrite Hp at 1 2. unfold has_quote.
  rewrite existsb_app. intros Hq Hb. apply orb_false_elim in Hq as [_ Hq].
  split; [exact Hq | exact (no_bare_cr_app_r _ _ Hb)].
Qed.

Lemma rev_nonnil {A} (l : list A) : l <> [] -> rev l <> [].
Proof. intros H E. apply H. rewrite <- (rev_involutive l), E. reflexivity. Qed.

Lemma rev_cons_nonnil {A} (a : A) l : rev (a :: l) <> [].
Proof. apply rev_nonnil. discriminate. Qed.

Lemma snoc_nonnil {A} (a : A) l : l ++ [a] <> [].
Proof. destruct l; discriminate. Qed.

#[local] Hint Resolve rev_nonnil rev_cons_nonnil snoc_nonnil : core.

Lemma step_ne t c : ne_inv t -> ne_inv (step t c).
Proof.
  unfold ne_inv, step, start_record, start_field, in_field. intros [Hr He].
  destruct (state t) eqn:E;
    repeat match goal with |- context [if ?b then _ else _] => destruct b end;
    cbn [records end_line end_field state record field set_state push_char].
  all: split; [repeat constructor; auto | rewrite ?E; try discriminate; try (intros; discriminate)].
  all: auto.
Qed.

Lemma fold_ne s : forall t, ne_inv t -> ne_inv (fold_left step s t).
Proof. induction s as [|c s IH]; intros t H; cbn; [exact H | apply IH, step_ne, H]. Qed.

(** Every record the tokenizer returns has at least one field. *)
Lemma tokenize_nonempty s rs : tokenize s = Some rs -> Forall (fun r => r <> []) rs.
Proof.
  unfold tokenize. assert (H : ne_inv (fold_left step (strip_bom s) init))
    by (apply fold_ne; split; [constructor | discriminate]).
  destruct (fold_left step (strip_bom s) init) as [st f rc rs0]. destruct H as [Hr He].
  unfold finish; cbn [state records record field end_line end_field] in *.
  destruct st; try discriminate; intros Hs; injection Hs; intros <-;
    first [apply Forall_rev; assumption
          | apply Forall_app; split; [apply Forall_rev; assumption | repeat constructor; auto]].
Qed.

Lemma step_in_quoted fld rc rs c :
  step (mkTok IN_QUOTED_FIELD fld rc rs) c =
  if is_quote c then mkTok QUOTE_IN_QUOTED_FIELD fld rc rs else mkTok IN_QUOTED_FIELD (c :: fld) rc rs.
Proof. unfold step; cbn. now destruct (is_quote c). Qed.

Lemma step_doubled_quote fld rc rs c :
  is_quote c = true -> step (mkTok QUOTE_IN_QUOTED_FIELD fld rc rs) c = mkTok IN_QUOTED_FIELD (c :: fld) rc rs.
Proof. intros Q. unfold step; cbn. now rewrite Q. Qed.

Lemma quoted_body f fld rc rs rest :
  fold_left step (concat (map escape f) ++ rest) (mkTok IN_QUOTED_FIELD fld rc rs) =
  fold_left step rest (mkTok IN_QUOTED_FIELD (rev f ++ fld) rc rs).
Proof.
  revert fld; induction f as [|a f IH]; intros fld; [reflexivity|].
  cbn [map concat]. rewrite <- app_assoc.
  change (escape a) with (if is_quote a then [a; a] else [a]).
  destruct (is_quote a) eqn:Q; cbn [app fold_left]; rewrite step_in_quoted, Q;
    [rewrite step_doubled_quote by exact Q|];
    rewrite IH; cbn [rev]; now rewrite <- app_assoc.
Qed.

(** A quoted field, read from the start of a record or of a field. *)
Lemma quoted_field st f rc rs rest :
  (st = START_RECORD \/ st = START_FIELD) ->
  fold_left step (quote_field f ++ rest) (mkTok st [] rc rs) =
  fold_left step rest (mkTok QUOTE_IN_QUOTED_FIELD (rev f) rc rs).
Proof.
  intros Hst. unfold quote_field. cbn [app fold_left].
  replace (step (mkTok st [] rc rs) "034") with (mkTok IN_QUOTED_FIELD [] rc rs)
    by (destruct Hst as [-> | ->]; reflexivity).
  rewrite <- app_assoc, quoted_body, app_nil_r. reflexivity.
Qed.

(** A record written with every field quoted is read as that record. *)
Lemma quoted_fields fs : forall st f rc rs rest,
  (st = START_RECORD \/ st = START_FIELD) ->
  fold_left step (join_on "," (map quote_field (f :: fs)) ++ "010"%char :: rest) (mkTok st [] rc rs) =
  fold_left step rest (mkTok START_RECORD [] [] ((rev rc ++ f :: fs) :: rs)).
Proof.
  induction fs as [|g fs IH]; intros st f rc rs rest Hst.
  - cbn [map join_on]. rewrite quoted_field by exact Hst. cbn [fold_left].
    f_equal. unfold step; cbn -[rev]. unfold end_line, end_field; cbn -[rev].
    now rewrite rev_involutive.
  - cbn [map join_on]. rewrite <- app_assoc. cbn [app]. rewrite quoted_field by exact Hst.
    cbn [fold_left]. change (step _ ",") with (mkTok START_FIELD [] (rev (rev f) :: rc) rs).
    rewrite (IH START_FIELD g) by (now right). cbn [rev]. now rewrite rev_involutive, <- app_assoc.
Qed.

Lemma quoted_rows rows rs :
  Forall (fun r => r <> []) rows ->
  fold_left step (quote_all rows) (mkTok START_RECORD [] [] rs) = mkTok START_RECORD [] [] (rev rows ++ rs).
Proof.
  intros H. revert rs. induction H as [|[|f fs] rows Hr H IH]; intros rs; [reflexivity|contradiction|].
  unfold quote_all, quote_record. cbn [map concat].
  change (quote_field f :: map quote_field fs) with (map quote_field (f :: fs)).
  rewrite <- !app_assoc. cbn [app]. rewrite quoted_fields by (now left). fold (quote_all rows). rewrite IH. cbn [rev].
  now rewrite <- app_assoc.
Qed.

Lemma strip_bom_quote s : strip_bom ("034"%char :: s) = "034"%char :: s.
Proof. destruct s as [|b [|c s]]; reflexivity. Qed.

Lemma strip_bom_quote_all rows rest :
  Forall (fun r => r <> []) rows -> (rest = [] \/ exists y, rest = "034"%char :: y) ->
  strip_bom (quote_all rows ++ rest) = quote_all rows ++ rest.
Proof.
  intros [|[|f fs] rows' Hr _] Hrest; [|contradiction|].
  - destruct Hrest as [-> | (y & ->)]; [reflexivity | apply strip_bom_quote].
  - unfold quote_all, quote_record. cbn [map concat].
    change (quote_field f) with ("034"%char :: (concat (map escape f) ++ ["034"%char])).
    rewrite join_on_cons. cbn [app]. apply strip_bom_quote.
Qed.

(** Inside a quoted field, bytes other than the quote are kept. *)
Lemma quoted_plain b fld rc rs :
  has_quote b = false -> state (fold_left step b (mkTok IN_QUOTED_FIELD fld rc rs)) = IN_QUOTED_FIELD.
Proof.
  revert fld; induction b as [|c b IH]; intros fld Hb; [reflexivity|].
  cbn [has_quote existsb] in Hb. apply orb_false_elim in Hb as [Hc Hb].
  cbn [fold_left]. rewrite step_in_quoted, Hc. now apply IH.
Qed.

(** A file whose last field opens a quote that is never closed is the
    tokenizer's "EOF inside string" error. *)
Lemma tokenize_open_quote rows b :
  Forall (fun r => r <> []) rows -> has_quote b = false ->
  tokenize (quote_all rows ++ "034"%char :: b) = None.
Proof.
  intros H Hb. unfold tokenize, init. rewrite strip_bom_quote_all by (eauto || right; eauto).
  rewrite fold_left_app, quoted_rows by exact H. cbn [fold_left].
  change (step _ "034"%char) with (mkTok IN_QUOTED_FIELD [] [] (rev rows ++ [])).
  unfold finish. now rewrite quoted_plain.
Qed.

(** ** Properties *)

(** C10. Refinement of the line-level reading by the tokenizer: on an
    upload without quote characters in which every [\r] is followed by
    [\n], the state machine of [tokenize_bytes] returns exactly the
    fields, split on the delimiter, of the non-blank lines. *)
Theorem tokenize_unquoted s :
  has_quote s = false -> no_bare_cr s = true -> tokenize s = Some (map (split_on ",") (lines s)).
Proof.
  intros Hq Hb. destruct (strip_bom_plain s Hq Hb) as [Hq' Hb']. unfold tokenize, lines.
  rewrite (fold_repr _ init [] [] ltac:(now split_and) Hq' Hb' ltac:(discriminate)).
  reflexivity.
Qed.

(** C33. Round trip, rows to file to rows: a file written with every
    field quoted, quotes doubled inside, delimiters and line ends kept
    inside quotes, is read back by the tokenizer as exactly its rows
    (each row with at least one field). *)
Theorem tokenize_quote_all rows :
  Forall (fun r => r <> []) rows -> tokenize (quote_all rows) = Some rows.
Proof.
  intros H. unfold tokenize, init.
  rewrite <- (app_nil_r (quote_all rows)), strip_bom_quote_all by auto.
  rewrite app_nil_r, quoted_rows by exact H. cbn. now rewrite app_nil_r, rev_involutive.
Qed.

(** ** Witnesses *)

Lemma tokenize_unquoted_witness :
  let s := list_ascii_of_string ("a,b" ++ String "013" (String "010" "  ") ++ String "010" " x,,y")%string in
  tokenize s = Some (map (split_on ",") (lines s)).
Proof. intros s. apply tokenize_unquoted; vm_compute; reflexivity. Defined.

Lemma tokenize_quote_all_witness :
  let rows := [[list_ascii_of_string "a,b"; ["034"; "x"; "034"]%char]; [[]]; [["010"]%char; []]] in
  tokenize (quote_all rows) = Some rows.
Proof. intros rows. apply tokenize_quote_all. repeat constructor; discriminate. Defined.

End Tokenizer.
