(* ===== verification/Frame.v ===== *)
(** * DataFrames

    The table [pd.read_csv] returns ([src/app.py] line 15): a row index
    and an ordered list of named columns of cells.  The operations the
    script applies to a whole frame: [df.shape] (lines 24-25), [df.head()]
    (lines 19, 72), boolean-mask selection [df[mask]] (lines 63-66),
    column lookup [df[col]] (lines 53-54, 64-65, 83) and column selection
    [df[cols]] (line 87). *)

From Stdlib Require Import String.
From Stdlib Require Import QArith List Bool Lia Sorted PeanoNat.
From S2P Require Import Prelude Cell.
Import ListNotations.
Import Cell.
Local Open Scope nat_scope.

Module Frame.

(** A frame: the index labels (the [RangeIndex] 0..n-1 after
    [read_csv], a subsequence of it after filtering) and the columns in
    file order. *)
Record frame := mkFrame {
  index : list nat;
  columns : list (string * list cell)
}.

Definition nrows (f : frame) : nat := length (index f).
Definition ncols (f : frame) : nat := length (columns f).

(** [df.shape]. *)
Definition shape (f : frame) : nat * nat := (nrows f, ncols f).

(** Well-formedness: index labels are distinct (a [RangeIndex] and its
    subsequences), column names are distinct ([read_csv] renames
    duplicate headers) and every column has one cell per index label. *)
Definition wf (f : frame) : Prop :=
  NoDup (index f) /\
  NoDup (map fst (columns f)) /\
  Forall (fun nc => length (snd nc) = nrows f) (columns f).

(** Well-formedness decided by evaluation. *)
Definition wfb (f : frame) : bool :=
  nodupb Nat.eqb (index f) && nodupb String.eqb (map fst (columns f)) &&
  forallb (fun nc => Nat.eqb (length (snd nc)) (nrows f)) (columns f).

(** The rows of a frame: each index label with the cells of that row,
    in column order (what [df.iterrows()] would yield). *)
Fixpoint rows_of (idx : list nat) (cols : list (list cell)) : list (nat * list cell) :=
  match idx with
  | [] => []
  | i :: idx' => (i, map (hd CNA) cols) :: rows_of idx' (map (@tl cell) cols)
  end.

Definition rows (f : frame) : list (nat * list cell) :=
  rows_of (index f) (map snd (columns f)).

(** The frame [read_csv] builds from a header and rows of cells. *)
Definition of_rows (header : list string) (rows : list (list cell)) : frame :=
  mkFrame (seq 0 (length rows))
          (map (fun k => (nth k header EmptyString,
                          map (fun r => nth k r CNA) rows))
               (seq 0 (length header))).

(** [df[name]]: the column of that name; [None] is pandas' KeyError. *)
Fixpoint lookup_col (name : string) (cols : list (string * list cell))
  : option (list cell) :=
  match cols with
  | [] => None
  | (n, c) :: cols' => if String.eqb n name then Some c else lookup_col name cols'
  end.

Definition column (f : frame) (name : string) : option (list cell) :=
  lookup_col name (columns f).

(** Positional boolean selection: keep the elements whose mask bit is
    true. *)
Fixpoint mask_list {A} (m : list bool) (l : list A) : list A :=
  match m, l with
  | b :: m', x :: l' => if b then x :: mask_list m' l' else mask_list m' l'
  | _, _ => []
  end.

(** [df[mask]] with a boolean Series aligned on [df]'s index: the rows
    whose bit is true, index labels kept. *)
Definition mask_rows (m : list bool) (f : frame) : frame :=
  mkFrame (mask_list m (index f))
          (map (fun nc => (fst nc, mask_list m (snd nc))) (columns f)).

(** [df.head(n)]: the first [n] rows. *)
Definition head_n (n : nat) (f : frame) : frame :=
  mkFrame (firstn n (index f))
          (map (fun nc => (fst nc, firstn n (snd nc))) (columns f)).

(** [df.head()], whose default is five rows. *)
Definition head (f : frame) : frame := head_n 5 f.

(** [df[names]]: the named columns in the order given, with the same
    index; [None] is the KeyError of a missing name. *)
Fixpoint select_cols (f : frame) (names : list string)
  : option (list (string * list cell)) :=
  match names with
  | [] => Some []
  | n :: names' =>
      match column f n, select_cols f names' with
      | Some c, Some cs => Some ((n, c) :: cs)
      | _, _ => None
      end
  end.

Definition select (f : frame) (names : list string) : option frame :=
  match select_cols f names with
  | Some cs => Some (mkFrame (index f) cs)
  | None => None
  end.

(** ** Lemmas on masks *)

Section Masks.
Context {A B : Type}.

Lemma mask_list_length_le (m : list bool) (l : list A) :
  length (mask_list m l) <= length l.
Proof.
  revert l; induction m as [|b m IH]; intros [|x l]; simpl; try lia.
  destruct b; simpl; specialize (IH l); lia.
Qed.

Lemma mask_list_map (f : A -> B) (m : list bool) (l : list A) :
  mask_list m (map f l) = map f (mask_list m l).
Proof.
  revert l; induction m as [|b m IH]; intros [|x l]; simpl; try reflexivity.
  destruct b; simpl; now rewrite IH.
Qed.

(** A mask computed from the list itself is a [filter]. *)
Lemma mask_list_self (p : A -> bool) (l : list A) :
  mask_list (map p l) l = filter p l.
Proof. induction l as [|x l IH]; simpl; [reflexivity|]. destruct (p x); now rewrite IH. Qed.

(** Masking two aligned lists keeps them aligned. *)
Lemma mask_list_combine (m : list bool) (l1 : list A) (l2 : list B) :
  length m = length l1 -> length l1 = length l2 ->
  combine (mask_list m l1) (mask_list m l2) = mask_list m (combine l1 l2).
Proof.
  revert l1 l2; induction m as [|b m IH]; intros [|x l1] [|y l2] H1 H2;
    simpl in *; try reflexivity; try discriminate.
  destruct b; simpl; rewrite IH by lia; reflexivity.
Qed.

(** Masking with a mask derived from an aligned list is filtering the
    pairs. *)
Lemma mask_list_by (p : B -> bool) (l1 : list A) (l2 : list B) :
  length l1 = length l2 ->
  mask_list (map p l2) l1 = map fst (filter (fun xy => p (snd xy)) (combine l1 l2)).
Proof.
  revert l2; induction l1 as [|x l1 IH]; intros [|y l2] H; simpl in *;
    try reflexivity; try discriminate.
  destruct (p y); simpl; rewrite IH by lia; reflexivity.
Qed.

Lemma mask_list_length_eq (m : list bool) (l1 : list A) (l2 : list B) :
  length l1 = length l2 -> length (mask_list m l1) = length (mask_list m l2).
Proof.
  revert l1 l2; induction m as [|b m IH]; intros [|x l1] [|y l2] H;
    simpl in *; try reflexivity; try discriminate.
  destruct b; simpl; rewrite (IH l1 l2) by lia; reflexivity.
Qed.

Lemma mask_list_true (l : list A) :
  mask_list (map (fun _ => true) l) l = l.
Proof. induction l as [|x l IH]; simpl; congruence. Qed.

Lemma mask_list_incl (m : list bool) (l : list A) x :
  In x (mask_list m l) -> In x l.
Proof.
  revert l; induction m as [|b m IH]; intros [|y l]; simpl; try tauto.
  destruct b; simpl; intuition.
Qed.

Lemma mask_list_NoDup (m : list bool) (l : list A) :
  NoDup l -> NoDup (mask_list m l).
Proof.
  revert l; induction m as [|b m IH]; intros [|y l] Hnd; simpl; try constructor.
  apply NoDup_cons_iff in Hnd as [Hy Hnd].
  destruct b; [|now apply IH]. constructor; [|now apply IH].
  intros Hin; apply Hy; eapply mask_list_incl; eauto.
Qed.

(** Selection keeps the relative order: a sorted list stays sorted. *)
Lemma mask_list_sorted (R : A -> A -> Prop) (m : list bool) (l : list A) :
  (forall x y z, R x y -> R y z -> R x z) ->
  StronglySorted R l -> StronglySorted R (mask_list m l).
Proof.
  intros Htr. revert l; induction m as [|b m IH]; intros [|y l] Hs; simpl;
    try constructor.
  apply StronglySorted_inv in Hs as [Hs Hall].
  destruct b; [|now apply IH].
  constructor; [now apply IH|].
  rewrite Forall_forall in *. intros z Hz. apply Hall. eapply mask_list_incl; eauto.
Qed.

End Masks.

(** ** Rows under a mask *)

Lemma mask_list_true_cons {A} m (x : A) l :
  mask_list (true :: m) (x :: l) = x :: mask_list m l.
Proof. reflexivity. Qed.

Lemma mask_list_false_cons {A} m (x : A) l :
  mask_list (false :: m) (x :: l) = mask_list m l.
Proof. reflexivity. Qed.

Section RowsMask.

Local Abbreviation nonempty cols := (Forall (fun c : list cell => c <> []) cols).

Lemma map_hd_mask_true m cols :
  nonempty cols -> map (hd CNA) (map (mask_list (true :: m)) cols) = map (hd CNA) cols.
Proof. induction 1 as [|[|x c] cols Hc _ IH]; simpl in *; congruence. Qed.

Lemma map_tl_mask_true m cols :
  nonempty cols ->
  map (@tl cell) (map (mask_list (true :: m)) cols) = map (mask_list m) (map (@tl cell) cols).
Proof. induction 1 as [|[|x c] cols Hc _ IH]; simpl in *; congruence. Qed.

Lemma map_mask_false m cols :
  nonempty cols -> map (mask_list (false :: m)) cols = map (mask_list m) (map (@tl cell) cols).
Proof. induction 1 as [|[|x c] cols Hc _ IH]; simpl in *; congruence. Qed.

Lemma aligned_tl n cols :
  Forall (fun c : list cell => length c = S n) cols ->
  nonempty cols /\ Forall (fun c => length c = n) (map (@tl cell) cols).
Proof.
  induction 1 as [|c cols Hc _ [IH1 IH2]]; [split; constructor|].
  destruct c as [|x c]; simpl in Hc; [discriminate|].
  split; constructor; [discriminate | exact IH1 | simpl; lia | exact IH2].
Qed.

(** The row-subset invariant: masking every column of a frame selects
    exactly the masked rows, whole. *)
Lemma rows_of_mask m idx cols :
  length m = length idx -> Forall (fun c => length c = length idx) cols ->
  rows_of (mask_list m idx) (map (mask_list m) cols) = mask_list m (rows_of idx cols).
Proof.
  revert m cols; induction idx as [|i idx IH]; intros [|b m] cols Hm Hc;
    cbn [length] in Hm; try discriminate; [reflexivity|].
  cbn [length] in Hc. apply aligned_tl in Hc as [Hne Htl].
  cbn [rows_of]. destruct b.
  - rewrite !mask_list_true_cons. cbn [rows_of].
    rewrite map_hd_mask_true, map_tl_mask_true by exact Hne. f_equal. apply IH; auto.
  - rewrite !mask_list_false_cons, map_mask_false by exact Hne. apply IH; auto.
Qed.

Lemma map_hd_firstn n cols :
  nonempty cols -> map (hd CNA) (map (firstn (S n)) cols) = map (hd CNA) cols.
Proof. induction 1 as [|[|x c] cols Hc _ IH]; simpl in *; congruence. Qed.

Lemma map_tl_firstn n cols :
  nonempty cols ->
  map (@tl cell) (map (firstn (S n)) cols) = map (firstn n) (map (@tl cell) cols).
Proof. induction 1 as [|[|x c] cols Hc _ IH]; simpl in *; congruence. Qed.

(** Taking the first [n] cells of every column takes the first [n] rows. *)
Lemma rows_of_firstn n idx cols :
  Forall (fun c => length c = length idx) cols ->
  rows_of (firstn n idx) (map (firstn n) cols) = firstn n (rows_of idx cols).
Proof.
  revert n cols; induction idx as [|i idx IH]; intros [|n] cols Hc; try reflexivity.
  cbn [length] in Hc. apply aligned_tl in Hc as [Hne Htl].
  rewrite firstn_cons. cbn [rows_of]. rewrite firstn_cons.
  rewrite map_hd_firstn, map_tl_firstn by exact Hne.
  f_equal. apply IH. exact Htl.
Qed.

End RowsMask.

(** ** Lemmas on frames *)

Lemma lookup_col_In name cols c :
  lookup_col name cols = Some c -> In (name, c) cols.
Proof.
  induction cols as [|[n c'] cols IH]; simpl; [discriminate|].
  destruct (String.eqb_spec n name) as [->|_]; [intros [= ->]; now left|].
  intros H; right; auto.
Qed.

(** With distinct names, a column of the frame is found by its name. *)
Lemma lookup_col_NoDup name cols c :
  NoDup (map fst cols) -> In (name, c) cols -> lookup_col name cols = Some c.
Proof.
  induction cols as [|[n c'] cols IH]; simpl; [tauto|]. intros Hnd Hin.
  apply NoDup_cons_iff in Hnd as [Hn Hnd].
  destruct (String.eqb_spec n name) as [->|Hne].
  - destruct Hin as [[= ->]|Hin]; [reflexivity|].
    exfalso. apply Hn. now apply (in_map fst) in Hin.
  - destruct Hin as [[= -> ->]|Hin]; [contradiction|auto].
Qed.

(** Selecting columns of the frame by their names succeeds and returns
    them. *)
Lemma select_cols_sub f l :
  NoDup (map fst (columns f)) -> (forall nc, In nc l -> In nc (columns f)) ->
  select_cols f (map fst l) = Some l.
Proof.
  intros Hnd. induction l as [|[n c] l IH]; intros Hsub; [reflexivity|]. simpl.
  unfold column. rewrite (lookup_col_NoDup n (columns f) c Hnd (Hsub _ (or_introl eq_refl))).
  rewrite IH by (intros; apply Hsub; now right). reflexivity.
Qed.

Lemma column_length f name c :
  wf f -> column f name = Some c -> length c = nrows f.
Proof.
  intros (_ & _ & Hlen) Hc. apply lookup_col_In in Hc.
  rewrite Forall_forall in Hlen. exact (Hlen _ Hc).
Qed.

(** Masking the rows of a well-formed frame gives a well-formed frame
    with the same column names. *)
Lemma mask_rows_wf m f :
  length m = nrows f -> wf f -> wf (mask_rows m f).
Proof.
  intros Hm (Hidx & Hnd & Hlen). unfold wf, mask_rows, nrows in *; simpl.
  rewrite map_map. simpl. split; [now apply mask_list_NoDup|]. split; [exact Hnd|].
  rewrite Forall_forall in *. intros nc Hin.
  apply in_map_iff in Hin as ([n c] & <- & Hin). simpl.
  apply mask_list_length_eq. exact (Hlen _ Hin).
Qed.

(** [df[mask]] keeps whole rows: its rows are the masked rows of [df]. *)
Lemma rows_mask_rows m f :
  length m = nrows f -> wf f -> rows (mask_rows m f) = mask_list m (rows f).
Proof.
  intros Hm (_ & _ & Hlen). unfold rows, mask_rows; simpl.
  rewrite map_map. simpl. rewrite <- (map_map snd (mask_list m)).
  apply rows_of_mask; [exact Hm|].
  rewrite Forall_forall in *. intros c Hc. apply in_map_iff in Hc as (nc & <- & Hin).
  exact (Hlen _ Hin).
Qed.

Lemma wfb_wf f : wfb f = true -> wf f.
Proof.
  unfold wfb, wf. intros H. apply andb_prop in H as [H H3]. apply andb_prop in H as [H1 H2].
  split; [|split].
  - revert H1. apply nodupb_NoDup. intros; apply Nat.eqb_eq.
  - revert H2. apply nodupb_NoDup. intros; apply String.eqb_eq.
  - apply Forall_forall. intros nc Hin. apply Nat.eqb_eq.
    exact (proj1 (forallb_forall _ _) H3 nc Hin).
Qed.

Lemma mask_rows_names m f :
  map fst (columns (mask_rows m f)) = map fst (columns f).
Proof. unfold mask_rows; simpl. rewrite map_map. reflexivity. Qed.

Lemma mask_rows_column m f name :
  column (mask_rows m f) name = option_map (mask_list m) (column f name).
Proof.
  unfold column, mask_rows; simpl. induction (columns f) as [|[n c] cols IH];
    simpl; [reflexivity|].
  destruct (String.eqb n name); [reflexivity|exact IH].
Qed.

Lemma of_rows_wf header rows :
  NoDup header -> wf (of_rows header rows).
Proof.
  intros Hnd. unfold wf, of_rows, nrows; simpl. rewrite map_map. simpl.
  split; [apply seq_NoDup|]. split.
  - rewrite map_nth_seq_self. exact Hnd.
  - apply Forall_forall. intros nc Hin. apply in_map_iff in Hin as (k & <- & _).
    simpl. now rewrite length_map, length_seq.
Qed.

(** [df.head(n)] of a well-formed frame is well formed, and its rows
    are rows of the frame. *)
Lemma head_n_sub n f :
  wf f -> wf (head_n n f) /\ (forall r, In r (rows (head_n n f)) -> In r (rows f)).
Proof.
  intros (Hidx & Hnd & Hlen). split; [split; [|split]|].
  - cbn [head_n index]. rewrite <- (firstn_skipn n (index f)) in Hidx.
    exact (NoDup_app_remove_r _ _ Hidx).
  - unfold head_n; cbn [columns]. rewrite map_map. exact Hnd.
  - unfold head_n, nrows in *; cbn [columns index]. rewrite Forall_map.
    eapply Forall_impl; [|exact Hlen]. intros nc Hnc. cbn [snd]. now rewrite !length_firstn, Hnc.
  - intros r. unfold rows, head_n. cbn [index columns]. rewrite map_map. cbn [snd].
    rewrite <- (map_map snd (firstn n)), rows_of_firstn.
    + intros Hr. rewrite <- (firstn_skipn n (rows_of _ _)). apply in_or_app. now left.
    + rewrite Forall_map. exact Hlen.
Qed.

Lemma head_n_names n f : map fst (columns (head_n n f)) = map fst (columns f).
Proof. unfold head_n; cbn [columns]. now rewrite map_map. Qed.

(** The rows of [df.head()] are the first five rows. *)
Lemma rows_head f : wf f -> rows (head f) = firstn 5 (rows f).
Proof.
  intros (_ & _ & Hlen). unfold rows, head, head_n. cbn [index columns]. rewrite map_map. cbn [snd].
  rewrite <- (map_map snd (firstn 5)). apply rows_of_firstn.
  rewrite Forall_forall in *. intros c Hc. apply in_map_iff in Hc as (nc & <- & Hin).
  exact (Hlen _ Hin).
Qed.

(** C24. The preview [df.head()] shows the first five rows of the frame,
    whole, or all of them when there are fewer. *)
Theorem head_rows f :
  wf f -> rows (head f) = firstn 5 (rows f) /\ nrows (head f) = Nat.min 5 (nrows f).
Proof.
  intros Hwf. split; [exact (rows_head f Hwf)|].
  unfold nrows, head, head_n. cbn [index]. apply length_firstn.
Qed.

(** The table of the spec's end-to-end example: [x = 1..5] and a column
    [y] with one missing entry. *)
Definition example_frame : frame :=
  of_rows ["x"; "y"]%string
    [[CNum 1; CNum 10]; [CNum 2; CNA]; [CNum 3; CNum 30]; [CNum 4; CNum 40];
     [CNum 5; CNum 50]].

Lemma head_rows_witness :
  rows (head example_frame) = firstn 5 (rows example_frame) /\
  nrows (head example_frame) = Nat.min 5 (nrows example_frame).
Proof. apply head_rows. apply wfb_wf. vm_compute. reflexivity. Defined.

End Frame.
