(* ===== verification/Csv.v ===== *)
(** * The CSV reader [pd.read_csv]

    [src/app.py] line 15, [df = pd.read_csv(uploaded_file)], with
    pandas' defaults (C engine, delimiter [,], header on the first line,
    [skip_blank_lines=True], the default NA strings, [True]/[False]
    spellings, UTF-8 strict decoding).  The upload is its bytes; the
    outcome is a frame, an error (an exception of [read_csv], which the
    dashboard shows as [ParseError]), or [CsvOutside] for the inputs this
    model does not cover: an implicit index column (first data row
    longer than the header), a later row longer than the first but not
    than the header, a lone carriage return and infinity literals.

    - records: [Tokenizer.tokenize] (quoted fields, blank lines, the
      byte-order mark); end of input inside a quoted field is an error;
    - header: the first record's fields, named by [Header.header_names];
    - rows: a row with more fields than the header is the tokenizer's
      "Expected n fields" error, a shorter row is padded with NaN;
    - cells: a column whose fields are all NA or numbers is numeric, else
      all NA or booleans is boolean (object when one is NA), else text
      with NA as NaN; the index is [RangeIndex(n)]. *)

From Stdlib Require Import Ascii String List Bool Lia PeanoNat ZArith QArith.
From S2P Require Import Prelude Cell Text Header Tokenizer Frame.
Import ListNotations.
Import Cell Text Header Tokenizer Frame.

Module Csv.

Inductive csv_result :=
| CsvOk (df : frame)
| CsvError
| CsvOutside.

Definition field_str (f : bytes) : string := string_of_list_ascii f.

(** The default [na_values] of the C parser. *)
Definition na_values : list string :=
  [""; "#N/A"; "#N/A N/A"; "#NA"; "-1.#IND"; "-1.#QNAN"; "-NaN"; "-nan"; "1.#IND";
   "1.#QNAN"; "<NA>"; "N/A"; "NA"; "NULL"; "NaN"; "None"; "n/a"; "nan"; "null"]%string.

Definition true_values : list string := ["True"; "TRUE"; "true"]%string.
Definition false_values : list string := ["False"; "FALSE"; "false"]%string.

Definition is_na (f : bytes) : bool := existsb (String.eqb (field_str f)) na_values.

Definition parse_bool (f : bytes) : option bool :=
  if existsb (String.eqb (field_str f)) true_values then Some true
  else if existsb (String.eqb (field_str f)) false_values then Some false
  else None.

Definition lower (c : ascii) : ascii :=
  let n := nat_of_ascii c in
  if (65 <=? n)%nat && (n <=? 90)%nat then ascii_of_nat (n + 32) else c.

(** The infinity spellings [_try_double] accepts, case-insensitively. *)
Definition is_inf (f : bytes) : bool :=
  existsb (String.eqb (field_str (map lower (trim f))))
    ["inf"; "+inf"; "-inf"; "infinity"; "+infinity"; "-infinity"]%string.

Definition is_some {A} (o : option A) : bool := match o with Some _ => true | None => false end.

(** The cells of one column from its fields: numeric, else boolean,
    else text; the NA strings are NaN in every case. *)
Definition convert_column (fs : list bytes) : list cell :=
  if forallb (fun f => is_na f || is_some (parse_number f)) fs then
    map (fun f => if is_na f then CNA
                  else match parse_number f with Some q => CNum q | None => CNA end) fs
  else if forallb (fun f => is_na f || is_some (parse_bool f)) fs then
    map (fun f => if is_na f then CNA
                  else match parse_bool f with Some b => CBool b | None => CNA end) fs
  else map (fun f => if is_na f then CNA else CStr (field_str f)) fs.

(** Strict UTF-8: the byte patterns Python's decoder accepts. *)
Definition between (c : ascii) (a b : nat) : bool :=
  (a <=? nat_of_ascii c)%nat && (nat_of_ascii c <=? b)%nat.

Fixpoint utf8_valid (s : bytes) : bool :=
  match s with
  | [] => true
  | c :: s1 =>
      if between c 0 127 then utf8_valid s1
      else if between c 194 223 then
        match s1 with
        | c1 :: s2 => between c1 128 191 && utf8_valid s2
        | [] => false
        end
      else if between c 224 239 then
        match s1 with
        | c1 :: c2 :: s3 =>
            (if between c 224 224 then between c1 160 191
             else if between c 237 237 then between c1 128 159
             else between c1 128 191) && between c2 128 191 && utf8_valid s3
        | _ => false
        end
      else if between c 240 244 then
        match s1 with
        | c1 :: c2 :: c3 :: s4 =>
            (if between c 240 240 then between c1 144 191
             else if between c 244 244 then between c1 128 143
             else between c1 128 191) && between c2 128 191 && between c3 128 191 &&
            utf8_valid s4
        | _ => false
        end
      else false
  end.

(** Column [k] of the rows, short rows padded with the empty field. *)
Definition column_fields (rows : list (list bytes)) (k : nat) : list bytes :=
  map (fun r => nth k r []) rows.

(** The frame of a header and its rows. *)
Definition build (names : list string) (rows : list (list bytes)) : frame :=
  mkFrame (seq 0 (length rows))
          (combine names (map (fun k => convert_column (column_fields rows k))
                              (seq 0 (length names)))).

(** [pd.read_csv]: decoding, tokenizing, the header, the checks on the
    field counts, then the columns.  The first data row longer than the
    header makes pandas take the leading columns as the index, and a
    later row longer than the first is the tokenizer's "Expected n
    fields in line k" when it is also longer than the header; both of
    these, a lone [\r] (after which pandas re-reads whitespace-led
    lines from the previous [\n]) and infinity literals are outside the
    model. *)
Definition read_csv (s : bytes) : csv_result :=
  if negb (utf8_valid s) then CsvError
  else if negb (no_bare_cr s) then CsvOutside
  else
    match tokenize s with
    | None => CsvError
    | Some [] => CsvError
    | Some (h :: rows) =>
        let names := header_names (map field_str h) in
        let n := length names in
        match rows with
        | [] => CsvOk (build names rows)
        | r0 :: rest =>
            if (n <? length r0)%nat then CsvOutside
            else if existsb (fun r => n <? length r)%nat rest then CsvError
            else if existsb (fun r => length r0 <? length r)%nat rest then CsvOutside
            else if existsb is_inf (concat rows) then CsvOutside
            else CsvOk (build names rows)
        end
    end.

(** ** Lemmas *)

Lemma length_convert_column fs : length (convert_column fs) = length fs.
Proof.
  unfold convert_column. destruct (forallb _ fs); [|destruct (forallb _ fs)]; apply length_map.
Qed.

Lemma map_fst_combine {A B} (l1 : list A) (l2 : list B) :
  length l1 = length l2 -> map fst (combine l1 l2) = l1.
Proof.
  revert l2; induction l1 as [|a l1 IH]; intros [|b l2] H; cbn in *; try easy. f_equal; auto.
Qed.

(** A header and rows build a well-formed frame with one column per name. *)
Lemma build_wf names rows :
  NoDup names -> wf (build names rows) /\ map fst (columns (build names rows)) = names.
Proof.
  intros Hnd. unfold build, wf, nrows; cbn [index columns].
  assert (Hn : map fst (combine names (map (fun k => convert_column (column_fields rows k))
                                       (seq 0 (length names)))) = names)
    by (apply map_fst_combine; now rewrite length_map, length_seq).
  split_and; [apply seq_NoDup | now rewrite Hn | | exact Hn].
  apply Forall_forall. intros [nm col] Hin. apply in_combine_r, in_map_iff in Hin as (k & <- & _).
  cbn [snd]. unfold column_fields. now rewrite length_convert_column, length_map, length_seq.
Qed.

Lemma length_header_names fields : length (header_names fields) = length fields.
Proof.
  unfold header_names, dedup_names. rewrite (proj2 (proj2 (dedup_go_spec _ []))).
  now rewrite length_map, length_combine, length_seq, Nat.min_id.
Qed.

(** The names of a header line are distinct, and there is one when the
    line has a field. *)
Lemma header_line_names h :
  h <> [] -> NoDup (header_names (map field_str h)) /\ header_names (map field_str h) <> [].
Proof.
  intros Hh. split; [apply (dedup_go_spec _ [])|].
  intros E. apply (f_equal (@length _)) in E. rewrite length_header_names, length_map in E.
  destruct h; [contradiction | discriminate].
Qed.

(** What [read_csv] returns a frame from. *)
Lemma read_csv_ok s df :
  read_csv s = CsvOk df ->
  exists h rows, tokenize s = Some (h :: rows) /\ df = build (header_names (map field_str h)) rows.
Proof.
  unfold read_csv. destruct (negb (utf8_valid s)); [discriminate|].
  destruct (negb (no_bare_cr s)); [discriminate|].
  destruct (tokenize s) as [[|h rows]|]; try discriminate.
  destruct rows as [|r0 rest].
  - intros [= <-]. eauto.
  - destruct (_ <? _)%nat; [discriminate|]. destruct (existsb _ rest); [discriminate|].
    destruct (existsb _ rest); [discriminate|].
    destruct (existsb is_inf _); [discriminate|]. intros [= <-]. eauto.
Qed.

(** The cells of a column are numbers or NaN exactly when the numeric
    branch is taken. *)
Lemma convert_column_num fs :
  forallb is_num_or_na (convert_column fs) = forallb (fun f => is_na f || is_some (parse_number f)) fs.
Proof.
  unfold convert_column. destruct (forallb (fun f => is_na f || is_some (parse_number f)) fs) eqn:E.
  - apply forallb_forall. intros c Hc. apply in_map_iff in Hc as (f & <- & Hf).
    assert (Hn := proj1 (forallb_forall _ _) E f Hf). cbv beta in Hn.
    destruct (is_na f); [reflexivity|]. destruct (parse_number f); [reflexivity|discriminate].
  - destruct (forallb_false_ex _ _ E) as (f & Hf & Hnf). apply orb_false_elim in Hnf as [Hna _].
    apply not_true_iff_false. intros H. rewrite forallb_forall in H.
    destruct (forallb (fun f => is_na f || is_some (parse_bool f)) fs) eqn:B;
      specialize (H _ (in_map _ _ _ Hf)); cbv beta in H; rewrite Hna in H; [|discriminate].
    assert (Hb := proj1 (forallb_forall _ _) B f Hf). cbv beta in Hb. rewrite Hna in Hb.
    destruct (parse_bool f); cbn in *; discriminate.
Qed.

(** Every frame [read_csv] returns is well formed (a [RangeIndex],
    distinct column names, one cell per row in each column) and has at
    least one column. *)
Lemma read_csv_wf s df :
  read_csv s = CsvOk df ->
  wf df /\ columns df <> [] /\ index df = seq 0 (nrows df).
Proof.
  intros Hok. apply read_csv_ok in Hok as (h & rows & Ht & ->).
  assert (Hh : h <> []) by (apply tokenize_nonempty in Ht; now inversion Ht).
  destruct (header_line_names h Hh) as [Hnd Hne].
  destruct (build_wf _ rows Hnd) as [Hwf Hn].
  split_and; [exact Hwf| |unfold build, nrows; cbn; now rewrite length_seq].
  intros E. rewrite E in Hn. symmetry in Hn. contradiction.
Qed.

(** ** Properties *)

(** C39. Error behaviour of the reader: bytes that are not UTF-8; an
    upload whose last field opens a quote that is never closed ("EOF
    inside string"); an upload with no record ([EmptyDataError]); and a
    data row after the first with more fields than the header when the
    first has no more ("Expected n fields in line k") are errors, which
    the script shows as an exception. *)
Theorem read_csv_errors s :
  (utf8_valid s = false -> read_csv s = CsvError) /\
  (forall rows b, utf8_valid s = true -> no_bare_cr s = true ->
     Forall (fun r => r <> []) rows -> has_quote b = false ->
     s = quote_all rows ++ "034"%char :: b -> read_csv s = CsvError) /\
  (utf8_valid s = true -> no_bare_cr s = true -> tokenize s = Some [] -> read_csv s = CsvError) /\
  (forall h r0 rest r, utf8_valid s = true -> no_bare_cr s = true ->
     tokenize s = Some (h :: r0 :: rest) ->
     (length r0 <= length h)%nat -> In r rest -> (length h < length r)%nat ->
     read_csv s = CsvError).
Proof.
  unfold read_csv. split_and.
  - intros Hu. now rewrite Hu.
  - intros rows b Hu Hb Hrows Hq ->. rewrite Hu, Hb. cbn [negb].
    now rewrite tokenize_open_quote.
  - intros Hu Hb Ht. now rewrite Hu, Hb, Ht.
  - intros h r0 rest r Hu Hb Ht Hr0 Hin Hlt. rewrite Hu, Hb, Ht. cbn [negb].
    rewrite length_header_names, length_map.
    replace (length h <? length r0)%nat with false by (symmetry; apply Nat.ltb_ge; exact Hr0).
    replace (existsb _ rest) with true; [reflexivity|]. symmetry. apply existsb_exists.
    exists r. split; [exact Hin | now apply Nat.ltb_lt].
Qed.

(** C40. Column typing of the reader: the column [read_csv] builds from
    a column's fields has the numeric dtype [select_dtypes(include=
    np.number)] selects exactly when there is at least one row and every
    field is an NA string or a number. *)
Theorem convert_column_dtype fs :
  infer_dtype (convert_column fs) = DNumber <->
  fs <> [] /\ forall f, In f fs -> is_na f = true \/ exists q, parse_number f = Some q.
Proof.
  assert (Hlen := length_convert_column fs). unfold infer_dtype.
  destruct (convert_column fs) as [|c cs] eqn:Ec.
  - destruct fs; [|discriminate]. split; [discriminate|]. intros [H _]; contradiction.
  - rewrite <- Ec, convert_column_num.
    assert (Hne : fs <> []) by (intros ->; discriminate).
    destruct (forallb (fun f => is_na f || is_some (parse_number f)) fs) eqn:E.
    + split; [intros _; split; [exact Hne|]|reflexivity]. intros f Hf.
      assert (H := proj1 (forallb_forall _ _) E f Hf). cbv beta in H.
      destruct (is_na f); [now left|right]. destruct (parse_number f); [eauto|discriminate].
    + split; [destruct (forallb is_bool _); discriminate|]. intros [_ Hall].
      destruct (forallb_false_ex _ _ E) as (f & Hf & Hnf). apply orb_false_elim in Hnf as [Hna Hp].
      destruct (Hall f Hf) as [H|(q & Hq)]; [congruence|]. rewrite Hq in Hp. discriminate.
Qed.

(** ** Witnesses *)

Lemma read_csv_errors_witness :
  let s := list_ascii_of_string ("a,b" ++ String "010" "1,2" ++ String "010" "1,2,3")%string in
  read_csv s = CsvError.
Proof.
  intros s.
  refine (proj2 (proj2 (proj2 (read_csv_errors s)))
            [list_ascii_of_string "a"; list_ascii_of_string "b"]
            [list_ascii_of_string "1"; list_ascii_of_string "2"]
            [[list_ascii_of_string "1"; list_ascii_of_string "2"; list_ascii_of_string "3"]]
            [list_ascii_of_string "1"; list_ascii_of_string "2"; list_ascii_of_string "3"]
            _ _ _ _ _ _); vm_compute; try reflexivity; auto.
Defined.

Lemma convert_column_dtype_witness :
  infer_dtype (convert_column [list_ascii_of_string "1.5"; list_ascii_of_string "NA"]) = DNumber <->
  [list_ascii_of_string "1.5"; list_ascii_of_string "NA"] <> [] /\
  forall f, In f [list_ascii_of_string "1.5"; list_ascii_of_string "NA"] ->
    is_na f = true \/ exists q, parse_number f = Some q.
Proof. apply convert_column_dtype. Defined.

End Csv.
