(* ===== verification/Missing.v ===== *)
(** * Missing-value counts

    [src/app.py] lines 24-36: the "Missing Cells" metric
    [df.isnull().sum().sum()], the per-column counts
    [df.isnull().sum()] restricted to the positive ones, and the branch
    that shows them or the "No missing values found" message. *)

From Stdlib Require Import String.
From Stdlib Require Import QArith List Bool Lia PeanoNat.
From S2P Require Import Prelude Cell Frame.
Import ListNotations.
Import Cell Frame.
Local Open Scope nat_scope.

Module Missing.

(** [df.isnull().sum()] (line 30): one count per column, in column order. *)
Definition isnull_sum (f : frame) : list (string * nat) :=
  map (fun nc => (fst nc, countb isnull (snd nc))) (columns f).

(** [df.isnull().sum().sum()] (line 26). *)
Definition missing_cells (f : frame) : nat :=
  list_sum (map snd (isnull_sum f)).

(** [missing_df[missing_df > 0]] (line 31). *)
Definition missing_df (f : frame) : list (string * nat) :=
  filter (fun p => 0 <? snd p) (isnull_sum f).

(** What the "Missing Values" section shows (lines 33-36). *)
Inductive missing_view :=
| ShowMissing (s : list (string * nat))
| NoMissing.

Definition missing_section (f : frame) : missing_view :=
  let m := missing_df f in
  if 0 <? length m then ShowMissing m else NoMissing.

(** ** Lemmas *)

Lemma list_sum_zero_iff (l : list nat) :
  list_sum l = 0 <-> forall k, In k l -> k = 0.
Proof.
  induction l as [|k l IH]; simpl; [tauto|]. split.
  - intros H k' [<-|Hin]; [lia|]. apply IH; [lia|exact Hin].
  - intros H. rewrite (H k (or_introl eq_refl)), (proj2 IH) by (intros; apply H; auto).
    reflexivity.
Qed.

Lemma filter_pos_nil_iff (l : list (string * nat)) :
  filter (fun p => 0 <? snd p) l = [] <-> forall p, In p l -> snd p = 0.
Proof.
  induction l as [|p l IH]; simpl; [tauto|].
  destruct (Nat.ltb_spec 0 (snd p)) as [Hp|Hp].
  - split; [discriminate|]. intros H. specialize (H p (or_introl eq_refl)). lia.
  - rewrite IH. split.
    + intros H p' [<-|Hin]; [lia|auto].
    + intros H p' Hin. apply H. now right.
Qed.

(** The listed entries are the columns with their positive counts. *)
Lemma missing_df_In f name k :
  In (name, k) (missing_df f) <->
  exists col, In (name, col) (columns f) /\ k = countb isnull col /\ 0 < k.
Proof.
  unfold missing_df, isnull_sum. rewrite filter_In, in_map_iff. simpl. split.
  - intros (([n col] & Heq & Hin) & Hpos). injection Heq as <- <-.
    exists col. apply Nat.ltb_lt in Hpos. auto.
  - intros (col & Hin & -> & Hpos). split; [|now apply Nat.ltb_lt].
    exists (name, col). auto.
Qed.

(** ** Properties *)

(** C5. The "Missing Cells" metric equals the sum of the per-column
    counts the "Missing Values" section lists. *)
Theorem missing_total_eq f :
  missing_cells f = list_sum (map snd (missing_df f)).
Proof. unfold missing_cells, missing_df. symmetry. apply (list_sum_filter_pos snd). Qed.

(** C6. The section shows the "No missing values found" message exactly
    when the frame has no missing cell. *)
Theorem missing_section_none f :
  missing_section f = NoMissing <-> missing_cells f = 0.
Proof.
  unfold missing_section, missing_cells.
  rewrite list_sum_zero_iff.
  destruct (Nat.ltb_spec 0 (length (missing_df f))) as [Hlt|Hge].
  - split; [discriminate|]. intros H. exfalso.
    destruct (missing_df f) as [|p l] eqn:E; [simpl in Hlt; lia|].
    assert (Hp : In p (missing_df f)) by (rewrite E; now left).
    unfold missing_df in Hp. apply filter_In in Hp as [Hin Hpos].
    apply Nat.ltb_lt in Hpos. specialize (H (snd p) (in_map snd _ _ Hin)). lia.
  - split; [intros _|reflexivity].
    assert (Hnil : missing_df f = []) by (destruct (missing_df f); [reflexivity|simpl in Hge; lia]).
    unfold missing_df in Hnil. rewrite filter_pos_nil_iff in Hnil.
    intros k Hk. apply in_map_iff in Hk as (p & <- & Hp). auto.
Qed.

(** C7. Each listed entry is a column of the frame with its exact,
    positive number of missing cells, and every column with a missing
    cell is listed. *)
Theorem missing_df_spec f name k :
  In (name, k) (missing_df f) <->
  exists col, In (name, col) (columns f) /\ k = countb isnull col /\ 0 < k.
Proof. apply missing_df_In. Qed.



(** The spec's end-to-end example: one missing cell, listed under [y]. *)
Example missing_example :
  missing_cells example_frame = 1 /\ missing_df example_frame = [("y"%string, 1)].
Proof. split; reflexivity. Qed.

End Missing.
