(* ===== verification/Filter.v ===== *)
(** * The sidebar range filter

    [src/app.py] lines 45-68: the numeric columns
    [df.select_dtypes(include=np.number).columns.tolist()], the bounds
    [float(df[c].min())] and [float(df[c].max())] of the selected column,
    and the filtered frame
    [df[(df[c] >= lo) & (df[c] <= hi)]].
    The theorems: the filter is an exact partition of the rows by the
    closed range (missing values excluded), it keeps whole rows in order,
    and the default range [min, max] keeps every row whose value is
    present. *)

From Stdlib Require Import String.
From Stdlib Require Import QArith Qminmax Lqa List Bool Lia Sorted.
From S2P Require Import Prelude Cell Frame.
Import ListNotations.
Import Cell Frame.

Module Filter.

(** [df.select_dtypes(include=np.number).columns.tolist()] (line 45). *)
Definition numeric_cols (f : frame) : list string :=
  map fst (filter (fun nc => is_number (infer_dtype (snd nc))) (columns f)).

(** [float(series.min())] and [float(series.max())] (lines 53-54):
    missing values are skipped, and a Series with no value gives NaN. *)
Definition series_min (col : list cell) : flt :=
  match nums col with
  | [] => NaN
  | q :: qs => Fin (fold_left Qmin qs q)
  end.

Definition series_max (col : list cell) : flt :=
  match nums col with
  | [] => NaN
  | q :: qs => Fin (fold_left Qmax qs q)
  end.

(** The element-wise [&] of two boolean Series. *)
Definition series_and (a b : list bool) : list bool :=
  map (fun p => andb (fst p) (snd p)) (combine a b).

(** [(df[c] >= lo) & (df[c] <= hi)] (lines 64-65). *)
Definition range_mask (col : list cell) (lo hi : flt) : list bool :=
  series_and (map (fun c => ge_flt c lo) col) (map (fun c => le_flt c hi) col).

(** [df[range_mask]] (lines 63-66); [None] is the KeyError of an unknown
    column name. *)
Definition filter_range (f : frame) (name : string) (lo hi : flt) : option frame :=
  match column f name with
  | Some col => Some (mask_rows (range_mask col lo hi) f)
  | None => None
  end.

(** The closed-range membership the filter decides, as a proposition. *)
Definition in_range (lo hi : flt) (v : cell) : Prop :=
  exists q a b, v = CNum q /\ lo = Fin a /\ hi = Fin b /\ a <= q /\ q <= b.

(** ** Helper lemmas *)

Lemma range_mask_eq col lo hi :
  range_mask col lo hi = map (fun c => ge_flt c lo && le_flt c hi) col.
Proof.
  unfold range_mask, series_and. induction col as [|c col IH]; simpl; congruence.
Qed.

Lemma range_keep_iff lo hi v :
  (ge_flt v lo && le_flt v hi)%bool = true <-> in_range lo hi v.
Proof.
  unfold in_range. rewrite andb_true_iff, ge_flt_true, le_flt_true. split.
  - intros [(q & a & -> & -> & Ha) (q' & b & Hq & -> & Hb)]. injection Hq as <-.
    exists q, a, b. auto.
  - intros (q & a & b & -> & -> & -> & Ha & Hb). split; eauto 6.
Qed.

Lemma length_rows_of idx cols : length (rows_of idx cols) = length idx.
Proof. revert cols; induction idx; simpl; auto. Qed.

Lemma map_fst_rows_of idx cols : map fst (rows_of idx cols) = idx.
Proof. revert cols; induction idx; simpl; intros; f_equal; auto. Qed.

Lemma length_rows f : length (rows f) = nrows f.
Proof. apply length_rows_of. Qed.

Lemma NoDup_rows f : wf f -> NoDup (rows f).
Proof.
  intros [Hidx _]. unfold rows. apply (NoDup_map_inv fst).
  now rewrite map_fst_rows_of.
Qed.

(** In a [combine] whose left list has no duplicates, the left element
    determines the right one. *)
Lemma combine_functional {A B} (l1 : list A) (l2 : list B) x v v' :
  NoDup l1 -> In (x, v) (combine l1 l2) -> In (x, v') (combine l1 l2) -> v = v'.
Proof.
  revert l2; induction l1 as [|y l1 IH]; intros [|w l2] Hnd H1 H2; simpl in *; try tauto.
  apply NoDup_cons_iff in Hnd as [Hy Hnd].
  destruct H1 as [H1|H1], H2 as [H2|H2].
  - congruence.
  - injection H1 as -> ->. exfalso. apply Hy. eapply in_combine_l; eauto.
  - injection H2 as -> ->. exfalso. apply Hy. eapply in_combine_l; eauto.
  - eapply IH; eauto.
Qed.

(** The minimum of the values bounds each of them from below, and the
    maximum from above. *)
Lemma fold_min_le qs q x : In x (q :: qs) -> fold_left Qmin qs q <= x.
Proof.
  revert q x; induction qs as [|y qs IH]; intros q x Hx; simpl in *.
  - destruct Hx as [<-|[]]. apply Qle_refl.
  - destruct Hx as [<-|[<-|Hx]].
    + eapply Qle_trans; [apply IH; now left|]. apply Q.le_min_l.
    + eapply Qle_trans; [apply IH; now left|]. apply Q.le_min_r.
    + apply IH. now right.
Qed.

Lemma fold_max_ge qs q x : In x (q :: qs) -> x <= fold_left Qmax qs q.
Proof.
  revert q x; induction qs as [|y qs IH]; intros q x Hx; simpl in *.
  - destruct Hx as [<-|[]]. apply Qle_refl.
  - destruct Hx as [<-|[<-|Hx]].
    + eapply Qle_trans; [apply Q.le_max_l|]. apply IH; now left.
    + eapply Qle_trans; [apply Q.le_max_r|]. apply IH; now left.
    + apply IH. now right.
Qed.

Lemma series_min_le col mn q : series_min col = Fin mn -> In (CNum q) col -> mn <= q.
Proof.
  unfold series_min. rewrite <- In_nums. destruct (nums col) as [|q0 qs]; [discriminate|].
  intros [= <-]. apply fold_min_le.
Qed.

Lemma series_max_ge col mx q : series_max col = Fin mx -> In (CNum q) col -> q <= mx.
Proof.
  unfold series_max. rewrite <- In_nums. destruct (nums col) as [|q0 qs]; [discriminate|].
  intros [= <-]. apply fold_max_ge.
Qed.

(** The filter as a list equation: the rows of the result are the rows of
    [df] whose value passes both comparisons, in their original order. *)
Lemma filter_range_rows_eq f name col lo hi :
  wf f -> column f name = Some col ->
  filter_range f name lo hi =
    Some (mask_rows (map (fun c => ge_flt c lo && le_flt c hi) col) f) /\
  rows (mask_rows (map (fun c => ge_flt c lo && le_flt c hi) col) f) =
    map fst (filter (fun rv => ge_flt (snd rv) lo && le_flt (snd rv) hi)
                    (combine (rows f) col)).
Proof.
  intros Hwf Hc. assert (Hlen := column_length f name col Hwf Hc).
  unfold filter_range. rewrite Hc, range_mask_eq. split; [reflexivity|].
  rewrite rows_mask_rows by (rewrite ?length_map; assumption).
  apply (mask_list_by (fun c => ge_flt c lo && le_flt c hi)). rewrite length_rows. now symmetry.
Qed.

(** ** Properties of the filter *)

(** C1. The filtered frame's rows are exactly the rows of [df] whose
    value in the selected column passes [>= lo] and [<= hi], each row
    whole and in the original order. *)
Theorem filter_range_rows f name col lo hi :
  wf f -> column f name = Some col ->
  exists f', filter_range f name lo hi = Some f' /\
    rows f' = map fst (filter (fun rv => ge_flt (snd rv) lo && le_flt (snd rv) hi)
                              (combine (rows f) col)).
Proof.
  intros Hwf Hc. destruct (filter_range_rows_eq f name col lo hi Hwf Hc) as [H1 H2].
  eexists; split; [exact H1 | exact H2].
Qed.

(** Whether a row is kept is decided by its value alone. *)
Lemma filter_range_keep f name col lo hi f' :
  wf f -> column f name = Some col -> filter_range f name lo hi = Some f' ->
  forall r v, In (r, v) (combine (rows f) col) ->
    (In r (rows f') <-> in_range lo hi v).
Proof.
  intros Hwf Hc Hf r v Hrv.
  destruct (filter_range_rows_eq f name col lo hi Hwf Hc) as [H1 H2].
  rewrite Hf in H1. injection H1 as ->. rewrite H2, <- range_keep_iff. split.
  - intros Hin. apply in_map_iff in Hin as ([r' v'] & Heq & Hin). simpl in Heq; subst r'.
    apply filter_In in Hin as [Hin Hkeep]. simpl in Hkeep.
    rewrite (combine_functional _ _ _ _ _ (NoDup_rows f Hwf) Hrv Hin). exact Hkeep.
  - intros Hkeep. apply in_map_iff. exists (r, v). split; [reflexivity|].
    apply filter_In. split; assumption.
Qed.

(** C2. Exact partition: a row of [df] is in the filtered frame if and
    only if its value lies in the closed range; a missing value, or a NaN
    bound, excludes the row. *)
Theorem filter_range_partition f name col lo hi f' :
  wf f -> column f name = Some col -> filter_range f name lo hi = Some f' ->
  forall r v, In (r, v) (combine (rows f) col) ->
    (In r (rows f') <-> in_range lo hi v).
Proof. apply filter_range_keep. Qed.

(** A filtered frame is well formed, has the columns of [df], and its
    rows are rows of [df]. *)
Lemma filter_range_sub f name lo hi f' :
  wf f -> filter_range f name lo hi = Some f' ->
  wf f' /\ map fst (columns f') = map fst (columns f) /\
  (forall r, In r (rows f') -> In r (rows f)).
Proof.
  intros Hwf Hf. unfold filter_range in Hf.
  destruct (column f name) as [col|] eqn:Hc; [|discriminate]. injection Hf as <-.
  assert (Hlen : length (range_mask col lo hi) = nrows f).
  { rewrite range_mask_eq, length_map. exact (column_length f name col Hwf Hc). }
  split; [now apply mask_rows_wf|]. split; [apply mask_rows_names|].
  intros r. rewrite rows_mask_rows by assumption. apply mask_list_incl.
Qed.

(** C3. The filtered view is a row subset of [df]: it is well formed, has
    the same columns, and its rows are rows of [df], no more of them. *)
Theorem filter_range_subset f name lo hi f' :
  wf f -> filter_range f name lo hi = Some f' ->
  wf f' /\ map fst (columns f') = map fst (columns f) /\
  (forall r, In r (rows f') -> In r (rows f)) /\ (nrows f' <= nrows f)%nat.
Proof.
  intros Hwf Hf. destruct (filter_range_sub f name lo hi f' Hwf Hf) as (Hwf' & Hn & Hr).
  split_and; [exact Hwf' | exact Hn | exact Hr|].
  unfold filter_range in Hf. destruct (column f name); [|discriminate].
  injection Hf as <-. apply mask_list_length_le.
Qed.

(** Any range that contains every value of a numeric column keeps exactly
    its present values. *)
Lemma covering_range_mask col a b :
  infer_dtype col = DNumber -> (forall q, In (CNum q) col -> a <= q /\ q <= b) ->
  map (fun c => ge_flt c (Fin a) && le_flt c (Fin b)) col = map (fun c => negb (isnull c)) col.
Proof.
  intros Hd Hb. apply infer_dtype_number in Hd as [_ Hd].
  apply map_ext_in. intros c Hin. specialize (Hd c Hin).
  destruct c as [q| | |]; simpl in *; try discriminate; [|reflexivity].
  destruct (Hb q Hin). qbool; assumption.
Qed.

(** On a numeric column, the range [min, max] passes every present value. *)
Lemma full_range_mask col mn mx :
  infer_dtype col = DNumber -> series_min col = Fin mn -> series_max col = Fin mx ->
  map (fun c => ge_flt c (Fin mn) && le_flt c (Fin mx)) col =
  map (fun c => negb (isnull c)) col.
Proof.
  intros Hd Hmn Hmx. apply covering_range_mask; [exact Hd|]. intros q Hin.
  split; [exact (series_min_le col mn q Hmn Hin) | exact (series_max_ge col mx q Hmx Hin)].
Qed.

(** The index labels of a filtered frame keep their order. *)
Lemma filter_range_index_sorted f name lo hi f' :
  filter_range f name lo hi = Some f' ->
  StronglySorted lt (index f) -> StronglySorted lt (index f').
Proof.
  unfold filter_range. destruct (column f name); [|discriminate]. intros [= <-].
  apply mask_list_sorted. intros; lia.
Qed.

(** C4. The default slider range [min(c), max(c)] keeps exactly the rows
    whose value in [c] is present: the identity filter up to missing
    values. *)
Theorem filter_full_range f name col mn mx :
  wf f -> column f name = Some col -> infer_dtype col = DNumber ->
  series_min col = Fin mn -> series_max col = Fin mx ->
  exists f', filter_range f name (Fin mn) (Fin mx) = Some f' /\
    rows f' = map fst (filter (fun rv => negb (isnull (snd rv))) (combine (rows f) col)).
Proof.
  intros Hwf Hc Hd Hmn Hmx. assert (Hlen := column_length f name col Hwf Hc).
  destruct (filter_range_rows_eq f name col (Fin mn) (Fin mx) Hwf Hc) as [H1 H2].
  rewrite full_range_mask in H1, H2 by assumption.
  exists (mask_rows (map (fun c => negb (isnull c)) col) f). split; [exact H1|].
  rewrite rows_mask_rows by (rewrite ?length_map; assumption).
  apply (mask_list_by (fun c => negb (isnull c))).
  rewrite length_rows. now symmetry.
Qed.

(** A numeric column's name finds a column of number dtype. *)
Lemma numeric_cols_column f name :
  wf f -> In name (numeric_cols f) ->
  exists col, column f name = Some col /\ infer_dtype col = DNumber.
Proof.
  intros (_ & Hnd & _). unfold numeric_cols. rewrite in_map_iff.
  intros ([n col] & <- & Hin). apply filter_In in Hin as [Hin Hd]. simpl in *.
  exists col. split; [unfold column; now apply lookup_col_NoDup|].
  destruct (infer_dtype col); easy.
Qed.

(** C25. [numeric_cols] lists, in frame order, exactly the names of the
    non-empty columns whose cells are all numbers or missing, and each
    such name finds its column. *)
Theorem numeric_cols_type f name :
  wf f ->
  (In name (numeric_cols f) <->
   exists col, column f name = Some col /\ col <> [] /\
               forall c, In c col -> is_num_or_na c = true).
Proof.
  intros Hwf. split.
  - intros Hin. destruct (numeric_cols_column f name Hwf Hin) as (col & Hc & Hd).
    exists col. split; [exact Hc|]. now apply infer_dtype_number.
  - unfold numeric_cols. rewrite in_map_iff.
    intros (col & Hc & Hne & Hall). exists (name, col). split; [reflexivity|].
    apply filter_In. split; [now apply lookup_col_In|]. simpl.
    destruct col as [|c0 col]; [contradiction|]. unfold infer_dtype.
    replace (forallb is_num_or_na (c0 :: col)) with true; [reflexivity|].
    symmetry. apply forallb_forall. exact Hall.
Qed.

(** ** Witnesses on the spec's example table *)

Definition example_x : list cell := [CNum 1; CNum 2; CNum 3; CNum 4; CNum 5].

Lemma filter_range_rows_witness :
  exists f', filter_range example_frame "x" (Fin 2) (Fin 4) = Some f' /\
    rows f' = map fst (filter (fun rv => ge_flt (snd rv) (Fin 2) && le_flt (snd rv) (Fin 4))
                              (combine (rows example_frame) example_x)).
Proof.
  apply (filter_range_rows example_frame "x" example_x (Fin 2) (Fin 4)).
  - apply wfb_wf. vm_compute. reflexivity.
  - reflexivity.
Defined.

Lemma filter_range_partition_witness :
  In (2%nat, [CNum 3; CNum 30])
     (rows (mask_rows (range_mask example_x (Fin 2) (Fin 4)) example_frame)) <->
  in_range (Fin 2) (Fin 4) (CNum 3).
Proof.
  apply (filter_range_partition example_frame "x" example_x (Fin 2) (Fin 4)).
  - apply wfb_wf. vm_compute. reflexivity.
  - reflexivity.
  - reflexivity.
  - simpl. tauto.
Defined.

Lemma filter_range_subset_witness :
  let f' := mask_rows (range_mask example_x (Fin 2) (Fin 4)) example_frame in
  wf f' /\ map fst (columns f') = map fst (columns example_frame) /\
  (forall r, In r (rows f') -> In r (rows example_frame)) /\ (nrows f' <= nrows example_frame)%nat.
Proof.
  apply (filter_range_subset example_frame "x" (Fin 2) (Fin 4)).
  - apply wfb_wf. vm_compute. reflexivity.
  - reflexivity.
Defined.

Lemma filter_full_range_witness :
  exists f', filter_range example_frame "y" (Fin 10) (Fin 50) = Some f' /\
    rows f' = map fst (filter (fun rv => negb (isnull (snd rv)))
                              (combine (rows example_frame) [CNum 10; CNA; CNum 30; CNum 40; CNum 50])).
Proof.
  apply filter_full_range.
  - apply wfb_wf. vm_compute. reflexivity.
  - reflexivity.
  - reflexivity.
  - reflexivity.
  - reflexivity.
Defined.

Lemma numeric_cols_type_witness :
  In "y"%string (numeric_cols example_frame) <->
  exists col, column example_frame "y" = Some col /\ col <> [] /\
              forall c, In c col -> is_num_or_na c = true.
Proof. apply numeric_cols_type. apply wfb_wf. vm_compute. reflexivity. Defined.

End Filter.
