(* ===== verification/Moments.v ===== *)
(** * Moments: Welford's online update and the two-pass formulas

    [df.corr()] ([src/app.py] line 87) calls pandas' [nancorr], which for
    each pair of columns runs Welford's online update over the rows where
    both values are present: it keeps the count, the two running means,
    the two sums of squared deviations and the co-deviation sum.  This
    file models that loop, the two-pass reference formulas
    [sum (x - mean x)^2] and [sum (x - mean x)(y - mean y)], proves that
    the loop computes them exactly (in exact arithmetic), and proves the
    Cauchy-Schwarz bound that keeps a correlation in [-1, 1]. *)

From Stdlib Require Import QArith Lqa List Lia ZArith.
From S2P Require Import Prelude.
Import ListNotations.

Module Moments.

(** ** Welford's update, as [nancorr]'s inner loop *)

Record wstate := mkW {
  nobs : nat;
  meanx : Q;
  meany : Q;
  ssqdmx : Q;
  ssqdmy : Q;
  covxy : Q
}.

Definition w0 : wstate := mkW 0 0 0 0 0 0.

Definition Qnat (n : nat) : Q := inject_Z (Z.of_nat n).

(** One observed pair [(vx, vy)]:
    [nobs += 1; dx = vx - meanx; dy = vy - meany;
     meanx += 1. / nobs * dx; meany += 1. / nobs * dy;
     ssqdmx += (vx - meanx) * dx; ssqdmy += (vy - meany) * dy;
     covxy += (vx - meanx) * dy]. *)
Definition wstep (s : wstate) (p : Q * Q) : wstate :=
  let '(vx, vy) := p in
  let n := S (nobs s) in
  let dx := vx - meanx s in
  let dy := vy - meany s in
  let mx := meanx s + 1 / Qnat n * dx in
  let my := meany s + 1 / Qnat n * dy in
  mkW n mx my
      (ssqdmx s + (vx - mx) * dx)
      (ssqdmy s + (vy - my) * dy)
      (covxy s + (vx - mx) * dy).

Definition welford (ps : list (Q * Q)) : wstate := fold_left wstep ps w0.

(** ** The two-pass reference *)

Definition mean (xs : list Q) : Q := Qsum xs / Qnat (length xs).

(** Sum of squared deviations from the mean. *)
Definition ssq (xs : list Q) : Q := Σ[x <- xs] ((x - mean xs) * (x - mean xs)).

(** Sum of co-deviations of paired values. *)
Definition cov (ps : list (Q * Q)) : Q :=
  let mx := mean (map fst ps) in
  let my := mean (map snd ps) in
  Σ[p <- ps] ((fst p - mx) * (snd p - my)).

(** ** Lemmas *)

Lemma Qnat_S n : Qnat (S n) == Qnat n + 1.
Proof. unfold Qnat. rewrite Nat2Z.inj_succ, <- Z.add_1_r, inject_Z_plus. reflexivity. Qed.

Lemma Qnat_nonneg n : 0 <= Qnat n.
Proof. unfold Qnat. change 0 with (inject_Z 0). rewrite <- Zle_Qle. lia. Qed.

Lemma Qnat_pos n : (0 < n)%nat -> 0 < Qnat n.
Proof. intros H. unfold Qnat. change 0 with (inject_Z 0). rewrite <- Zlt_Qlt. lia. Qed.

Lemma Qnat_le a b : (a <= b)%nat -> Qnat a <= Qnat b.
Proof. intros H. unfold Qnat. rewrite <- Zle_Qle. lia. Qed.

#[export] Hint Resolve Qnat_nonneg Qnat_pos Qnat_le : eda.

Lemma welford_snoc ps p : welford (ps ++ [p]) = wstep (welford ps) p.
Proof. unfold welford. now rewrite fold_left_app. Qed.

Section Sums.
Context {A : Type}.

(** Expanding a sum of products of deviations from constants. *)
Lemma Qsum_dev_expand (f g : A -> Q) (a b : Q) (l : list A) :
  Σ[x <- l] ((f x - a) * (g x - b)) ==
  Σ[x <- l] (f x * g x) - b * Σ[x <- l] (f x) - a * Σ[x <- l] (g x)
  + Qnat (length l) * a * b.
Proof.
  induction l as [|x l IH]; [simpl; unfold Qnat; simpl; ring|].
  cbn [map length]. rewrite !Qsum_cons, IH, Qnat_S. ring.
Qed.

(** The square of a weighted difference, summed. *)
Lemma Qsum_sq_combination (f g : A -> Q) (c d : Q) (l : list A) :
  Σ[x <- l] ((c * g x - d * f x) * (c * g x - d * f x)) ==
  c * c * Σ[x <- l] (g x * g x) - 2 * c * d * Σ[x <- l] (f x * g x)
  + d * d * Σ[x <- l] (f x * f x).
Proof.
  induction l as [|x l IH]; [simpl; ring|]. cbn [map]. rewrite !Qsum_cons, IH. ring.
Qed.

(** A sum of squares that vanishes has vanishing terms. *)
Lemma Qsum_sq_zero (f : A -> Q) (l : list A) :
  Σ[x <- l] (f x * f x) == 0 -> forall x, In x l -> f x == 0.
Proof.
  induction l as [|y l IH]; simpl; [tauto|]. intros H x [<-|Hx].
  - assert (0 <= Σ[x <- l] (f x * f x)) by auto with eda.
    assert (Hsq : f y * f y == 0) by nra.
    apply Qmult_integral in Hsq as [|]; assumption.
  - apply IH; [|exact Hx].
    assert (0 <= Σ[x <- l] (f x * f x)) by auto with eda. nra.
Qed.

(** Cauchy-Schwarz for finite sums. *)
Lemma Qsum_cauchy_schwarz (f g : A -> Q) (l : list A) :
  Σ[x <- l] (f x * g x) * Σ[x <- l] (f x * g x) <=
  Σ[x <- l] (f x * f x) * Σ[x <- l] (g x * g x).
Proof.
  set (Sa := Σ[x <- l] (f x * f x)). set (Sb := Σ[x <- l] (g x * g x)).
  set (S := Σ[x <- l] (f x * g x)).
  assert (HA : 0 <= Sa) by apply Qsum_squares_nonneg.
  assert (HB : 0 <= Sb) by apply Qsum_squares_nonneg.
  destruct (Qeq_dec Sa 0) as [H0|Hne].
  - assert (HS : S == 0).
    { unfold S. rewrite (Qsum_map_ext _ (fun _ => 0)).
      - rewrite Qsum_map_const. ring.
      - intros x Hx. rewrite (Qsum_sq_zero f l H0 x Hx). ring. }
    rewrite HS, H0. lra.
  - assert (Hpos : 0 < Sa) by (apply Qle_lteq in HA as [|H]; [assumption|symmetry in H; contradiction]).
    assert (Hcomb := Qsum_sq_combination f g Sa S l). fold Sa Sb S in Hcomb.
    assert (Hnn : 0 <= Σ[x <- l] ((Sa * g x - S * f x) * (Sa * g x - S * f x)))
      by auto with eda.
    rewrite Hcomb in Hnn. nra.
Qed.

End Sums.

(** ** Welford computes the two-pass moments *)

Definition sum_x (ps : list (Q * Q)) : Q := Σ[p <- ps] (fst p).
Definition sum_y (ps : list (Q * Q)) : Q := Σ[p <- ps] (snd p).
Definition sum_xx (ps : list (Q * Q)) : Q := Σ[p <- ps] (fst p * fst p).
Definition sum_yy (ps : list (Q * Q)) : Q := Σ[p <- ps] (snd p * snd p).
Definition sum_xy (ps : list (Q * Q)) : Q := Σ[p <- ps] (fst p * snd p).

(** The closed form of the loop state after the pairs [ps]. *)
Definition closed (s : wstate) (ps : list (Q * Q)) : Prop :=
  let n := Qnat (length ps) in
  nobs s = length ps /\
  meanx s == sum_x ps / n /\ meany s == sum_y ps / n /\
  ssqdmx s == sum_xx ps - sum_x ps * sum_x ps / n /\
  ssqdmy s == sum_yy ps - sum_y ps * sum_y ps / n /\
  covxy s == sum_xy ps - sum_x ps * sum_y ps / n.

Lemma sums_snoc ps vx vy :
  sum_x (ps ++ [(vx, vy)]) == sum_x ps + vx /\ sum_y (ps ++ [(vx, vy)]) == sum_y ps + vy /\
  sum_xx (ps ++ [(vx, vy)]) == sum_xx ps + vx * vx /\
  sum_yy (ps ++ [(vx, vy)]) == sum_yy ps + vy * vy /\
  sum_xy (ps ++ [(vx, vy)]) == sum_xy ps + vx * vy.
Proof.
  unfold sum_x, sum_y, sum_xx, sum_yy, sum_xy.
  split_and; rewrite map_app; autorewrite with eda_sum; simpl; ring.
Qed.

Lemma wstep_w0_closed p : closed (wstep w0 p) [p].
Proof.
  destruct p as [vx vy]. unfold closed, wstep, sum_x, sum_y, sum_xx, sum_yy, sum_xy, Qnat.
  simpl. split_and; [reflexivity|field..].
Qed.

(** One loop iteration preserves the closed form. *)
Lemma wstep_closed s ps p :
  ps <> [] -> closed s ps -> closed (wstep s p) (ps ++ [p]).
Proof.
  intros Hne (Hn & Hmx & Hmy & Hsx & Hsy & Hc). destruct p as [vx vy].
  destruct (sums_snoc ps vx vy) as (Ex & Ey & Exx & Eyy & Exy).
  assert (Hpos : 0 < Qnat (length ps)) by (apply Qnat_pos; destruct ps; [contradiction|simpl; lia]).
  unfold closed, wstep. cbn [nobs meanx meany ssqdmx ssqdmy covxy].
  rewrite length_app, Nat.add_1_r, Hn, Ex, Ey, Exx, Eyy, Exy, Qnat_S, Hmx, Hmy, Hsx, Hsy, Hc.
  split_and; [reflexivity|field; split; lra ..].
Qed.

Lemma welford_closed ps : ps <> [] -> closed (welford ps) ps.
Proof.
  induction ps as [|p ps IH] using rev_ind; [contradiction|]. intros _.
  rewrite welford_snoc. destruct ps as [|p0 ps0].
  - apply wstep_w0_closed.
  - apply wstep_closed; [discriminate|]. apply IH. discriminate.
Qed.

Lemma ssq_closed xs :
  xs <> [] -> ssq xs == Σ[x <- xs] (x * x) - Qsum xs * Qsum xs / Qnat (length xs).
Proof.
  intros Hne. assert (Hpos : 0 < Qnat (length xs)) by (apply Qnat_pos; destruct xs; [contradiction|simpl; lia]).
  unfold ssq, mean. rewrite (Qsum_dev_expand (fun x => x) (fun x => x)).
  cbv beta. rewrite map_id.
  set (n := Qnat (length xs)) in *. set (a := Qsum xs). set (c := Σ[x <- xs] (x * x)).
  field. lra.
Qed.

Lemma cov_closed ps :
  ps <> [] -> cov ps == sum_xy ps - sum_x ps * sum_y ps / Qnat (length ps).
Proof.
  intros Hne. assert (Hpos : 0 < Qnat (length ps)) by (apply Qnat_pos; destruct ps; [contradiction|simpl; lia]).
  unfold cov, mean, sum_xy, sum_x, sum_y. rewrite !length_map.
  rewrite (Qsum_dev_expand fst snd).
  set (n := Qnat (length ps)) in *. set (a := Σ[p <- ps] (fst p)). set (b := Σ[p <- ps] (snd p)).
  set (c := Σ[p <- ps] (fst p * snd p)). field. lra.
Qed.

(** ** Properties *)

(** Welford's loop ends with the two-pass moments. *)
Lemma welford_moments ps :
  nobs (welford ps) = length ps /\
  ssqdmx (welford ps) == ssq (map fst ps) /\
  ssqdmy (welford ps) == ssq (map snd ps) /\
  covxy (welford ps) == cov ps.
Proof.
  destruct ps as [|p ps]; [split_and; reflexivity|].
  assert (Hne : p :: ps <> []) by discriminate.
  destruct (welford_closed _ Hne) as (Hn & _ & _ & Hx & Hy & Hc).
  split_and; [exact Hn | | | rewrite Hc; symmetry; exact (cov_closed _ Hne)].
  - rewrite Hx, ssq_closed by (simpl; discriminate).
    rewrite map_map, length_map. reflexivity.
  - rewrite Hy, ssq_closed by (simpl; discriminate).
    rewrite map_map, length_map. reflexivity.
Qed.

(** C9. Equivalence of the optimised routine with its reference: after
    the pairs [ps], Welford's loop holds the count, the two sums of
    squared deviations and the co-deviation sum of the two-pass
    formulas, exactly. *)
Theorem welford_two_pass ps :
  nobs (welford ps) = length ps /\
  ssqdmx (welford ps) == ssq (map fst ps) /\
  ssqdmy (welford ps) == ssq (map snd ps) /\
  covxy (welford ps) == cov ps.
Proof. exact (welford_moments ps). Qed.

Lemma ssq_as_dev (ps : list (Q * Q)) (m : Q) :
  m = mean (map fst ps) ->
  ssq (map fst ps) = Σ[p <- ps] ((fst p - m) * (fst p - m)).
Proof. intros ->. unfold ssq. now rewrite map_map. Qed.

Lemma ssq_as_dev_snd (ps : list (Q * Q)) (m : Q) :
  m = mean (map snd ps) ->
  ssq (map snd ps) = Σ[p <- ps] ((snd p - m) * (snd p - m)).
Proof. intros ->. unfold ssq. now rewrite map_map. Qed.

(** The Cauchy-Schwarz bound on Welford's final moments. *)
Lemma welford_cs ps :
  covxy (welford ps) * covxy (welford ps) <= ssqdmx (welford ps) * ssqdmy (welford ps).
Proof.
  destruct (welford_moments ps) as (_ & Hx & Hy & Hc). rewrite Hx, Hy, Hc.
  rewrite (ssq_as_dev ps _ eq_refl), (ssq_as_dev_snd ps _ eq_refl).
  unfold cov. apply (Qsum_cauchy_schwarz (fun p => fst p - mean (map fst ps))
                                          (fun p => snd p - mean (map snd ps))).
Qed.

End Moments.
