(* ===== verification/Corr.v ===== *)
(** * The correlation matrix

    [src/app.py] line 87: [corr = df[numeric_cols].corr()].  pandas
    converts the selected columns to a float matrix and calls [nancorr]
    with [minp = 1]: for [xi] in [0..K-1] and [yi] in [0..xi] it runs
    Welford's loop ([Moments.welford]) over the rows where both columns
    are present, and stores [covxy / sqrt(ssqdmx * ssqdmy)] at [(xi, yi)]
    and at [(yi, xi)], or NaN when fewer than [minp] rows are complete or
    the divisor is zero.  A coefficient is kept exactly as the pair
    [Corr num den], standing for [num / sqrt den], so that no square root
    is needed in Q. *)

From Stdlib Require Import String.
From Stdlib Require Import QArith Lqa List Bool Lia PeanoNat Morphisms Setoid.
From S2P Require Import Prelude Cell Frame Filter Moments.
Import ListNotations.
Import Cell Frame Filter Moments.

Module Corr.

(** The pairwise-complete observations of two aligned columns: the rows
    where both cells are numbers ([mask[i, xi] and mask[i, yi]]). *)
Fixpoint complete_pairs (x y : list cell) : list (Q * Q) :=
  match x, y with
  | CNum a :: x', CNum b :: y' => (a, b) :: complete_pairs x' y'
  | _ :: x', _ :: y' => complete_pairs x' y'
  | _, _ => []
  end.

(** A coefficient: NaN, or [num / sqrt den]. *)
Inductive corr_val :=
| CorrNaN
| Corr (num den : Q).

(** [DataFrame.corr]'s default [min_periods=1]. *)
Definition minp : nat := 1.

(** The end of one pair's computation:
    [if nobs < minp: NaN; else divisor = sqrt(ssqdmx * ssqdmy);
     covxy / divisor if divisor != 0 else NaN]. *)
Definition corr_result (s : wstate) : corr_val :=
  if Nat.ltb (nobs s) minp then CorrNaN
  else let den := ssqdmx s * ssqdmy s in
       if Qeq_bool den 0 then CorrNaN else Corr (covxy s) den.

Definition nancorr_pair (x y : list cell) : corr_val :=
  corr_result (welford (complete_pairs x y)).

(** [nancorr]: the lower triangle computed, each value stored at both
    [(xi, yi)] and [(yi, xi)]. *)
Definition nancorr (cols : list (list cell)) : list (list corr_val) :=
  let K := length cols in
  map (fun xi =>
         map (fun yi =>
                if yi <=? xi then nancorr_pair (nth xi cols []) (nth yi cols [])
                else nancorr_pair (nth yi cols []) (nth xi cols []))
             (seq 0 K))
      (seq 0 K).

(** [df[numeric_cols].corr()]: the labels and the matrix; [None] would be
    a KeyError of the column selection. *)
Definition corr (f : frame) : option (list string * list (list corr_val)) :=
  match select f (numeric_cols f) with
  | Some g => Some (map fst (columns g), nancorr (map snd (columns g)))
  | None => None
  end.

(** The entry [(i, j)] of a matrix. *)
Definition entry (M : list (list corr_val)) (i j : nat) : corr_val :=
  nth j (nth i M []) CorrNaN.

(** ** Equality of coefficients up to [Qeq] *)

Definition corr_equiv (a b : corr_val) : Prop :=
  match a, b with
  | CorrNaN, CorrNaN => True
  | Corr n d, Corr n' d' => n == n' /\ d == d'
  | _, _ => False
  end.

#[export] Instance corr_equiv_Equivalence : Equivalence corr_equiv.
Proof.
  split.
  - intros [|n d]; simpl; split; reflexivity.
  - intros [|n d] [|n' d']; simpl; try tauto. intros [H1 H2]; split; now symmetry.
  - intros [|n d] [|n' d'] [|n'' d'']; simpl; try tauto.
    intros [H1 H2] [H3 H4]; split; etransitivity; eauto.
Qed.

#[export] Instance Corr_Proper : Proper (Qeq ==> Qeq ==> corr_equiv) Corr.
Proof. intros n n' Hn d d' Hd. simpl. auto. Qed.

(** The reference the matrix is checked against: the two-pass Pearson
    coefficient [cov / sqrt (ssq x * ssq y)] of a list of observation
    pairs, NaN without observations or with a zero variance. *)
Definition pearson (ps : list (Q * Q)) : corr_val :=
  match ps with
  | [] => CorrNaN
  | _ :: _ =>
      let den := ssq (map fst ps) * ssq (map snd ps) in
      if Qeq_bool den 0 then CorrNaN else Corr (cov ps) den
  end.

(** ** Lemmas *)

Definition swap (p : Q * Q) : Q * Q := (snd p, fst p).

Lemma complete_pairs_swap x y : complete_pairs y x = map swap (complete_pairs x y).
Proof.
  revert y; induction x as [|c x IH]; intros [|d y];
    [reflexivity | destruct d; reflexivity | destruct c; reflexivity |].
  destruct c, d; simpl; rewrite IH; reflexivity.
Qed.

Lemma complete_pairs_diag c : complete_pairs c c = map (fun q => (q, q)) (nums c).
Proof. induction c as [|[] c IH]; simpl; congruence. Qed.

Lemma ssq_nonneg xs : 0 <= ssq xs.
Proof. unfold ssq. auto with eda. Qed.

#[export] Hint Resolve ssq_nonneg : eda.

Lemma ssq_nil : ssq [] == 0.
Proof. reflexivity. Qed.

(** Swapping the two columns swaps the two sums of squares and keeps the
    co-deviation sum. *)
Lemma welford_swap ps :
  nobs (welford (map swap ps)) = nobs (welford ps) /\
  ssqdmx (welford (map swap ps)) == ssqdmy (welford ps) /\
  ssqdmy (welford (map swap ps)) == ssqdmx (welford ps) /\
  covxy (welford (map swap ps)) == covxy (welford ps).
Proof.
  destruct (welford_moments ps) as (Hn & Hx & Hy & Hc).
  destruct (welford_moments (map swap ps)) as (Hn' & Hx' & Hy' & Hc').
  rewrite Hn', Hx', Hy', Hc', Hn, Hx, Hy, Hc, length_map.
  unfold swap. rewrite !map_map. cbn [fst snd].
  split_and; [reflexivity|reflexivity|reflexivity|].
  unfold cov. rewrite !map_map. cbn [fst snd].
  apply Qsum_map_ext. intros p _. simpl. rewrite Qmult_comm. reflexivity.
Qed.

(** The result only depends on the count, the product of the sums of
    squares and the co-deviation sum. *)
Lemma corr_result_equiv s s' :
  nobs s' = nobs s -> ssqdmx s' * ssqdmy s' == ssqdmx s * ssqdmy s ->
  covxy s' == covxy s -> corr_equiv (corr_result s') (corr_result s).
Proof.
  intros Hn Hd Hc. unfold corr_result. rewrite Hn.
  destruct (Nat.ltb (nobs s) minp); [reflexivity|].
  rewrite Hd. destruct (Qeq_bool (ssqdmx s * ssqdmy s) 0); [reflexivity|].
  simpl. auto.
Qed.

Lemma nancorr_pair_sym x y : corr_equiv (nancorr_pair y x) (nancorr_pair x y).
Proof.
  unfold nancorr_pair. rewrite complete_pairs_swap.
  destruct (welford_swap (complete_pairs x y)) as (Hn & Hx & Hy & Hc).
  apply corr_result_equiv; [exact Hn| |exact Hc]. rewrite Hx, Hy. ring.
Qed.

Lemma nth_map_seq {A} (f : nat -> A) K i d : (i < K)%nat -> nth i (map f (seq 0 K)) d = f i.
Proof.
  intros Hi. rewrite (nth_indep _ d (f 0%nat)) by (rewrite length_map, length_seq; lia).
  rewrite map_nth, seq_nth by lia. reflexivity.
Qed.

Lemma nancorr_entry cols i j :
  (i < length cols)%nat -> (j < length cols)%nat ->
  entry (nancorr cols) i j =
  if (j <=? i)%nat then nancorr_pair (nth i cols []) (nth j cols [])
  else nancorr_pair (nth j cols []) (nth i cols []).
Proof. intros Hi Hj. unfold entry, nancorr. rewrite !nth_map_seq by assumption. reflexivity. Qed.

(** The moments of a column paired with itself are all its sum of
    squared deviations. *)
Lemma diag_moments c :
  let s := welford (complete_pairs c c) in
  nobs s = length (nums c) /\ ssqdmx s == ssq (nums c) /\
  ssqdmy s == ssq (nums c) /\ covxy s == ssq (nums c).
Proof.
  rewrite complete_pairs_diag. cbn zeta.
  destruct (welford_moments (map (fun q => (q, q)) (nums c))) as (Hn & Hx & Hy & Hc).
  rewrite Hn, Hx, Hy, Hc, length_map, !map_map. cbn [fst snd]. rewrite map_id.
  split_and; try reflexivity. unfold cov, ssq. rewrite !map_map. cbn [fst snd]. rewrite !map_id. reflexivity.
Qed.

(** A coefficient that is a number has a positive divisor and lies in
    [-1, 1]. *)
Lemma corr_result_bound ps n d :
  corr_result (welford ps) = Corr n d -> 0 < d /\ n * n <= d.
Proof.
  unfold corr_result. destruct (Nat.ltb _ minp); [discriminate|].
  destruct (Qeq_bool _ 0) eqn:E; [discriminate|]. intros [= <- <-].
  destruct (welford_moments ps) as (_ & Hx & Hy & _).
  assert (0 <= ssqdmx (welford ps) * ssqdmy (welford ps)).
  { rewrite Hx, Hy. apply Qmult_le_0_compat; auto with eda. }
  apply Qeq_bool_neq in E. split; [|apply welford_cs].
  apply Qle_lteq in H as [H|H]; [exact H|]. symmetry in H. contradiction.
Qed.

(** A diagonal coefficient that is a number is [n / sqrt (n * n)] with
    [n > 0]. *)
Lemma diag_corr_val cols i n d :
  (i < length cols)%nat -> entry (nancorr cols) i i = Corr n d -> d == n * n /\ 0 < n.
Proof.
  intros Hi. rewrite nancorr_entry, Nat.leb_refl by assumption.
  set (c := nth i cols []). unfold nancorr_pair, corr_result.
  destruct (diag_moments c) as (Hn & Hx & Hy & Hc). cbn zeta in *.
  assert (Hv := ssq_nonneg (nums c)).
  destruct (Nat.ltb _ minp); [discriminate|].
  destruct (Qeq_bool _ 0) eqn:E; [discriminate|]. intros [= <- <-].
  apply Qeq_bool_neq in E. rewrite Hx, Hy, Hc in *. split; [reflexivity|].
  apply Qle_lteq in Hv as [Hv|Hv]; [exact Hv|]. rewrite <- Hv in E. now contradict E.
Qed.

(** A diagonal coefficient is a number when the column's values have
    nonzero variance. *)
Lemma diag_corr_some cols i :
  (i < length cols)%nat -> ~ ssq (nums (nth i cols [])) == 0 ->
  exists n d, entry (nancorr cols) i i = Corr n d.
Proof.
  intros Hi Hne. rewrite nancorr_entry, Nat.leb_refl by assumption.
  set (c := nth i cols []) in *. unfold nancorr_pair, corr_result.
  destruct (diag_moments c) as (Hn & Hx & Hy & Hc). cbn zeta in *. rewrite Hn.
  destruct (nums c) as [|q qs] eqn:Enums; [contradict Hne; reflexivity|].
  cbn [length Nat.ltb minp Nat.leb].
  destruct (Qeq_bool _ 0) eqn:E; [|eauto].
  apply Qeq_bool_eq in E. rewrite Hx, Hy in E.
  apply Qmult_integral in E as [E|E]; contradiction.
Qed.

Lemma Qeq_bool_compat x y z : x == y -> Qeq_bool x z = Qeq_bool y z.
Proof.
  intros Hxy. destruct (Qeq_bool y z) eqn:E.
  - apply Qeq_bool_iff. apply Qeq_bool_iff in E. now rewrite Hxy.
  - apply Qeq_bool_neq in E. destruct (Qeq_bool x z) eqn:E'; [|reflexivity].
    apply Qeq_bool_iff in E'. rewrite Hxy in E'. contradiction.
Qed.

(** One pair's Welford computation gives the two-pass Pearson
    coefficient of the pairwise-complete rows, NaN in the same cases. *)
Lemma nancorr_pair_pearson x y :
  corr_equiv (nancorr_pair x y) (pearson (complete_pairs x y)).
Proof.
  unfold nancorr_pair, corr_result. set (ps := complete_pairs x y).
  destruct (welford_moments ps) as (Hn & Hx & Hy & Hc). rewrite Hn.
  destruct ps as [|p ps']; [reflexivity|]. cbn [length minp Nat.ltb Nat.leb pearson].
  assert (Hd : ssqdmx (welford (p :: ps')) * ssqdmy (welford (p :: ps')) ==
               ssq (map fst (p :: ps')) * ssq (map snd (p :: ps'))) by (rewrite Hx, Hy; reflexivity).
  rewrite (Qeq_bool_compat _ _ 0 Hd).
  destruct (Qeq_bool _ 0); [reflexivity|]. simpl. split; assumption.
Qed.

(** ** Properties *)

(** C11. The matrix is symmetric, and the mirrored triangle is sound:
    every entry [(i, j)] equals, up to [Qeq], the coefficient computed
    with column [i] as [x] and column [j] as [y]. *)
Theorem nancorr_symmetric cols i j :
  (i < length cols)%nat -> (j < length cols)%nat ->
  entry (nancorr cols) i j = entry (nancorr cols) j i /\
  corr_equiv (entry (nancorr cols) i j) (nancorr_pair (nth i cols []) (nth j cols [])).
Proof.
  intros Hi Hj. rewrite !nancorr_entry by assumption.
  destruct (Nat.leb_spec j i), (Nat.leb_spec i j).
  - assert (i = j) as -> by lia. split; reflexivity.
  - split; reflexivity.
  - split; [reflexivity|apply nancorr_pair_sym].
  - lia.
Qed.

(** C12. Unit diagonal: a diagonal entry that is a number is
    [n / sqrt (n * n)] with [n > 0], that is 1; and it is a number
    whenever the column's values have nonzero variance. *)
Theorem nancorr_diag cols i :
  (i < length cols)%nat ->
  (forall n d, entry (nancorr cols) i i = Corr n d -> d == n * n /\ 0 < n) /\
  (~ ssq (nums (nth i cols [])) == 0 -> exists n d, entry (nancorr cols) i i = Corr n d).
Proof.
  intros Hi. split; [intros n d; now apply diag_corr_val | now apply diag_corr_some].
Qed.

(** C13. Bounds: every coefficient of the matrix that is a number has a
    positive divisor and satisfies [num^2 <= den], so it lies in
    [-1, 1]. *)
Theorem nancorr_bound cols i j n d :
  (i < length cols)%nat -> (j < length cols)%nat ->
  entry (nancorr cols) i j = Corr n d -> 0 < d /\ n * n <= d.
Proof.
  intros Hi Hj. rewrite nancorr_entry by assumption.
  destruct (j <=? i)%nat; apply corr_result_bound.
Qed.

(** [df[numeric_cols]] selects the numeric columns themselves, so the
    matrix is [nancorr] of their cells. *)
Lemma corr_select f :
  wf f ->
  corr f = Some (numeric_cols f,
                 nancorr (map snd (filter (fun nc => is_number (infer_dtype (snd nc)))
                                          (columns f)))).
Proof.
  intros (_ & Hnd & _). unfold corr, select, numeric_cols.
  rewrite select_cols_sub; [reflexivity|exact Hnd|].
  intros nc Hin. now apply filter_In in Hin.
Qed.

(** With no numeric column the matrix is empty. *)
Lemma corr_empty f : wf f -> numeric_cols f = [] -> corr f = Some ([], []).
Proof.
  intros Hwf Hnil. rewrite (corr_select f Hwf), Hnil. unfold numeric_cols in Hnil.
  apply map_eq_nil in Hnil. rewrite Hnil. reflexivity.
Qed.


(** ** Witnesses *)

(** C30. Refinement of the spec's [correlate]: every entry [(i, j)] of
    the matrix is, up to [Qeq], the two-pass Pearson coefficient of the
    rows where both columns [i] and [j] are present, and NaN exactly when
    there is no such row or one of the two variances is zero. *)
Theorem nancorr_pearson cols i j :
  (i < length cols)%nat -> (j < length cols)%nat ->
  corr_equiv (entry (nancorr cols) i j)
             (pearson (complete_pairs (nth i cols []) (nth j cols []))).
Proof.
  intros Hi Hj. rewrite nancorr_entry by assumption.
  destruct (j <=? i)%nat; [apply nancorr_pair_pearson|].
  rewrite nancorr_pair_sym. apply nancorr_pair_pearson.
Qed.

Definition example_cols : list (list cell) :=
  [[CNum 1; CNum 2; CNum 3; CNum 4; CNum 5]; [CNum 10; CNA; CNum 30; CNum 40; CNum 50]].

Lemma nancorr_symmetric_witness :
  entry (nancorr example_cols) 0 1 = entry (nancorr example_cols) 1 0 /\
  corr_equiv (entry (nancorr example_cols) 0 1)
             (nancorr_pair (nth 0 example_cols []) (nth 1 example_cols [])).
Proof. apply nancorr_symmetric; simpl; lia. Defined.

Lemma nancorr_diag_witness :
  (forall n d, entry (nancorr example_cols) 1 1 = Corr n d -> d == n * n /\ 0 < n) /\
  (~ ssq (nums (nth 1 example_cols [])) == 0 ->
   exists n d, entry (nancorr example_cols) 1 1 = Corr n d).
Proof. apply nancorr_diag. simpl. lia. Defined.

Lemma nancorr_bound_witness :
  exists n d, entry (nancorr example_cols) 1 0 = Corr n d /\ 0 < d /\ n * n <= d.
Proof.
  eexists; eexists; split; [vm_compute; reflexivity|].
  apply (nancorr_bound example_cols 1 0); [simpl; lia | simpl; lia | vm_compute; reflexivity].
Defined.

Lemma nancorr_pearson_witness :
  corr_equiv (entry (nancorr example_cols) 0 1)
             (pearson (complete_pairs (nth 0 example_cols []) (nth 1 example_cols []))).
Proof. apply nancorr_pearson; simpl; lia. Defined.


End Corr.
