(* ===== verification/CorrReal.v ===== *)
(** * The correlation coefficients as real numbers

    [Corr] keeps a coefficient as the exact pair [Corr num den]; the
    value pandas stores in the matrix rendered at [src/app.py] line 88 is
    [covxy / sqrt(ssqdmx * ssqdmy)].  This file reads the pair as that
    real number, [Q2R num / sqrt (Q2R den)], and proves of the matrix the
    two facts a heatmap of correlations relies on: every coefficient is in
    [-1, 1], and the diagonal is exactly 1 where it is a number. *)

From Stdlib Require Import QArith Reals Qreals Lra Lia List.
From S2P Require Import Prelude Cell Moments Corr.
Import ListNotations.
Import Cell Moments Corr.

Module CorrReal.

Local Open Scope R_scope.

(** The value of a matrix entry: [covxy / divisor], [None] for NaN. *)
Definition coef (v : corr_val) : option R :=
  match v with
  | CorrNaN => None
  | Corr num den => Some (Q2R num / sqrt (Q2R den))
  end.

(** ** Lemmas *)

(** [n^2 <= d] with [d > 0] puts [n / sqrt d] in [-1, 1]. *)
Lemma div_sqrt_bound (n d : R) : 0 < d -> n * n <= d -> -1 <= n / sqrt d <= 1.
Proof.
  intros Hd Hnd. set (r := sqrt d).
  assert (Hr : 0 < r) by now apply sqrt_lt_R0.
  assert (Hrr : r * r = d) by now apply sqrt_sqrt, Rlt_le.
  set (x := n / r). assert (Hx : n = x * r) by (unfold x; field; lra).
  clearbody x r. subst n d.
  assert (Hxx : x * x <= 1).
  { apply (Rmult_le_reg_r (r * r)); [nra|]. nra. }
  split; nra.
Qed.

(** [n / sqrt (n * n)] is 1 for [n > 0]. *)
Lemma div_sqrt_square (n : R) : 0 < n -> n / sqrt (n * n) = 1.
Proof. intros Hn. rewrite sqrt_square by lra. field. lra. Qed.

Lemma Q2R_zero : Q2R 0 = 0.
Proof. unfold Q2R. simpl. field. Qed.

Lemma Q2R_pos q : (0 < q)%Q -> 0 < Q2R q.
Proof. intros H. rewrite <- Q2R_zero. now apply Qlt_Rlt. Qed.

Lemma coef_corr_bound n d : (0 < d)%Q -> (n * n <= d)%Q -> -1 <= Q2R n / sqrt (Q2R d) <= 1.
Proof.
  intros Hd Hnd. apply div_sqrt_bound.
  - now apply Q2R_pos.
  - rewrite <- Q2R_mult. now apply Qle_Rle.
Qed.

(** ** Properties *)

(** C26. Every coefficient of the correlation matrix that is a number,
    read as the real [covxy / sqrt(ssqdmx * ssqdmy)] pandas stores, lies
    in [-1, 1]. *)
Theorem corr_coef_bound cols i j r :
  (i < length cols)%nat -> (j < length cols)%nat ->
  coef (entry (nancorr cols) i j) = Some r -> -1 <= r <= 1.
Proof.
  intros Hi Hj. rewrite nancorr_entry by assumption.
  destruct (j <=? i)%nat;
    match goal with |- coef ?v = _ -> _ => destruct v as [|n d] eqn:E end;
    intros [= <-]; apply corr_result_bound in E as [Hd Hnd]; now apply coef_corr_bound.
Qed.

(** C27. The diagonal of the correlation matrix is exactly 1 wherever it
    is a number, and it is a number whenever the column's values have
    nonzero variance. *)
Theorem corr_coef_diag cols i :
  (i < length cols)%nat ->
  (forall r, coef (entry (nancorr cols) i i) = Some r -> r = 1) /\
  (~ (ssq (nums (nth i cols [])) == 0)%Q -> coef (entry (nancorr cols) i i) = Some 1).
Proof.
  intros Hi.
  assert (Hone : forall n d, entry (nancorr cols) i i = Corr n d ->
                 Q2R n / sqrt (Q2R d) = 1).
  { intros n d E. apply diag_corr_val in E as [Hd Hn]; [|exact Hi].
    rewrite (Qeq_eqR _ _ Hd), Q2R_mult. apply div_sqrt_square.
    now apply Q2R_pos. }
  split.
  - intros r. destruct (entry (nancorr cols) i i) as [|n d] eqn:E in |- *; [discriminate|].
    intros [= <-]. exact (Hone n d E).
  - intros Hne. destruct (diag_corr_some cols i Hi Hne) as (n & d & E).
    specialize (Hone n d E). rewrite E. cbn. now rewrite Hone.
Qed.

(** ** Witnesses *)

Lemma corr_coef_bound_witness :
  exists r, coef (entry (nancorr example_cols) 1 0) = Some r /\ -1 <= r <= 1.
Proof.
  assert (E : entry (nancorr example_cols) 1 0 = Corr (29030400 # 331776) (842764124160000 # 110075314176))
    by (vm_compute; reflexivity).
  eexists. split; [rewrite E; reflexivity|].
  apply (corr_coef_bound example_cols 1 0); [simpl; lia | simpl; lia | rewrite E; reflexivity].
Defined.

Lemma corr_coef_diag_witness :
  (forall r, coef (entry (nancorr example_cols) 0 0) = Some r -> r = 1) /\
  (~ (ssq (nums (nth 0 example_cols [])) == 0)%Q ->
   coef (entry (nancorr example_cols) 0 0) = Some 1).
Proof. apply corr_coef_diag. simpl. lia. Defined.

End CorrReal.
