(* ===== verification/Stats.v ===== *)
(** * Summary statistics: [df.describe()]

    [src/app.py] line 40.  When the frame has a numeric column, pandas
    describes the numeric columns only: count, mean, std (ddof = 1),
    min, the 25%, 50% and 75% quantiles (numpy's linear interpolation
    between the sorted values) and max.  Otherwise it describes every
    column as categorical: count, unique, top and freq.  A frame with no
    column raises.  The standard deviation is kept as its square, the
    variance [ssq / (count - 1)], so that everything stays in Q. *)

From Stdlib Require Import String.
From Stdlib Require Import QArith Qminmax Lqa List Bool Lia PeanoNat.
From Stdlib Require Import Sorted Permutation Mergesort Orders EquivDec.
From S2P Require Import Prelude Cell Frame Filter Moments Corr.
Import ListNotations.
Import Cell Frame Filter Moments Corr.

(** Sorting values with the standard library's merge sort; numpy sorts
    with another algorithm, which yields the same sorted list. *)
Module QLeBool <: Orders.TotalLeBool.
Definition t := Q.
Definition leb := Qle_bool.
Lemma leb_total : forall x y, leb x y = true \/ leb y x = true.
Proof.
  intros x y. unfold leb. rewrite !Qle_bool_iff.
  destruct (Qlt_le_dec x y); [left; lra | right; lra].
Qed.
End QLeBool.

Module QSort := Sort QLeBool.

Module Stats.

(** ** Numeric columns *)

(** [series.count()]: the present cells. *)
Definition count (col : list cell) : nat := countb (fun c => negb (isnull c)) col.

(** [series.mean()]: NaN without a value. *)
Definition smean (col : list cell) : flt :=
  match nums col with
  | [] => NaN
  | xs => Fin (mean xs)
  end.

(** [series.std() ** 2]: [nanvar] with [ddof = 1], two-pass, NaN with
    fewer than two values. *)
Definition svar (col : list cell) : flt :=
  let xs := nums col in
  if (length xs <=? 1)%nat then NaN else Fin (ssq xs / Qnat (length xs - 1)).

(** numpy's [_lerp(a, b, t)]: [a + (b - a) * t] (the variant it uses for
    [t >= 0.5] is equal in exact arithmetic). *)
Definition lerp (a b t : Q) : Q := a + (b - a) * t.

(** The quantile [k/4] of the sorted values [v], method "linear": the
    virtual index [(n - 1) * k / 4], its floor [i], the fraction [g], and
    the next index clipped to the last one. *)
Definition quantile4 (v : list Q) (k : nat) : Q :=
  let n := length v in
  let pos := ((n - 1) * k)%nat in
  let i := (pos / 4)%nat in
  let g := Qnat (pos mod 4) * (1 # 4) in
  lerp (nth i v 0) (nth (Nat.min (i + 1) (n - 1)) v 0) g.

(** [series.quantile(k/4)]: NaN without a value. *)
Definition squantile (col : list cell) (k : nat) : flt :=
  match QSort.sort (nums col) with
  | [] => NaN
  | v => Fin (quantile4 v k)
  end.

(** One column of the numeric description. *)
Record num_desc := mkNumDesc {
  d_count : nat;
  d_mean : flt;
  d_var : flt;
  d_min : flt;
  d_q25 : flt;
  d_q50 : flt;
  d_q75 : flt;
  d_max : flt
}.

(** [describe_numeric_1d]. *)
Definition describe_numeric (col : list cell) : num_desc :=
  mkNumDesc (count col) (smean col) (svar col) (series_min col)
            (squantile col 1) (squantile col 2) (squantile col 3) (series_max col).

(** ** Categorical columns *)

(** [value_counts()] before its sort: the distinct present values in
    order of first appearance, with their counts. *)
Fixpoint distinct (l : list cell) : list cell :=
  match l with
  | [] => []
  | c :: l' => c :: filter (fun d => if cell_eq_dec c d then false else true) (distinct l')
  end.

Definition occurrences (c : cell) (col : list cell) : nat :=
  countb (fun d => if cell_eq_dec c d then true else false) col.

Definition value_counts (col : list cell) : list (cell * nat) :=
  map (fun c => (c, occurrences c col)) (distinct (filter (fun c => negb (isnull c)) col)).

(** The most frequent value and its count, the first one of highest count
    in order of appearance (pandas' sort of [value_counts] decides ties;
    the count [freq] does not depend on it). *)
Fixpoint top_freq (vc : list (cell * nat)) : option (cell * nat) :=
  match vc with
  | [] => None
  | (c, k) :: vc' =>
      match top_freq vc' with
      | Some (c', k') => if (k <? k')%nat then Some (c', k') else Some (c, k)
      | None => Some (c, k)
      end
  end.

Record cat_desc := mkCatDesc {
  c_count : nat;
  c_unique : nat;
  c_top : option (cell * nat)
}.

(** [describe_categorical_1d]. *)
Definition describe_categorical (col : list cell) : cat_desc :=
  let vc := value_counts col in
  mkCatDesc (count col) (length vc) (top_freq vc).

(** ** The frame *)

Inductive description :=
| DescNumeric (cols : list (string * num_desc))
| DescCategorical (cols : list (string * cat_desc)).

(** [df.describe()]: the numeric columns when there is one, otherwise
    every column; [None] is the ValueError of a frame without columns. *)
Definition describe (f : frame) : option description :=
  match columns f with
  | [] => None
  | cols =>
      match filter (fun nc => is_number (infer_dtype (snd nc))) cols with
      | [] => Some (DescCategorical (map (fun nc => (fst nc, describe_categorical (snd nc))) cols))
      | ncs => Some (DescNumeric (map (fun nc => (fst nc, describe_numeric (snd nc))) ncs))
      end
  end.

(** ** Lemmas on sorted values and quantiles *)

Lemma sort_sorted l : StronglySorted Qle (QSort.sort l).
Proof.
  assert (H : StronglySorted (fun x y => is_true (Qle_bool x y)) (QSort.sort l)).
  { apply QSort.StronglySorted_sort. intros x y z Hxy Hyz. unfold is_true in *.
    rewrite Qle_bool_iff in *. eapply Qle_trans; eauto. }
  induction H as [|x v _ IH Hall]; constructor; [exact IH|].
  eapply Forall_impl; [|exact Hall]. intros y Hy. now apply Qle_bool_iff.
Qed.

Lemma sort_In x l : In x (QSort.sort l) <-> In x l.
Proof. split; apply Permutation_in; [symmetry|]; apply QSort.Permuted_sort. Qed.

Lemma sort_length l : length (QSort.sort l) = length l.
Proof. symmetry. apply Permutation_length, QSort.Permuted_sort. Qed.

(** In a sorted list, a later position holds a larger value. *)
Lemma sorted_nth_le v i j :
  StronglySorted Qle v -> (i <= j)%nat -> (j < length v)%nat -> nth i v 0 <= nth j v 0.
Proof.
  intros Hs. revert i j; induction Hs as [|x v Hs IH Hall]; intros i j Hij Hj;
    simpl in *; [lia|].
  destruct i as [|i], j as [|j]; [apply Qle_refl | | lia | apply IH; lia].
  rewrite Forall_forall in Hall. apply Hall, nth_In. lia.
Qed.

Section Quantile.
Variable v : list Q.
Hypothesis Hsorted : StronglySorted Qle v.
Hypothesis Hne : v <> [].

Let n := length v.
Let idx (k : nat) : nat := (((n - 1) * k) / 4)%nat.
Let nxt (k : nat) : nat := Nat.min (idx k + 1) (n - 1).

Lemma n_pos : (0 < n)%nat.
Proof. unfold n. destruct v; [contradiction|simpl; lia]. Qed.

Lemma idx_le k : (k <= 4)%nat -> (idx k <= n - 1)%nat.
Proof.
  intros Hk. unfold idx. assert (H : ((n - 1) * k <= 4 * (n - 1))%nat) by nia.
  destruct (div4_spec ((n - 1) * k)) as [E _].
  set (p := ((n - 1) * k)%nat) in *. set (i := (p / 4)%nat) in *. lia.
Qed.

(** The quantile lies between the two values it interpolates. *)
Lemma quantile4_between k :
  (k <= 4)%nat ->
  nth (idx k) v 0 <= quantile4 v k /\ quantile4 v k <= nth (nxt k) v 0.
Proof.
  intros Hk. assert (Hn := n_pos).
  assert (Hi := idx_le k Hk).
  assert (Hd : nth (idx k) v 0 <= nth (nxt k) v 0)
    by (apply sorted_nth_le; [exact Hsorted | unfold nxt; lia | unfold nxt, n in *; lia]).
  assert (Hr : (((n - 1) * k) mod 4 < 4)%nat) by (apply Nat.mod_upper_bound; lia).
  assert (Hg0 := Qnat_nonneg (((n - 1) * k) mod 4)).
  assert (Hg1 : Qnat (((n - 1) * k) mod 4) <= Qnat 4) by (apply Qnat_le; lia).
  change (Qnat 4) with 4 in Hg1.
  unfold quantile4, lerp. fold n. fold (idx k). fold (nxt k).
  set (g := Qnat (((n - 1) * k) mod 4)) in *.
  set (a := nth (idx k) v 0) in *. set (b := nth (nxt k) v 0) in *.
  split; nra.
Qed.

(** Quantiles grow with their level. *)
Lemma quantile4_mono k1 k2 :
  (k1 <= k2)%nat -> (k2 <= 4)%nat -> quantile4 v k1 <= quantile4 v k2.
Proof.
  intros H12 Hk2. assert (Hn := n_pos).
  destruct (quantile4_between k1 ltac:(lia)) as [_ H1].
  destruct (quantile4_between k2 Hk2) as [H2 _].
  assert (Hpos : ((n - 1) * k1 <= (n - 1) * k2)%nat) by nia.
  destruct (Nat.eq_dec (idx k1) (idx k2)) as [Heq|Hlt].
  - unfold quantile4, lerp. fold n. fold (idx k1). fold (idx k2). fold (nxt k1). fold (nxt k2).
    unfold nxt. rewrite Heq.
    assert (Hr : (((n - 1) * k1) mod 4 <= ((n - 1) * k2) mod 4)%nat).
    { destruct (div4_spec ((n - 1) * k1)) as [E1 _], (div4_spec ((n - 1) * k2)) as [E2 _].
      unfold idx in Heq. lia. }
    apply Qnat_le in Hr. assert (Hi2 := idx_le k2 Hk2).
    assert (Hd : nth (idx k2) v 0 <= nth (Nat.min (idx k2 + 1) (n - 1)) v 0)
      by (apply sorted_nth_le; [exact Hsorted | lia | unfold n in *; lia]).
    set (a := nth (idx k2) v 0) in *. set (b := nth (Nat.min (idx k2 + 1) (n - 1)) v 0) in *.
    set (g1 := Qnat (((n - 1) * k1) mod 4)) in *. set (g2 := Qnat (((n - 1) * k2) mod 4)) in *.
    nra.
  - assert (Hle : (nxt k1 <= idx k2)%nat).
    { assert (idx k1 <= idx k2)%nat.
      { destruct (div4_spec ((n - 1) * k1)) as [E1 R1], (div4_spec ((n - 1) * k2)) as [E2 R2].
        unfold idx in *. lia. }
      unfold nxt. lia. }
    eapply Qle_trans; [exact H1|]. eapply Qle_trans; [|exact H2].
    apply sorted_nth_le; [exact Hsorted | exact Hle |].
    assert (Hi := idx_le k2 Hk2).
    unfold n in *; lia.
Qed.

(** Every quantile lies between two values of the list. *)
Lemma quantile4_in k :
  (k <= 4)%nat -> exists x y, In x v /\ In y v /\ x <= quantile4 v k /\ quantile4 v k <= y.
Proof.
  intros Hk. assert (Hn := n_pos). destruct (quantile4_between k Hk) as [H1 H2].
  assert (Hi := idx_le k Hk).
  exists (nth (idx k) v 0), (nth (nxt k) v 0). split_and; auto; apply nth_In;
    unfold nxt, n in *; lia.
Qed.

End Quantile.

(** ** Lemmas on the description of a column *)

Lemma mean_between xs a b :
  xs <> [] -> (forall x, In x xs -> a <= x /\ x <= b) -> a <= mean xs /\ mean xs <= b.
Proof.
  intros Hne H. assert (Hn : 0 < Qnat (length xs)) by (apply Qnat_pos; destruct xs; [contradiction|simpl; lia]).
  assert (Hlo := Qsum_lower a xs (fun x Hx => proj1 (H x Hx))).
  assert (Hhi := Qsum_upper b xs (fun x Hx => proj2 (H x Hx))).
  fold (Qnat (length xs)) in Hlo, Hhi. unfold mean. split.
  - apply Qle_shift_div_l; [exact Hn|]. rewrite Qmult_comm. exact Hlo.
  - apply Qle_shift_div_r; [exact Hn|]. rewrite Qmult_comm. exact Hhi.
Qed.

Lemma squantile_fin col k :
  nums col <> [] -> squantile col k = Fin (quantile4 (QSort.sort (nums col)) k).
Proof.
  intros Hne. unfold squantile. destruct (QSort.sort (nums col)) eqn:E; [|reflexivity].
  exfalso. apply Hne, length_zero_iff_nil. rewrite <- sort_length, E. reflexivity.
Qed.

Lemma sort_nonempty l : l <> [] -> QSort.sort l <> [].
Proof.
  intros Hne E. apply Hne, length_zero_iff_nil. rewrite <- sort_length, E. reflexivity.
Qed.

Lemma In_distinct c l : In c (distinct l) <-> In c l.
Proof.
  induction l as [|d l IH]; simpl; [tauto|]. rewrite filter_In, IH.
  destruct (cell_eq_dec d c) as [E|E]; unfold equiv, complement in *; intuition.
Qed.

Lemma distinct_length l : (length (distinct l) <= length l)%nat.
Proof.
  induction l as [|d l IH]; simpl; [lia|].
  assert (H := filter_length_le (fun x => if cell_eq_dec d x then false else true) (distinct l)).
  lia.
Qed.

Lemma occurrences_pos c col : In c col -> (0 < occurrences c col)%nat.
Proof.
  unfold occurrences, countb. intros H.
  destruct (filter (fun d => if cell_eq_dec c d then true else false) col) eqn:E; [|simpl; lia].
  exfalso. assert (Hin : In c (filter (fun d => if cell_eq_dec c d then true else false) col)).
  { apply filter_In. split; [exact H|]. destruct (cell_eq_dec c c) as [_|E']; [reflexivity|].
    exfalso. apply E'. reflexivity. }
  rewrite E in Hin. exact Hin.
Qed.

Lemma occurrences_absent c col : ~ In c col -> occurrences c col = 0%nat.
Proof.
  unfold occurrences, countb. induction col as [|d col IH]; intros H; simpl; [reflexivity|].
  destruct (cell_eq_dec c d) as [E|E]; [exfalso; apply H; left; symmetry; exact E|].
  apply IH. intros Hin. apply H. now right.
Qed.

Lemma occurrences_le_count c col : isnull c = false -> (occurrences c col <= count col)%nat.
Proof.
  intros Hc. apply countb_mono. intros d.
  destruct (cell_eq_dec c d) as [E|E]; [|discriminate]. intros _.
  change (c = d) in E. subst. now rewrite Hc.
Qed.

Lemma In_value_counts c k col :
  In (c, k) (value_counts col) <-> In c col /\ isnull c = false /\ k = occurrences c col.
Proof.
  unfold value_counts. rewrite in_map_iff. split.
  - intros (c' & [= <- <-] & Hin). apply In_distinct, filter_In in Hin as [Hin Hn].
    apply negb_true_iff in Hn. auto.
  - intros (Hin & Hn & ->). exists c. split; [reflexivity|].
    apply In_distinct, filter_In. split; [exact Hin|]. now rewrite Hn.
Qed.

Lemma top_freq_spec vc c k :
  top_freq vc = Some (c, k) -> In (c, k) vc /\ forall c' k', In (c', k') vc -> (k' <= k)%nat.
Proof.
  revert c k; induction vc as [|[c0 k0] vc IH]; intros c k; simpl; [discriminate|].
  destruct (top_freq vc) as [[c1 k1]|] eqn:E.
  - destruct (IH c1 k1 eq_refl) as [Hin Hmax].
    destruct (Nat.ltb_spec k0 k1) as [Hlt|Hge]; intros H; injection H as <- <-.
    + split; [now right|]. intros c' k' [H'|H'].
      * injection H' as <- <-. lia.
      * exact (Hmax c' k' H').
    + split; [now left|]. intros c' k' [H'|H'].
      * injection H' as <- <-. lia.
      * specialize (Hmax _ _ H'). lia.
  - intros H. injection H as <- <-. split; [now left|]. intros c' k' [H'|H'].
    + injection H' as <- <-. lia.
    + exfalso. destruct vc as [|[c2 k2] vc]; [exact H'|]. simpl in E.
      destruct (top_freq vc) as [[]|]; [destruct (_ <? _)%nat|]; discriminate.
Qed.

(** ** Properties *)

(** C15. The description of a numeric column with a value is ordered:
    [min <= 25% <= 50% <= 75% <= max], and the mean lies in
    [[min, max]]. *)
Theorem describe_numeric_order col :
  nums col <> [] ->
  exists mn q1 q2 q3 mx mu,
    d_min (describe_numeric col) = Fin mn /\ d_q25 (describe_numeric col) = Fin q1 /\
    d_q50 (describe_numeric col) = Fin q2 /\ d_q75 (describe_numeric col) = Fin q3 /\
    d_max (describe_numeric col) = Fin mx /\ d_mean (describe_numeric col) = Fin mu /\
    mn <= q1 /\ q1 <= q2 /\ q2 <= q3 /\ q3 <= mx /\ mn <= mu /\ mu <= mx.
Proof.
  intros Hne. cbn [d_min d_q25 d_q50 d_q75 d_max d_mean describe_numeric].
  rewrite !squantile_fin by exact Hne.
  set (v := QSort.sort (nums col)).
  assert (Hs : StronglySorted Qle v) by apply sort_sorted.
  assert (Hv : v <> []) by (apply sort_nonempty, Hne).
  unfold series_min, series_max, smean.
  destruct (nums col) as [|x xs] eqn:E; [contradiction|].
  set (mn := fold_left Qmin xs x). set (mx := fold_left Qmax xs x).
  assert (Hb : forall y, In y (x :: xs) -> mn <= y /\ y <= mx)
    by (intros y Hy; split; [apply fold_min_le | apply fold_max_ge]; exact Hy).
  assert (Hq : forall k, (k <= 4)%nat -> mn <= quantile4 v k /\ quantile4 v k <= mx).
  { intros k Hk. destruct (quantile4_in v Hs Hv k Hk) as (y1 & y2 & H1 & H2 & Hy1 & Hy2).
    unfold v in H1, H2. rewrite sort_In in H1, H2. apply Hb in H1, H2. split; eapply Qle_trans; eauto; tauto. }
  destruct (mean_between (x :: xs) mn mx ltac:(discriminate) Hb) as [Hm1 Hm2].
  do 6 eexists. split_and; try reflexivity.
  - apply (Hq 1%nat). lia.
  - apply (quantile4_mono v Hs Hv); lia.
  - apply (quantile4_mono v Hs Hv); lia.
  - apply (Hq 3%nat). lia.
  - exact Hm1.
  - exact Hm2.
Qed.

(** C16. The variance [describe] reports (the square of its std) times
    [count - 1] is the sum of squared deviations that the correlation's
    Welford loop computes for the column paired with itself: describe's
    two-pass [nanvar] and corr's online update agree. *)
Theorem describe_var_welford col v :
  d_var (describe_numeric col) = Fin v ->
  0 <= v /\ v * Qnat (length (nums col) - 1) == ssqdmx (welford (complete_pairs col col)).
Proof.
  cbn [d_var describe_numeric]. unfold svar.
  destruct (Nat.leb_spec (length (nums col)) 1) as [_|Hlen]; [discriminate|].
  intros [= <-]. destruct (diag_moments col) as (_ & Hx & _ & _). cbn zeta in Hx.
  assert (Hpos : 0 < Qnat (length (nums col) - 1)) by (apply Qnat_pos; lia).
  assert (Hs := ssq_nonneg (nums col)). split.
  - apply Qle_shift_div_l; [exact Hpos|]. rewrite Qmult_0_l. exact Hs.
  - rewrite Hx. field. lra.
Qed.

(** C17. The categorical description's top value is a present value of
    the column, [freq] is its exact number of occurrences, positive and at
    most [count], and no present value occurs more often; [unique] is at
    most [count]. *)
Theorem describe_categorical_top col c k :
  (c_unique (describe_categorical col) <= c_count (describe_categorical col))%nat /\
  (c_top (describe_categorical col) = Some (c, k) ->
   isnull c = false /\ k = occurrences c col /\ (0 < k)%nat /\ (k <= count col)%nat /\
   forall c', isnull c' = false -> (occurrences c' col <= k)%nat).
Proof.
  cbn [c_unique c_count c_top describe_categorical]. split.
  - unfold value_counts, count, countb. rewrite length_map. apply distinct_length.
  - intros Htop. destruct (top_freq_spec _ _ _ Htop) as [Hin Hmax].
    apply In_value_counts in Hin as (Hin & Hn & ->).
    split_and; [exact Hn | reflexivity | now apply occurrences_pos | now apply occurrences_le_count |].
    intros c' Hn'. destruct (in_dec cell_eq_dec c' col) as [Hc'|Hc'].
    + apply (Hmax c'). apply In_value_counts. auto.
    + rewrite occurrences_absent by exact Hc'. lia.
Qed.

(** [df.describe()] raises exactly on a frame without columns. *)
Lemma describe_none_iff f : describe f = None <-> columns f = [].
Proof.
  unfold describe. destruct (columns f) as [|nc cols]; [tauto|].
  split; [|discriminate]. destruct (filter _ _); discriminate.
Qed.


(** ** Witnesses *)

Lemma describe_numeric_order_witness :
  exists mn q1 q2 q3 mx mu,
    d_min (describe_numeric example_x) = Fin mn /\ d_q25 (describe_numeric example_x) = Fin q1 /\
    d_q50 (describe_numeric example_x) = Fin q2 /\ d_q75 (describe_numeric example_x) = Fin q3 /\
    d_max (describe_numeric example_x) = Fin mx /\ d_mean (describe_numeric example_x) = Fin mu /\
    mn <= q1 /\ q1 <= q2 /\ q2 <= q3 /\ q3 <= mx /\ mn <= mu /\ mu <= mx.
Proof. apply describe_numeric_order. discriminate. Defined.

Lemma describe_var_welford_witness :
  exists v, d_var (describe_numeric example_x) = Fin v /\ 0 <= v /\
  v * Qnat (length (nums example_x) - 1) == ssqdmx (welford (complete_pairs example_x example_x)).
Proof.
  eexists. split; [vm_compute; reflexivity|].
  apply describe_var_welford. vm_compute. reflexivity.
Defined.

Lemma describe_categorical_top_witness :
  let col := [CStr "a"; CStr "b"; CStr "a"; CNA] in
  (c_unique (describe_categorical col) <= c_count (describe_categorical col))%nat /\
  (c_top (describe_categorical col) = Some (CStr "a", 2%nat) ->
   isnull (CStr "a") = false /\ 2%nat = occurrences (CStr "a") col /\ (0 < 2)%nat /\
   (2 <= count col)%nat /\
   forall c', isnull c' = false -> (occurrences c' col <= 2)%nat).
Proof. intros col. apply describe_categorical_top. Defined.


(** The spec's example: [x = 1..5] has mean 3, variance 5/2, quartiles
    2, 3, 4. *)
Example describe_example :
  match describe_numeric example_x with
  | mkNumDesc 5 (Fin m) (Fin v) (Fin a) (Fin q1) (Fin q2) (Fin q3) (Fin b) =>
      Qeq_bool m 3 && Qeq_bool v (5 # 2) && Qeq_bool a 1 && Qeq_bool q1 2 &&
      Qeq_bool q2 3 && Qeq_bool q3 4 && Qeq_bool b 5
  | _ => false
  end = true.
Proof. vm_compute. reflexivity. Qed.

End Stats.
