(* ===== verification/Widgets.v ===== *)
(** * The Streamlit input widgets

    The script reads the user's choices through three widget calls:
    [st.sidebar.selectbox] (lines 48-51), [st.sidebar.slider]
    (lines 56-61) and [st.selectbox] (lines 78-82).  Streamlit is a
    library, not code of this repository: its behaviour is stated here as
    an interface, the class [Widgets] of widget operations and the class
    [WidgetLaws] of what the dashboard relies on (a selectbox returns one
    of its options, a range slider with finite bounds returns a range
    inside them).  The dashboard's theorems are proved against the laws.
    [Session] is one implementation: the choices a user has made, keyed
    by widget label, with Streamlit's defaults (the first option, the
    default range) and the range clamped into the slider's bounds. *)

From Stdlib Require Import String.
From Stdlib Require Import QArith Qminmax Lqa List Bool.
From S2P Require Import Prelude Cell.
Import ListNotations.
Import Cell.

Module Widgets.

(** The widget calls; [None] is an exception raised by the widget. *)
Class Widgets (S : Type) := {
  selectbox : S -> string -> list string -> option string;
  slider : S -> string -> flt -> flt -> flt * flt -> option (flt * flt)
}.

(** What the dashboard relies on. *)
Class WidgetLaws (S : Type) `{Widgets S} := {
  selectbox_member : forall s label opts v,
    selectbox s label opts = Some v -> In v opts;
  slider_within : forall s label lo hi d a b,
    slider s label (Fin lo) (Fin hi) d = Some (a, b) ->
    exists a' b', a = Fin a' /\ b = Fin b' /\ lo <= a' /\ a' <= b' /\ b' <= hi
}.

(** What a run that completes relies on: a selectbox over a non-empty
    list of options returns, and a range slider whose bounds are finite
    and distinct returns. *)
Class WidgetTotal (S : Type) `{Widgets S} := {
  selectbox_total : forall s label o opts, selectbox s label (o :: opts) <> None;
  slider_total : forall s label lo hi d, lo < hi -> slider s label (Fin lo) (Fin hi) d <> None
}.

(** ** A user session *)

Record session := mkSession {
  choice : string -> option string;
  range : string -> option (Q * Q)
}.

(** A session where the user has not touched any widget. *)
Definition fresh : session := mkSession (fun _ => None) (fun _ => None).

Definition clamp (lo hi x : Q) : Q := Qmax lo (Qmin x hi).

Definition session_selectbox (s : session) (label : string) (opts : list string)
  : option string :=
  match opts with
  | [] => None
  | o :: _ =>
      match choice s label with
      | Some v => if existsb (String.eqb v) opts then Some v else Some o
      | None => Some o
      end
  end.

Definition session_slider (s : session) (label : string) (lo hi : flt) (d : flt * flt)
  : option (flt * flt) :=
  match lo, hi with
  | Fin l, Fin h =>
      if Qle_bool l h then
        let '(a, b) :=
          match range s label, d with
          | Some (a, b), _ => (a, b)
          | None, (Fin a, Fin b) => (a, b)
          | None, _ => (l, h)
          end in
        let a' := clamp l h a in
        Some (Fin a', Fin (clamp a' h b))
      else None
  | _, _ => None
  end.

#[export] Instance session_widgets : Widgets session :=
  {| selectbox := session_selectbox; slider := session_slider |}.

Lemma clamp_bounds l h x : l <= h -> l <= clamp l h x /\ clamp l h x <= h.
Proof.
  intros Hlh. unfold clamp. split; [apply Q.le_max_l|].
  apply Q.max_lub; [exact Hlh | apply Q.le_min_r].
Qed.

#[export] Instance session_laws : WidgetLaws session.
Proof.
  split.
  - intros s label opts v. cbn. unfold session_selectbox.
    destruct opts as [|o opts]; [discriminate|].
    destruct (choice s label) as [c|]; [|intros [= <-]; now left].
    destruct (existsb (String.eqb c) (o :: opts)) eqn:E; intros [= <-]; [|now left].
    apply existsb_exists in E as (x & Hx & Heq). apply String.eqb_eq in Heq. now subst.
  - intros s label lo hi d a b. cbn. unfold session_slider.
    destruct (Qle_bool lo hi) eqn:Hlh; [|discriminate]. apply Qle_bool_iff in Hlh.
    destruct (match range s label, d with
              | Some (a, b), _ => (a, b)
              | None, (Fin a, Fin b) => (a, b)
              | None, _ => (lo, hi)
              end) as [x y].
    intros [= <- <-]. do 2 eexists. split_and; [reflexivity|reflexivity| | |].
    + apply clamp_bounds, Hlh.
    + apply clamp_bounds. apply clamp_bounds, Hlh.
    + apply clamp_bounds. apply clamp_bounds, Hlh.
Qed.

#[export] Instance session_total : WidgetTotal session.
Proof.
  split.
  - intros s label o opts. cbn. unfold session_selectbox.
    destruct (choice s label) as [c|]; [destruct (_ || _)%bool|]; discriminate.
  - intros s label lo hi d Hlt. cbn. unfold session_slider.
    rewrite (proj2 (Qle_bool_iff lo hi) (Qlt_le_weak _ _ Hlt)).
    destruct (match range s label, d with
              | Some (a, b), _ => (a, b)
              | None, (Fin a, Fin b) => (a, b)
              | None, _ => (lo, hi)
              end). discriminate.
Qed.

End Widgets.
