(* ===== verification/Dashboard.v ===== *)
(** * The dashboard script

    [src/app.py] as a whole: one top-to-bottom run of the script for an
    upload and the user's widget choices, as the list of elements it
    renders, in order.  A run that raises (the parse of the upload, a
    widget, [describe] on a frame without columns, a KeyError) ends with
    [EException]: Streamlit shows the exception and renders nothing
    after it.  The widgets are the interface of [Widgets]; the theorems
    hold for every implementation that satisfies its laws. *)

From Stdlib Require Import String.
From Stdlib Require Import QArith Qminmax Lqa List Bool Lia PeanoNat Sorted.
From S2P Require Import Prelude Cell Frame Missing Filter Moments Corr Stats Widgets.
Import ListNotations.
Import Cell Frame Missing Filter Corr Stats Widgets.
Local Open Scope string_scope.

Module Dashboard.

(** What one run renders. *)
Inductive element :=
| ETitle (s : string)
| EWrite (s : string)
| ESubheader (s : string)
| EDataFrame (f : frame)
| EMetric (label : string) (v : nat)
| EMissing (m : list (string * nat))
| ESuccess (s : string)
| EInfo (s : string)
| EDescribe (d : description)
| ESidebarHeader (s : string)
| ELineChart (pts : list (nat * cell))
| ECorr (labels : list string) (m : list (list corr_val))
| EException.

(** The upload: no file yet, a file [read_csv] rejects, or the parsed
    frame. *)
Inductive upload :=
| NoFile
| ParseError
| Parsed (df : frame).

Section Script.
Context {S : Type} `{Widgets S} (s : S).

(** Lines 8-9. *)
Definition page_header : list element :=
  [ETitle "📊 EDA Dashboard"; EWrite "Upload a CSV file to explore the data"].

(** Lines 17-40, before [describe]: preview, metrics and missing values. *)
Definition overview (df : frame) : list element :=
  [ESubheader "🔍 Data Preview"; EDataFrame (head df);
   ESubheader "📐 Dataset Info";
   EMetric "Rows" (nrows df); EMetric "Columns" (ncols df);
   EMetric "Missing Cells" (missing_cells df);
   ESubheader "🧹 Missing Values";
   match missing_section df with
   | ShowMissing m => EMissing m
   | NoMissing => ESuccess "No missing values found 🎉"
   end;
   ESubheader "📊 Summary Statistics"].

(** Lines 45-68: the sidebar filter; [None] is an exception. *)
Definition sidebar_filter (df : frame) : option frame :=
  let numeric := numeric_cols df in
  if (0 <? length numeric)%nat then
    match selectbox s "Select numeric column" numeric with
    | None => None
    | Some selected_col =>
        match column df selected_col with
        | None => None
        | Some col =>
            let min_val := series_min col in
            let max_val := series_max col in
            match slider s "Select value range" min_val max_val (min_val, max_val) with
            | None => None
            | Some (lo, hi) => filter_range df selected_col lo hi
            end
        end
    end
  else Some df.

(** Lines 77-83: the chart of the chosen column of the filtered frame,
    its values against the filtered frame's index. *)
Definition chart (df filtered_df : frame) : option (list element) :=
  let numeric := numeric_cols df in
  if (0 <? length numeric)%nat then
    match selectbox s "Choose column for chart" numeric with
    | None => None
    | Some chart_col =>
        match column filtered_df chart_col with
        | None => None
        | Some col => Some [ELineChart (combine (index filtered_df) col)]
        end
    end
  else Some [].

(** Lines 15-88 for a parsed frame. *)
Definition body (df : frame) : list element :=
  overview df ++
  match describe df with
  | None => [EException]
  | Some d =>
      [EDescribe d; ESidebarHeader "🔧 Filters"] ++
      match sidebar_filter df with
      | None => [EException]
      | Some filtered_df =>
          [ESubheader "📁 Filtered Data"; EDataFrame (head filtered_df);
           ESubheader "📈 Column Visualization"] ++
          match chart df filtered_df with
          | None => [EException]
          | Some ch =>
              ch ++ [ESubheader "🔗 Correlation Matrix"] ++
              match corr df with
              | Some (labels, m) => [ECorr labels m]
              | None => [EException]
              end
          end
      end
  end.

(** One run of the script (lines 5-91). *)
Definition run (u : upload) : list element :=
  page_header ++
  match u with
  | NoFile => [EInfo "👆 Please upload a CSV file to continue"]
  | ParseError => [EException]
  | Parsed df => body df
  end.

End Script.

(** ** Lemmas *)

Lemma overview_no_exception df : ~ In EException (overview df).
Proof. unfold overview. destruct (missing_section df); simpl; intuition discriminate. Qed.

Lemma overview_no_chart df pts : ~ In (ELineChart pts) (overview df).
Proof. unfold overview. destruct (missing_section df); simpl; intuition discriminate. Qed.

Lemma describe_some df : columns df <> [] -> exists d, describe df = Some d.
Proof.
  intros Hne. destruct (describe df) as [d|] eqn:E; [eauto|].
  exfalso. apply Hne. now apply describe_none_iff.
Qed.

Lemma corr_some df : wf df -> exists lm, corr df = Some lm.
Proof. intros Hwf. eexists. exact (corr_select df Hwf). Qed.

(** Closes "this element is not rendered" goals, [overview] kept folded. *)
Ltac no_elem :=
  unfold page_header; repeat rewrite in_app_iff; cbn -[overview];
  intuition (discriminate || (eapply overview_no_exception; eassumption)
             || (eapply overview_no_chart; eassumption)).

(** The sidebar either leaves the frame alone or applies the range
    filter on some column. *)
Lemma sidebar_filter_range {S} `{Widgets S} (s : S) df fdf :
  sidebar_filter s df = Some fdf ->
  fdf = df \/ exists sel lo hi, filter_range df sel lo hi = Some fdf.
Proof.
  unfold sidebar_filter. destruct (0 <? length (numeric_cols df))%nat; [|intros [= <-]; now left].
  destruct (selectbox s _ _) as [sel|]; [|discriminate].
  destruct (column df sel); [|discriminate].
  destruct (slider s _ _ _ _) as [[lo hi]|]; [|discriminate]. eauto 6.
Qed.

Lemma overview_frame df g : In (EDataFrame g) (overview df) -> g = head df.
Proof. unfold overview. destruct (missing_section df); simpl; intuition congruence. Qed.

Lemma chart_no_frame {S} `{Widgets S} (s : S) df fdf ch g :
  chart s df fdf = Some ch -> ~ In (EDataFrame g) ch.
Proof.
  unfold chart. destruct (0 <? _)%nat; [|intros [= <-]; simpl; tauto].
  destruct (selectbox _ _ _); [|discriminate]. destruct (column _ _); [|discriminate].
  intros [= <-]. simpl. intuition discriminate.
Qed.

(** The preview of a well-formed row subset of [df] with [df]'s columns
    is one too, of at most five rows. *)
Lemma head_preview df f :
  wf f -> map fst (columns f) = map fst (columns df) ->
  (forall r, In r (rows f) -> In r (rows df)) ->
  wf (head f) /\ map fst (columns (head f)) = map fst (columns df) /\
  (forall r, In r (rows (head f)) -> In r (rows df)) /\ (nrows (head f) <= 5)%nat.
Proof.
  intros Hwf Hn Hr. destruct (head_n_sub 5 f Hwf) as [Hw Hs].
  split_and; [exact Hw | unfold head; now rewrite head_n_names | intros r Hin; apply Hr, Hs, Hin |].
  unfold nrows, head, head_n. cbn [index]. rewrite length_firstn. lia.
Qed.

(** The filtered frame of the sidebar is a well-formed row subset of
    [df] with its columns. *)
Lemma sidebar_filter_sub {S} `{Widgets S} (s : S) df fdf :
  wf df -> sidebar_filter s df = Some fdf ->
  wf fdf /\ map fst (columns fdf) = map fst (columns df) /\
  (forall r, In r (rows fdf) -> In r (rows df)).
Proof.
  intros Hwf Hf. apply sidebar_filter_range in Hf as [->|(sel & lo & hi & Hfr)].
  - split_and; auto.
  - exact (filter_range_sub df sel lo hi fdf Hwf Hfr).
Qed.

(** Splits an [In] over the rendered list into one goal per element. *)
Ltac in_cases H :=
  repeat rewrite in_app_iff in H; cbn [In] in H;
  repeat match type of H with _ \/ _ => destruct H as [H|H] end.

Section Render.
Context {S : Type} `{Widgets S} (s : S).

(** C29. Every table the page displays is a preview of [df]: a
    well-formed frame of at most five rows, with the columns of [df],
    whose rows are rows of [df] (the raw preview and the filtered
    preview). *)
Theorem rendered_frames df g :
  wf df -> In (EDataFrame g) (run s (Parsed df)) ->
  wf g /\ map fst (columns g) = map fst (columns df) /\
  (forall r, In r (rows g) -> In r (rows df)) /\ (nrows g <= 5)%nat.
Proof.
  intros Hwf Hin. unfold run, body, page_header in Hin.
  apply in_app_iff in Hin as [Hin|Hin]; [simpl in Hin; intuition discriminate|].
  apply in_app_iff in Hin as [Hin|Hin]; [apply overview_frame in Hin as ->; now apply head_preview|].
  destruct (describe df); [|simpl in Hin; intuition discriminate].
  destruct (sidebar_filter s df) as [fdf|] eqn:Hf; [|simpl in Hin; intuition discriminate].
  destruct (sidebar_filter_sub s df fdf Hwf Hf) as (Hw & Hn & Hr).
  destruct (chart s df fdf) as [ch|] eqn:Hc; [destruct (corr df) as [[labels m]|]|];
    in_cases Hin; try easy;
    solve [injection Hin as <-; now apply head_preview | exfalso; exact (chart_no_frame s df fdf _ g Hc Hin)].
Qed.

End Render.

(** Without a numeric column the sidebar leaves the frame alone and no
    chart is drawn. *)
Lemma no_numeric_parts {S} `{Widgets S} (s : S) df :
  numeric_cols df = [] -> sidebar_filter s df = Some df /\ chart s df df = Some [].
Proof. intros Hnil. unfold sidebar_filter, chart. now rewrite Hnil. Qed.

Section Laws.
Context {S : Type} `{WL : WidgetLaws S} (s : S).

(** ** Properties *)

(** C19. With no numeric column, the filtered view is the frame
    unchanged, no chart is drawn and no column control is queried, and
    the run completes without an exception. *)
Theorem no_numeric_run df :
  wf df -> columns df <> [] -> numeric_cols df = [] ->
  sidebar_filter s df = Some df /\ chart s df df = Some [] /\
  ~ In EException (run s (Parsed df)) /\ (forall pts, ~ In (ELineChart pts) (run s (Parsed df))).
Proof.
  intros Hwf Hne Hnil.
  destruct (no_numeric_parts s df Hnil) as [Hf Hc].
  destruct (describe_some df Hne) as [d Hd].
  assert (Hcorr : corr df = Some ([], [])) by exact (corr_empty df Hwf Hnil).
  split_and; [exact Hf | exact Hc | |];
    [|intros pts]; unfold run, body; rewrite Hd, Hf, Hc, Hcorr; no_elem.
Qed.

(** The sidebar's filter, case by case. *)
Lemma sidebar_filter_cases df fdf :
  sidebar_filter s df = Some fdf ->
  (numeric_cols df = [] /\ fdf = df) \/
  exists sel col lo hi,
    In sel (numeric_cols df) /\ column df sel = Some col /\
    filter_range df sel lo hi = Some fdf /\
    (forall mn mx, series_min col = Fin mn -> series_max col = Fin mx ->
     exists a b, lo = Fin a /\ hi = Fin b /\ mn <= a /\ a <= b /\ b <= mx).
Proof.
  unfold sidebar_filter. destruct (Nat.ltb_spec 0 (length (numeric_cols df))) as [Hlt|Hge].
  - destruct (selectbox s _ _) as [sel|] eqn:Hsel; [|discriminate].
    destruct (column df sel) as [col|] eqn:Hcol; [|discriminate].
    destruct (slider s _ _ _ _) as [[lo hi]|] eqn:Hsl; [|discriminate].
    intros Hf. right. exists sel, col, lo, hi. split_and; auto.
    + eapply selectbox_member; eauto.
    + intros mn mx Hmn Hmx. rewrite Hmn, Hmx in Hsl. eapply slider_within; eauto.
  - intros [= <-]. left. split; [|reflexivity]. now destruct (numeric_cols df).
Qed.

(** C20. The filter the sidebar applies is the range filter on a numeric
    column, with a range inside the column's [min, max] whenever these
    are finite: an out-of-bounds range is unreachable. *)
Theorem sidebar_filter_spec df fdf :
  sidebar_filter s df = Some fdf ->
  (numeric_cols df = [] /\ fdf = df) \/
  exists sel col lo hi,
    In sel (numeric_cols df) /\ column df sel = Some col /\
    filter_range df sel lo hi = Some fdf /\
    (forall mn mx, series_min col = Fin mn -> series_max col = Fin mx ->
     exists a b, lo = Fin a /\ hi = Fin b /\ mn <= a /\ a <= b /\ b <= mx).
Proof. apply sidebar_filter_cases. Qed.

(** The chart section, case by case: nothing without a numeric column,
    else the chosen numeric column of the filtered frame over its index. *)
Lemma chart_cases df fdf ch :
  chart s df fdf = Some ch ->
  (numeric_cols df = [] /\ ch = []) \/
  exists c col, In c (numeric_cols df) /\ column fdf c = Some col /\
                ch = [ELineChart (combine (index fdf) col)].
Proof.
  unfold chart. destruct (Nat.ltb_spec 0 (length (numeric_cols df))) as [Hlt|Hge].
  - destruct (selectbox s _ _) as [c|] eqn:Hsel; [|discriminate].
    destruct (column fdf c) as [col|] eqn:Hc; [|discriminate].
    intros [= <-]. right. exists c, col. split_and; [eapply selectbox_member; eauto | exact Hc | reflexivity].
  - intros [= <-]. left. split; [|reflexivity]. now destruct (numeric_cols df).
Qed.

(** C21. The line chart plots the chosen column of the filtered frame
    against its index labels, which are strictly increasing when the
    frame's index is (as [read_csv]'s [RangeIndex] is). *)
Theorem chart_points df fdf pts :
  StronglySorted lt (index df) -> sidebar_filter s df = Some fdf ->
  chart s df fdf = Some [ELineChart pts] ->
  exists c col, column fdf c = Some col /\ pts = combine (index fdf) col /\
                StronglySorted lt (index fdf).
Proof.
  intros Hsorted Hf. unfold chart.
  destruct (0 <? length (numeric_cols df))%nat; [|discriminate].
  destruct (selectbox s _ _) as [c|]; [|discriminate].
  destruct (column fdf c) as [col|] eqn:Hcol; [|discriminate].
  intros [= <-]. exists c, col. split_and; [exact Hcol|reflexivity|].
  apply sidebar_filter_range in Hf as [->|(sel & lo & hi & Hfr)]; [exact Hsorted|].
  eapply filter_range_index_sorted; eauto.
Qed.

End Laws.

(** Every numeric column of [df] has two distinct values, so its range
    slider has finite, distinct bounds. *)
Definition spread (df : frame) : Prop :=
  forall c col, In c (numeric_cols df) -> column df c = Some col ->
  exists mn mx, series_min col = Fin mn /\ series_max col = Fin mx /\ mn < mx.

Section Total.
Context {S : Type} `{Widgets S} `{!WidgetLaws S} `{!WidgetTotal S} (s : S).

Lemma sidebar_filter_some df :
  wf df -> spread df -> exists fdf, sidebar_filter s df = Some fdf.
Proof.
  intros Hwf Hsp. unfold sidebar_filter.
  destruct (Nat.ltb_spec 0 (length (numeric_cols df))) as [Hlt|]; [|eauto].
  destruct (numeric_cols df) as [|c0 cs] eqn:Hn; [simpl in Hlt; lia|].
  destruct (selectbox s _ (c0 :: cs)) as [sel|] eqn:Hsel;
    [|exfalso; eapply selectbox_total; eassumption].
  assert (Hin : In sel (numeric_cols df)) by (rewrite Hn; eapply selectbox_member; eassumption).
  destruct (numeric_cols_column df sel Hwf Hin) as (col & Hc & _). rewrite Hc.
  destruct (Hsp sel col Hin Hc) as (mn & mx & Hmn & Hmx & Hlt'). rewrite Hmn, Hmx.
  destruct (slider s _ _ _ _) as [[lo hi]|] eqn:Hsl; [|exfalso; eapply slider_total; eassumption].
  unfold filter_range. rewrite Hc. eauto.
Qed.

Lemma chart_some df fdf :
  wf df -> sidebar_filter s df = Some fdf -> exists ch, chart s df fdf = Some ch.
Proof.
  intros Hwf Hf. unfold chart.
  destruct (0 <? length (numeric_cols df))%nat eqn:Hlt; [|eauto].
  destruct (numeric_cols df) as [|c0 cs] eqn:Hn; [discriminate|].
  destruct (selectbox s _ (c0 :: cs)) as [c|] eqn:Hsel;
    [|exfalso; eapply selectbox_total; eassumption].
  assert (Hin : In c (numeric_cols df)) by (rewrite Hn; eapply selectbox_member; eassumption).
  destruct (numeric_cols_column df c Hwf Hin) as (col & Hc & _).
  apply sidebar_filter_range in Hf as [->|(sel & lo & hi & Hfr)]; [rewrite Hc; eauto|].
  unfold filter_range in Hfr. destruct (column df sel); [|discriminate].
  injection Hfr as <-. rewrite mask_rows_column, Hc. cbn. eauto.
Qed.

(** C28. Totality of the page: for any widgets that obey the laws and
    answer every well-posed query, the run on a well-formed table with
    columns, whose numeric columns each have two distinct values,
    renders without an exception and ends with the correlation matrix of
    the numeric columns. *)
Theorem run_completes df :
  wf df -> columns df <> [] -> spread df ->
  ~ In EException (run s (Parsed df)) /\
  exists m, last (run s (Parsed df)) EException = ECorr (numeric_cols df) m.
Proof.
  intros Hwf Hne Hsp.
  destruct (describe_some df Hne) as [d Hd].
  destruct (sidebar_filter_some df Hwf Hsp) as [fdf Hf].
  destruct (chart_some df fdf Hwf Hf) as [ch Hc].
  assert (Hch : ~ In EException ch).
  { revert Hc. unfold chart. destruct (0 <? _)%nat; [|intros [= <-]; simpl; tauto].
    destruct (selectbox _ _ _); [|discriminate]. destruct (column _ _); [|discriminate].
    intros [= <-]. simpl. intuition discriminate. }
  unfold run, body. rewrite Hd, Hf, Hc, (corr_select df Hwf). split.
  - unfold page_header. repeat rewrite in_app_iff. cbn -[overview].
    intuition (discriminate || (eapply overview_no_exception; eassumption)).
  - eexists. rewrite !app_assoc. apply last_last.
Qed.

End Total.

(** ** The untouched session *)

Lemma clamp_low_le mn mx q : mn <= q -> clamp mn mx mn <= q.
Proof.
  intros H. unfold clamp. apply Q.max_lub; [exact H|].
  eapply Qle_trans; [apply Q.le_min_l | exact H].
Qed.

Lemma clamp_high_ge a mx q : q <= mx -> q <= clamp a mx mx.
Proof.
  intros H. unfold clamp. eapply Qle_trans; [|apply Q.le_max_r]. apply Q.min_glb; exact H.
Qed.

(** Before the user touches the sidebar, the filter keeps exactly the
    rows whose value in the first numeric column is present. *)
Lemma fresh_sidebar df c0 cs col :
  wf df -> numeric_cols df = c0 :: cs -> column df c0 = Some col -> nums col <> [] ->
  sidebar_filter fresh df = Some (mask_rows (map (fun c => negb (isnull c)) col) df).
Proof.
  intros Hwf Hnum Hcol Hne. unfold sidebar_filter. rewrite Hnum. cbn -[column series_min series_max].
  rewrite Hcol.
  assert (Hd : infer_dtype col = DNumber).
  { assert (Hin : In c0 (numeric_cols df)) by (rewrite Hnum; now left).
    unfold numeric_cols in Hin. apply in_map_iff in Hin as ([n c] & <- & Hin).
    apply filter_In in Hin as [Hin Hnb]. simpl in *.
    destruct (infer_dtype c) eqn:E; try discriminate.
    unfold column in Hcol. rewrite (lookup_col_NoDup n (columns df) c) in Hcol
      by (apply Hwf || exact Hin). congruence. }
  unfold series_min, series_max. destruct (nums col) as [|x xs] eqn:En; [contradiction|].
  set (mn := fold_left Qmin xs x). set (mx := fold_left Qmax xs x).
  assert (Hb : forall q, In (CNum q) col -> mn <= q /\ q <= mx).
  { intros q Hq. apply In_nums in Hq. rewrite En in Hq.
    split; [apply fold_min_le | apply fold_max_ge]; exact Hq. }
  assert (Hmm : mn <= mx) by (apply (Qle_trans _ x); [apply fold_min_le | apply fold_max_ge]; now left).
  cbn. rewrite (proj2 (Qle_bool_iff mn mx) Hmm).
  unfold filter_range. rewrite Hcol, range_mask_eq. f_equal. f_equal.
  apply covering_range_mask; [exact Hd|]. intros q Hq. destruct (Hb q Hq) as [H1 H2].
  split; [now apply clamp_low_le | now apply clamp_high_ge].
Qed.


(** ** The spec's end-to-end example *)

(** A user who picks [x] in both selectboxes and the range [2, 4]. *)
Definition example_session : session :=
  mkSession (fun l => if String.eqb l "Select numeric column" then Some "x"
                      else if String.eqb l "Choose column for chart" then Some "x" else None)
            (fun l => if String.eqb l "Select value range" then Some (2, 4) else None).


(** ** Witnesses *)

Definition text_frame : frame :=
  of_rows ["name"] [[CStr "a"]; [CStr "b"]].

Lemma no_numeric_run_witness :
  sidebar_filter fresh text_frame = Some text_frame /\ chart fresh text_frame text_frame = Some [] /\
  ~ In EException (run fresh (Parsed text_frame)) /\
  (forall pts, ~ In (ELineChart pts) (run fresh (Parsed text_frame))).
Proof.
  apply no_numeric_run.
  - apply wfb_wf. vm_compute. reflexivity.
  - discriminate.
  - reflexivity.
Defined.

Lemma sidebar_filter_spec_witness :
  (numeric_cols example_frame = [] /\
   mask_rows (range_mask example_x (Fin 2) (Fin 4)) example_frame = example_frame) \/
  exists sel col lo hi,
    In sel (numeric_cols example_frame) /\ column example_frame sel = Some col /\
    filter_range example_frame sel lo hi =
      Some (mask_rows (range_mask example_x (Fin 2) (Fin 4)) example_frame) /\
    (forall mn mx, series_min col = Fin mn -> series_max col = Fin mx ->
     exists a b, lo = Fin a /\ hi = Fin b /\ mn <= a /\ a <= b /\ b <= mx).
Proof.
  apply (sidebar_filter_spec example_session). vm_compute. reflexivity.
Defined.

Lemma chart_points_witness :
  exists c col, column (mask_rows (range_mask example_x (Fin 2) (Fin 4)) example_frame) c = Some col /\
    [(1%nat, CNum 2); (2%nat, CNum 3); (3%nat, CNum 4)] =
      combine (index (mask_rows (range_mask example_x (Fin 2) (Fin 4)) example_frame)) col /\
    StronglySorted lt (index (mask_rows (range_mask example_x (Fin 2) (Fin 4)) example_frame)).
Proof.
  apply (chart_points example_session example_frame).
  - unfold example_frame, of_rows. simpl. repeat constructor; simpl; lia.
  - vm_compute. reflexivity.
  - vm_compute. reflexivity.
Defined.


Lemma run_completes_witness :
  ~ In EException (run example_session (Parsed example_frame)) /\
  exists m, last (run example_session (Parsed example_frame)) EException =
            ECorr (numeric_cols example_frame) m.
Proof.
  apply (run_completes example_session example_frame).
  - apply wfb_wf. vm_compute. reflexivity.
  - discriminate.
  - intros c col Hin Hc. vm_compute in Hin.
    destruct Hin as [<-|[<-|[]]]; vm_compute in Hc; injection Hc as <-;
      do 2 eexists; split_and; vm_compute; reflexivity.
Defined.

Lemma rendered_frames_witness :
  wf (head example_frame) /\
  map fst (columns (head example_frame)) = map fst (columns example_frame) /\
  (forall r, In r (rows (head example_frame)) -> In r (rows example_frame)) /\
  (nrows (head example_frame) <= 5)%nat.
Proof.
  apply (rendered_frames fresh example_frame (head example_frame)).
  - apply wfb_wf. vm_compute. reflexivity.
  - unfold run, body. apply in_app_iff. right. apply in_app_iff. left.
    unfold overview. simpl. tauto.
Defined.

End Dashboard.
