(* ===== verification/Page.v ===== *)
(** * The rendered page against the spec's Tabular View Engine

    The spec describes what the page shows as pure operations on the
    uploaded table: a preview, [describe] (row and column counts, the
    missing-cell total, the per-column missing counts above zero, the
    summary statistics), [filter] on a numeric column with a range inside
    its [min, max], a line plot of a numeric column of the filtered view
    and the pairwise Pearson matrix of the numeric columns.  This file
    states that description as a [page] and a relation [page_spec]
    written without the script's code paths (rows by membership, counts
    by their value, coefficients by the two-pass formula), lays a page
    out in the script's order ([render]), and proves that every run of
    [src/app.py] that raises nothing renders a page satisfying
    [page_spec]: the script refines the spec. *)

From Stdlib Require Import String.
From Stdlib Require Import QArith List Bool Lia PeanoNat.
From S2P Require Import Prelude Cell Frame Missing Filter Moments Corr Stats Widgets Dashboard.
Import ListNotations.
Import Cell Frame Missing Filter Corr Stats Widgets Dashboard.
Local Open Scope string_scope.

Module Page.

(** What the spec says the page shows. *)
Record page := mkPage {
  preview : frame;
  n_rows : nat;
  n_cols : nat;
  n_missing : nat;
  missing_listing : list (string * nat);
  summary : description;
  filtered : frame;
  plot : option (list (nat * cell));
  corr_labels : list string;
  corr_matrix : list (list corr_val)
}.

(** The page laid out in the script's order. *)
Definition render (p : page) : list element :=
  [ESubheader "🔍 Data Preview"; EDataFrame (preview p);
   ESubheader "📐 Dataset Info";
   EMetric "Rows" (n_rows p); EMetric "Columns" (n_cols p);
   EMetric "Missing Cells" (n_missing p);
   ESubheader "🧹 Missing Values";
   match missing_listing p with
   | [] => ESuccess "No missing values found 🎉"
   | m => EMissing m
   end;
   ESubheader "📊 Summary Statistics"; EDescribe (summary p);
   ESidebarHeader "🔧 Filters";
   ESubheader "📁 Filtered Data"; EDataFrame (head (filtered p));
   ESubheader "📈 Column Visualization"] ++
  match plot p with Some pts => [ELineChart pts] | None => [] end ++
  [ESubheader "🔗 Correlation Matrix"; ECorr (corr_labels p) (corr_matrix p)].

(** The cells of the numeric columns, in frame order. *)
Definition numeric_cells (df : frame) : list (list cell) :=
  map snd (filter (fun nc => is_number (infer_dtype (snd nc))) (columns df)).

(** Preview and [describe]: the first five rows, the shape, the
    missing-cell total, one entry per column with a missing cell and its
    count, and the summary statistics. *)
Definition overview_spec (df : frame) (p : page) : Prop :=
  rows (preview p) = firstn 5 (rows df) /\
  n_rows p = length (rows df) /\ n_cols p = length (columns df) /\
  n_missing p = list_sum (map (fun nc => countb isnull (snd nc)) (columns df)) /\
  NoDup (map fst (missing_listing p)) /\
  (forall name k, In (name, k) (missing_listing p) <->
     exists col, In (name, col) (columns df) /\ k = countb isnull col /\ (0 < k)%nat) /\
  describe df = Some (summary p).

(** [filter]: the table itself without a numeric column; otherwise the
    rows whose value in a numeric column lies in a range inside the
    column's [min, max], with the table's columns. *)
Definition filter_spec (df : frame) (p : page) : Prop :=
  (numeric_cols df = [] /\ filtered p = df) \/
  exists sel col lo hi,
    In sel (numeric_cols df) /\ column df sel = Some col /\
    (forall mn mx, series_min col = Fin mn -> series_max col = Fin mx ->
     exists a b, lo = Fin a /\ hi = Fin b /\ mn <= a /\ a <= b /\ b <= mx) /\
    wf (filtered p) /\ map fst (columns (filtered p)) = map fst (columns df) /\
    (forall r, In r (rows (filtered p)) <->
               exists v, In (r, v) (combine (rows df) col) /\ in_range lo hi v).

(** The plot: none without a numeric column, else a numeric column of
    the filtered view against its row labels. *)
Definition chart_spec (df : frame) (p : page) : Prop :=
  (numeric_cols df = [] /\ plot p = None) \/
  exists c col, In c (numeric_cols df) /\ column (filtered p) c = Some col /\
                plot p = Some (combine (index (filtered p)) col).

(** [correlate]: labelled by the numeric columns, each entry the Pearson
    coefficient of the pairwise-complete rows. *)
Definition corr_spec (df : frame) (p : page) : Prop :=
  corr_labels p = numeric_cols df /\
  length (corr_matrix p) = length (numeric_cols df) /\
  forall i j, (i < length (numeric_cols df))%nat -> (j < length (numeric_cols df))%nat ->
    corr_equiv (entry (corr_matrix p) i j)
               (pearson (complete_pairs (nth i (numeric_cells df) [])
                                        (nth j (numeric_cells df) []))).

Definition page_spec (df : frame) (p : page) : Prop :=
  overview_spec df p /\ filter_spec df p /\ chart_spec df p /\ corr_spec df p.

(** ** Lemmas *)

Lemma NoDup_map_fst_filter {A B} (p : A * B -> bool) (l : list (A * B)) :
  NoDup (map fst l) -> NoDup (map fst (filter p l)).
Proof.
  induction l as [|x l IH]; simpl; [auto|]. intros Hnd. apply NoDup_cons_iff in Hnd as [Hx Hnd].
  destruct (p x); simpl; [|auto]. constructor; [|auto].
  intros Hin. apply Hx. apply in_map_iff in Hin as (y & <- & Hy).
  apply filter_In in Hy as [Hy _]. now apply in_map.
Qed.

Lemma in_combine_exists {A B} (l1 : list A) (l2 : list B) x :
  length l1 = length l2 -> In x l1 -> exists y, In (x, y) (combine l1 l2).
Proof.
  revert l2; induction l1 as [|a l1 IH]; intros [|b l2] Hlen Hin; try easy.
  destruct Hin as [<-|Hin]; [exists b; now left|].
  simpl in Hlen. destruct (IH l2 ltac:(lia) Hin) as [y Hy]. exists y. now right.
Qed.

Lemma length_numeric_cells df : length (numeric_cells df) = length (numeric_cols df).
Proof. unfold numeric_cells, numeric_cols. now rewrite !length_map. Qed.

(** ** The abstraction from a run to a page *)

(** The page a run shows, from the frame and the values its sections
    computed. *)
Definition page_of (df : frame) (d : description) (fdf : frame) (ch : list element)
    (labels : list string) (m : list (list corr_val)) : page :=
  mkPage (head df) (nrows df) (ncols df) (missing_cells df) (missing_df df) d fdf
         (match ch with [ELineChart pts] => Some pts | _ => None end) labels m.

(** A run that raises nothing got a value from every section. *)
Lemma run_parts {S} `{Widgets S} (s : S) df :
  ~ In EException (run s (Parsed df)) ->
  exists d fdf ch labels m,
    describe df = Some d /\ sidebar_filter s df = Some fdf /\
    chart s df fdf = Some ch /\ corr df = Some (labels, m).
Proof.
  unfold run, body. intros Hno.
  destruct (describe df) as [d|] eqn:Hd; [|exfalso; apply Hno; rewrite !in_app_iff; simpl; tauto].
  destruct (sidebar_filter s df) as [fdf|] eqn:Hf; [|exfalso; apply Hno; rewrite !in_app_iff; simpl; tauto].
  destruct (chart s df fdf) as [ch|] eqn:Hc; [|exfalso; apply Hno; rewrite !in_app_iff; simpl; tauto].
  destruct (corr df) as [[labels m]|] eqn:Hm; [exists d, fdf, ch, labels, m; split_and; first [reflexivity | assumption]|exfalso; apply Hno; rewrite !in_app_iff; simpl; tauto].
Qed.

Lemma overview_meets df d fdf ch labels m :
  wf df -> describe df = Some d -> overview_spec df (page_of df d fdf ch labels m).
Proof.
  intros Hwf Hd. unfold overview_spec, page_of; cbn [preview n_rows n_cols n_missing
    missing_listing summary].
  split_and; [exact (rows_head df Hwf) | symmetry; apply length_rows | reflexivity
    | unfold missing_cells, isnull_sum; now rewrite map_map | | apply missing_df_In | exact Hd].
  unfold missing_df, isnull_sum. apply NoDup_map_fst_filter. rewrite map_map. apply Hwf.
Qed.

Section Refinement.
Context {S : Type} `{WL : WidgetLaws S} (s : S).

Lemma filter_meets df d fdf ch labels m :
  wf df -> sidebar_filter s df = Some fdf -> filter_spec df (page_of df d fdf ch labels m).
Proof.
  intros Hwf Hf. unfold filter_spec, page_of; cbn [filtered].
  destruct (sidebar_filter_cases s df fdf Hf) as [Hno|(sel & col & lo & hi & Hin & Hc & Hfr & Hb)];
    [now left|right].
  destruct (filter_range_sub df sel lo hi fdf Hwf Hfr) as (Hw & Hn & Hsub).
  assert (Hlen : length (rows df) = length col)
    by (rewrite length_rows; symmetry; exact (column_length df sel col Hwf Hc)).
  exists sel, col, lo, hi. split_and; auto. intros r. split.
  - intros Hr. destruct (in_combine_exists _ _ r Hlen (Hsub r Hr)) as [v Hv].
    exists v. split; [exact Hv|]. now apply (filter_range_keep df sel col lo hi fdf Hwf Hc Hfr r v Hv).
  - intros (v & Hv & Hrange). now apply (filter_range_keep df sel col lo hi fdf Hwf Hc Hfr r v Hv).
Qed.

Lemma chart_meets df d fdf ch labels m :
  chart s df fdf = Some ch -> chart_spec df (page_of df d fdf ch labels m).
Proof.
  intros Hc. unfold chart_spec, page_of; cbn [filtered plot].
  destruct (chart_cases s df fdf ch Hc) as [[Hn ->]|(c & col & Hin & Hcol & ->)];
    [now left | right; eauto].
Qed.

Lemma corr_meets df d fdf ch labels m :
  wf df -> corr df = Some (labels, m) -> corr_spec df (page_of df d fdf ch labels m).
Proof.
  intros Hwf Hm. rewrite (corr_select df Hwf) in Hm. injection Hm as <- <-.
  fold (numeric_cells df). unfold corr_spec, page_of; cbn [corr_labels corr_matrix].
  split_and; [reflexivity | unfold nancorr; now rewrite length_map, length_seq, length_numeric_cells|].
  intros i j Hi Hj. rewrite <- length_numeric_cells in Hi, Hj.
  rewrite nancorr_entry by assumption.
  destruct (j <=? i)%nat; [apply nancorr_pair_pearson|].
  rewrite nancorr_pair_sym. apply nancorr_pair_pearson.
Qed.

(** The run lays out the page of its values in the order of [render]. *)
Lemma run_layout df d fdf ch labels m :
  describe df = Some d -> sidebar_filter s df = Some fdf ->
  chart s df fdf = Some ch -> corr df = Some (labels, m) ->
  run s (Parsed df) = (page_header ++ render (page_of df d fdf ch labels m))%list.
Proof.
  intros Hd Hf Hc Hm. unfold run, body. rewrite Hd, Hf, Hc, Hm. f_equal.
  unfold render, page_of, overview, missing_section. cbn -[head].
  destruct (chart_cases s df fdf ch Hc) as [[_ ->]|(c & col & _ & _ & ->)];
    destruct (missing_df df); reflexivity.
Qed.

(** C31. Refinement of the spec by the script: every run on a
    well-formed table that raises nothing renders, in the script's
    layout, a page that satisfies the spec's description: the first five
    rows, the shape, the missing-cell total and the columns with missing
    cells and their counts, the summary, the filter as the rows in a
    range within a numeric column's [min, max], the plot of a numeric
    column of the filtered view, and the Pearson matrix of the numeric
    columns over pairwise-complete rows. *)
Theorem run_refines df :
  wf df -> ~ In EException (run s (Parsed df)) ->
  exists p, page_spec df p /\ run s (Parsed df) = (page_header ++ render p)%list.
Proof.
  intros Hwf Hno.
  destruct (run_parts s df Hno) as (d & fdf & ch & labels & m & Hd & Hf & Hc & Hm).
  exists (page_of df d fdf ch labels m). split; [unfold page_spec|now apply run_layout].
  split_and; [now apply overview_meets | now apply filter_meets
    | now apply chart_meets | now apply corr_meets].
Qed.

End Refinement.

(** ** Witness *)

Lemma run_refines_witness :
  exists p, page_spec example_frame p /\
            run example_session (Parsed example_frame) = (page_header ++ render p)%list.
Proof.
  apply (run_refines example_session example_frame).
  - apply wfb_wf. vm_compute. reflexivity.
  - vm_compute. intuition discriminate.
Defined.

End Page.
