(* ===== verification/Upload.v ===== *)
(** * From the uploaded bytes to the page

    [src/app.py] lines 12-15: [st.file_uploader] gives [None] or the
    uploaded file, and [pd.read_csv] turns its bytes into the frame the
    script renders, or raises.  [upload_of] is that step, with the
    reader of [Csv]; [app] runs the script ([Dashboard.run]) on it.  The
    theorem composes the reader with the dashboard: a file the reader
    accepts gives a well-formed frame with columns, so the dashboard's
    theorems apply to it without a well-formedness hypothesis, and with
    no numeric column the page renders without an exception. *)

From Stdlib Require Import Ascii String.
From Stdlib Require Import QArith List Bool Lia PeanoNat.
From S2P Require Import Prelude Cell Text Csv Frame Filter Corr Stats Widgets Dashboard.
Import ListNotations.
Import Cell Text Csv Frame Filter Corr Stats Widgets Dashboard.

Module Upload.

(** Lines 12-15: no file yet, a file [read_csv] rejects, or its frame;
    [None] for a file outside the reader's model. *)
Definition upload_of (file : option bytes) : option upload :=
  match file with
  | None => Some NoFile
  | Some b =>
      match read_csv b with
      | CsvOk df => Some (Parsed df)
      | CsvError => Some ParseError
      | CsvOutside => None
      end
  end.

Section App.
Context {S : Type} `{Widgets S} (s : S).

(** One run of the script on the uploader's value. *)
Definition app (file : option bytes) : option (list element) :=
  option_map (run s) (upload_of file).

(** C38. Composition of the reader with the dashboard: an upload the
    reader accepts is rendered from a well-formed frame with at least one
    column, so [describe] does not raise, and when that frame has no
    numeric column the page renders without an exception; an upload the
    reader rejects renders the header and the exception. *)
Theorem upload_csv b df :
  read_csv b = CsvOk df ->
  app (Some b) = Some (run s (Parsed df)) /\ wf df /\ columns df <> [] /\
  (exists d, describe df = Some d) /\
  (numeric_cols df = [] -> ~ In EException (run s (Parsed df))).
Proof.
  intros Hok. destruct (read_csv_wf b df Hok) as (Hwf & Hne & _).
  destruct (describe_some df Hne) as [d Hd].
  split_and; [unfold app, upload_of; now rewrite Hok | exact Hwf | exact Hne | eauto |].
  intros Hnil. destruct (no_numeric_parts s df Hnil) as [Hf Hc].
  unfold run, body. rewrite Hd, Hf, Hc, (corr_empty df Hwf Hnil). no_elem.
Qed.

End App.

(** ** Witness *)

Lemma upload_csv_witness :
  let b := list_ascii_of_string ("name,city" ++ String "010"%char "ann,rome")%string in
  let df := Csv.build ["name"; "city"]%string [[list_ascii_of_string "ann"; list_ascii_of_string "rome"]] in
  app fresh (Some b) = Some (run fresh (Parsed df)) /\ wf df /\ columns df <> [] /\
  (exists d, describe df = Some d) /\
  (numeric_cols df = [] -> ~ In EException (run fresh (Parsed df))).
Proof. intros b df. apply upload_csv. vm_compute. reflexivity. Defined.

End Upload.
